(** * AVA screen assistant: change detection and automation control loop

    A shallow embedding of the TypeScript sources
    - [services/ocrService.ts]   (text similarity and subset heuristics),
    - [services/geminiService.ts] ([analyzeScreenFrame], [checkForNewQuestion]),
    - [App.tsx] ([handleAutoPilot], [performAnalysis], [runAutomationLoop],
      the Manual Scan button, and the update of the console log in
      [addLog]),
    - [services/storageService.ts] ([getCookie]),
    - [content_school.js] ([selectOptionByText], [clickNextButton]),
    followed by the properties of the design document that are settled
    against it, and by further properties of the code.

    Conventions of the embedding.
    - A JavaScript string is a [string]; each character stands for one
      UTF-16 code unit in the range 0..255, and the character classes and
      case mapping below are those of ECMAScript restricted to that range.
    - A JavaScript number is an IEEE 754 binary64 value, [spec_float] with
      53 bits of precision; integer counters that never leave the small
      naturals ([attempts], [ocrStabilityCounterRef], lengths) are [nat].
    - Asynchronous code is written in a state monad over [World], which
      runs a function to its end; every [await] is a point where the
      automation may be switched off from outside.  The same functions are
      written once more as tasks with explicit suspension points
      ([Tasks]), to let other event handlers run while a call is
      pending. *)

From Stdlib Require Import ZArith Lia Ascii.
From Stdlib Require Import Floats.PrimFloat Floats.SpecFloat Floats.FloatOps.
From stdpp Require Import base list gmap strings.

(* ===================================================================== *)
(** * JavaScript numbers *)
(* ===================================================================== *)

Module Num.

Definition number : Type := spec_float.

Definition prec : Z := 53.
Definition emax : Z := 1024.

Definition div (x y : number) : number := SFdiv prec emax x y.
Definition mul (x y : number) : number := SFmul prec emax x y.
Definition add (x y : number) : number := SFadd prec emax x y.

(** [x < y], [x > y] and [x >= y]; all are false when an operand is NaN. *)
Definition lt (x y : number) : bool := SFltb x y.
Definition gt (x y : number) : bool := SFltb y x.
Definition ge (x y : number) : bool := SFleb y x.

(** An integer count ([Set.size], [Array.length], a loop counter) as a
    number: the exact value [n * 2^0], which is the binary64 value of every
    count below 2^53.  It is only ever an operand of [div], which rounds
    the exact quotient. *)
Definition of_nat (n : nat) : number :=
  match N.of_nat n with
  | N0 => S754_zero false
  | Npos p => S754_finite false p 0
  end.

(** Decimal literals of the sources, rounded to binary64 as the
    JavaScript parser rounds them. *)
#[warnings="-inexact-float"] Definition lit_0_2 : number := Eval vm_compute in Prim2SF 0.2%float.
#[warnings="-inexact-float"] Definition lit_0_6 : number := Eval vm_compute in Prim2SF 0.6%float.
#[warnings="-inexact-float"] Definition lit_0_8 : number := Eval vm_compute in Prim2SF 0.8%float.
#[warnings="-inexact-float"] Definition lit_0_26 : number := Eval vm_compute in Prim2SF 0.26%float.
#[warnings="-inexact-float"] Definition lit_0_7 : number := Eval vm_compute in Prim2SF 0.7%float.
#[warnings="-inexact-float"] Definition lit_0_9 : number := Eval vm_compute in Prim2SF 0.9%float.
Definition lit_0_5 : number := Eval vm_compute in Prim2SF 0.5%float.
Definition lit_0 : number := S754_zero false.
Definition lit_1 : number := Eval vm_compute in Prim2SF 1%float.
Definition lit_2 : number := Eval vm_compute in Prim2SF 2%float.
Definition lit_10 : number := Eval vm_compute in Prim2SF 10%float.
Definition lit_50 : number := Eval vm_compute in Prim2SF 50%float.
Definition lit_100 : number := Eval vm_compute in Prim2SF 100%float.

End Num.

Abbreviation number := Num.number.

(* ===================================================================== *)
(** * JavaScript strings *)
(* ===================================================================== *)

Module Str.

Definition code (c : ascii) : N := Ascii.N_of_ascii c.

Definition between (lo hi : N) (c : ascii) : bool :=
  ((lo <=? code c) && (code c <=? hi))%N.

(** [\s]: TAB, LF, VT, FF, CR, SPACE and NO-BREAK SPACE. *)
Definition isWhiteSpace (c : ascii) : bool :=
  between 9 13 c || (code c =? 32)%N || (code c =? 160)%N.

(** [\d] *)
Definition isDigit (c : ascii) : bool := between 48 57 c.

(** [[a-zA-Z]] *)
Definition isAsciiLetter (c : ascii) : bool :=
  between 65 90 c || between 97 122 c.

(** [\w]: [[A-Za-z0-9_]] *)
Definition isWordChar (c : ascii) : bool :=
  isAsciiLetter c || isDigit c || (code c =? 95)%N.

(** [String.prototype.toLowerCase] on one code unit: A-Z and the
    upper-case letters of the Latin-1 supplement (all of U+00C0..U+00DE
    but the multiplication sign U+00D7) move up by 32. *)
Definition toLowerCaseChar (c : ascii) : ascii :=
  if between 65 90 c || (between 192 222 c && negb (code c =? 215)%N)
  then Ascii.ascii_of_N (code c + 32)
  else c.

Fixpoint toLowerCase (s : string) : string :=
  match s with
  | EmptyString => EmptyString
  | String c s' => String (toLowerCaseChar c) (toLowerCase s')
  end.

(** [s.replace(/[^...]/g, '')]: keep the code units of the class [keep]. *)
Fixpoint filterChars (keep : ascii -> bool) (s : string) : string :=
  match s with
  | EmptyString => EmptyString
  | String c s' =>
      if keep c then String c (filterChars keep s') else filterChars keep s'
  end.

(** [s.replace(/C+/g, r)] for a character class [C]: every maximal run
    of [C] becomes the single character [r].  [inRun] tells that the
    previous code unit already belonged to the run. *)
Fixpoint collapseRuns (cls : ascii -> bool) (r : ascii) (inRun : bool)
    (s : string) : string :=
  match s with
  | EmptyString => EmptyString
  | String c s' =>
      if cls c then
        if inRun then collapseRuns cls r true s'
        else String r (collapseRuns cls r true s')
      else String c (collapseRuns cls r false s')
  end.

(** [s.split(/\s+/)]: the pieces between the maximal white-space runs.
    A leading or trailing run leaves an empty piece at that end, and the
    empty string splits into one empty piece.  [inSep] tells that the
    previous code unit was white space. *)
Fixpoint splitFrom (inSep : bool) (s : string) : list string :=
  match s with
  | EmptyString => [EmptyString]
  | String c s' =>
      if isWhiteSpace c then
        if inSep then splitFrom true s'
        else EmptyString :: splitFrom true s'
      else
        match splitFrom false s' with
        | piece :: pieces => String c piece :: pieces
        | [] => [String c EmptyString]
        end
  end.

Definition splitWhiteSpace (s : string) : list string := splitFrom false s.

Fixpoint trimStart (s : string) : string :=
  match s with
  | EmptyString => EmptyString
  | String c s' => if isWhiteSpace c then trimStart s' else s
  end.

Fixpoint trimEnd (s : string) : string :=
  match s with
  | EmptyString => EmptyString
  | String c s' =>
      match trimEnd s' with
      | EmptyString => if isWhiteSpace c then EmptyString else String c EmptyString
      | rest => String c rest
      end
  end.

Definition trim (s : string) : string := trimEnd (trimStart s).

(** [s.includes(sub)] *)
Fixpoint includes (s sub : string) : bool :=
  String.prefix sub s ||
  match s with
  | EmptyString => false
  | String _ s' => includes s' sub
  end.

Definition endsWith (s suffix : string) : bool :=
  let n := String.length s in
  let m := String.length suffix in
  (m <=? n)%nat && String.eqb (String.substring (n - m) m s) suffix.

(** Truthiness of a string: [!s] holds exactly for the empty string. *)
Definition isEmpty (s : string) : bool :=
  match s with EmptyString => true | _ => false end.

(** [s.replace(/^```json\s*/, '')] *)
Definition dropLeadingFence (s : string) : string :=
  if String.prefix "```json" s
  then trimStart (String.substring 7 (String.length s - 7) s)
  else s.

(** [s.replace(/\s*```$/, '')] *)
Definition dropTrailingFence (s : string) : string :=
  if endsWith s "```"
  then trimEnd (String.substring 0 (String.length s - 3) s)
  else s.

Definition dquote : string := String (Ascii.ascii_of_N 34) EmptyString.

(** [s.split(sep)] for a separator of one code unit: the pieces between
    the occurrences of [sep]; the empty string splits into one empty
    piece. *)
Fixpoint splitOn (sep : ascii) (s : string) : list string :=
  match s with
  | EmptyString => [EmptyString]
  | String c s' =>
      if Ascii.eqb c sep then EmptyString :: splitOn sep s'
      else
        match splitOn sep s' with
        | piece :: pieces => String c piece :: pieces
        | [] => [String c EmptyString]
        end
  end.

End Str.

(* ===================================================================== *)
(** * JavaScript [Set] of strings *)
(* ===================================================================== *)

Module JsSet.

(** A [Set] is kept as the list of its members in insertion order. *)
Definition has (s : list string) (x : string) : bool := bool_decide (x ∈ s).

Definition add (s : list string) (x : string) : list string :=
  if has s x then s else s ++ [x].

(** [new Set(iterable)] *)
Definition new (l : list string) : list string := foldl add [] l.

Definition size (s : list string) : nat := length s.

End JsSet.

(* ===================================================================== *)
(** * services/ocrService.ts *)
(* ===================================================================== *)

Definition calculateTextSimilarity (text1 text2 : string) : number :=
  if Str.isEmpty text1 || Str.isEmpty text2 then Num.lit_0
  else
    let set1 := JsSet.new (Str.splitWhiteSpace (Str.toLowerCase text1)) in
    let set2 := JsSet.new (Str.splitWhiteSpace (Str.toLowerCase text2)) in
    let intersection := JsSet.new (filter (λ x, JsSet.has set2 x = true) set1) in
    let union := JsSet.new (set1 ++ set2) in
    Num.div (Num.of_nat (JsSet.size intersection)) (Num.of_nat (JsSet.size union)).

(** The local [clean] of [isTextSubset]. *)
Definition clean (t : string) : list string :=
  filter (λ w, 2 < String.length w)
    (Str.splitWhiteSpace
       (Str.filterChars (λ c, Str.isWordChar c || Str.isWhiteSpace c)
          (Str.toLowerCase t))).

Definition matchCount (parentWords childWords : list string) : nat :=
  length (filter (λ word, JsSet.has parentWords word = true) childWords).

Definition isTextSubset (parentText childText : string) : bool :=
  if Str.isEmpty parentText || Str.isEmpty childText then false
  else
    let parentWords := JsSet.new (clean parentText) in
    let childWords := clean childText in
    if (length childWords =? 0)%nat then true
    else
      Num.gt (Num.div (Num.of_nat (matchCount parentWords childWords))
                      (Num.of_nat (length childWords)))
             Num.lit_0_8.

(* ===================================================================== *)
(** * types.ts *)
(* ===================================================================== *)

Record BoundingBox := {
  ymin : number;
  xmin : number;
  ymax : number;
  xmax : number;
}.

(** [boundingBox] is not declared on [QuestionOption], but
    [handleAutoPilot] reads it from the option it is given. *)
Record QuestionOption := {
  text : string;
  isCorrect : bool;
  confidenceScore : number;
  optionBox : option BoundingBox;
}.

Record QuestionData := {
  q_type : option string;
  q_questionText : option string;
  q_options : list QuestionOption;
  q_reasoning : option string;
  q_suggestedAction : option string;
  q_boundingBox : option BoundingBox;
}.

(** Optional members are [option]s; [None] is [undefined] (or [null]). *)
Record AnalysisResult := {
  hasQuestion : bool;
  questions : list QuestionData;
  error : option string;
  modelUsed : option string;
  attempts : option nat;
  questionText : option string;
  options : option (list QuestionOption);
  reasoning : option string;
  suggestedAction : option string;
  boundingBox : option BoundingBox;
  nextButton : option BoundingBox;
}.

Inductive ContextType := ctx_link | ctx_image | ctx_pdf | ctx_video | ctx_text.

Record ExternalContext := {
  ctx_type : ContextType;
  ctx_value : string;
  ctx_name : string;
}.

Record AppSettings := {
  automationEnabled : bool;
  triggerTime : bool;
  triggerSmart : bool;
  triggerHybrid : bool;
  scanIntervalMs : N;
  smartScanSensitivity : number;
  confidenceThreshold : number;
  autoSelect : bool;
  autoNext : bool;
  simplifiedMode : bool;
  modelName : string;
  speakAnswer : bool;
  debugMode : bool;
  apiKey : option string;
  externalContext : list ExternalContext;
}.

Inductive LogType := info | success | warning | error_.

(** The texts handed to [addLog] (and to [onProgress]), one constructor
    per template of the sources, with the values interpolated into it. *)
Inductive LogMessage :=
  | MsgProgress (attempt maxRetries : nat) (model : string) (schemaLess : bool)
  | MsgTargetIdentified (optionText : string)
  | MsgExecutionAttempt (attempt maxRetries : nat)
  | MsgVerifying
  | MsgSelectionConfirmed (confidence : number)
  | MsgVerificationFailed
  | MsgProceedingToNext
  | MsgFailedToVerify (maxRetries : nat)
  | MsgApiKeyMissing
  | MsgInitiating
  | MsgLocalOcr
  | MsgGeminiError (model err : string) (attemptInfo : option nat)
  | MsgRecommendation
  | MsgDetected (model : string) (fallback : bool) (count : nat)
      (attemptInfo : option nat)
  | MsgNoQuestion (model : string) (attemptInfo : option nat)
  | MsgConfidenceTooLow (score threshold : number)
  | MsgNoClearAnswer
  | MsgNeuralLinkFailed
  | MsgComplete
  | MsgDebugOcr (ocr ref : string) (sim : number) (stab : nat)
  | MsgWatchdogError (err : string)
  | MsgWatchdogNew.

(** One entry of the [sequence] posted to the action bridge. *)
Inductive Action :=
  | click (x y : number)
  | text_click (target : string)
  | next_click.

(** A captured frame: the data URL returned by [canvas.toDataURL]. *)
Definition Frame : Type := string.

(* ===================================================================== *)
(** * The environment and the world *)
(* ===================================================================== *)

(** A thrown JavaScript value, as far as the sources look at it. *)
Record JsError := {
  message : string;
  asString : string;
}.

(** What one [ai.models.generateContent] call does: it throws, or it
    resolves to a response whose text ([result.text ||
    result.candidates?.[0]?.content?.parts?.[0]?.text]) may be missing. *)
Inductive GenOutcome :=
  | GenThrows (e : JsError)
  | GenResolves (responseText : option string).

(** What [JSON.parse(...) as AnalysisResult] yields. *)
Record ParsedJson := {
  p_hasQuestion : bool;
  p_questions : option (list QuestionData);
  p_questionText : option string;
  p_options : option (list QuestionOption);
  p_reasoning : option string;
  p_suggestedAction : option string;
  p_boundingBox : option BoundingBox;
  p_error : option string;
  p_nextButton : option BoundingBox;
}.

Inductive ParseOutcome :=
  | ParseThrows (e : JsError)
  | ParseReturns (p : ParsedJson).

(** The object [checkForNewQuestion] resolves to. *)
Record CheckResult := {
  isNew : bool;
  currentText : string;
  check_error : option string;
}.

(** The object [verifySelection] resolves to.  The function is imported
    from [services/geminiService] by [App.tsx]; like its siblings it is a
    remote call, and only these two members of its result are read. *)
Record VerifyResult := {
  isSelected : bool;
  confidence : number;
}.

(** The collaborators, as scripted test doubles: the [n]-th call of each
    (counted from 0) gets the [n]-th answer. *)
Record Env := {
  captureFrame_at : nat -> option Frame;
  detectText_at : nat -> string;
  generateContent_at : nat -> GenOutcome;
  parseJSON : string -> ParseOutcome;
  checkForNewQuestion_at : nat -> CheckResult;
  verifySelection_at : nat -> VerifyResult;
  (** whether the session is stopped from outside ([isAutomationRunningRef]
      set to false, pending timer cleared) while the [n]-th awaited
      operation is pending *)
  stoppedDuring : nat -> bool;
}.

(** What the program does to the outside, oldest first. *)
Inductive Event :=
  | EvLog (ty : LogType) (msg : LogMessage)
  | EvCaptureFrame
  | EvDetectText
  | EvAnalyzeScreenFrame (model : string)
  | EvGenerateContent (model : string) (probe : bool)
  | EvCheckForNewQuestion (current : Frame) (previous : option Frame)
  | EvVerifySelection (img : Frame) (optionText : string)
  | EvPostMessage (sequence : list Action)
  | EvSleep (ms : N)
  | EvFlash
  | EvSpeak (correct : list QuestionOption)
  | EvSetTimeout (delay : N).

(** The [useRef] cells of [App]. *)
Record Refs := {
  processingRef : bool;
  lastOcrTextRef : string;
  lastScreenshotRef : option Frame;
  isAutomationRunningRef : bool;
  ocrStabilityCounterRef : nat;
  (** the pending timer of the loop, with its delay *)
  automationTimeoutRef : option N;
}.

(** The [useState] cells that the modelled functions write. *)
Record ReactState := {
  settingsState : AppSettings;
  lastResult : option AnalysisResult;
  showApiKeyModal : bool;
}.

(** How many calls of each collaborator have been made so far. *)
Record Cursors := {
  nCapture : nat;
  nDetect : nat;
  nGenerate : nat;
  nCheck : nat;
  nVerify : nat;
  nAwait : nat;
}.

Record World := {
  refs : Refs;
  react : ReactState;
  cursors : Cursors;
  trace : list Event;
}.

(** ** Field updates *)

Definition set_processingRef (b : bool) (r : Refs) : Refs :=
  {| processingRef := b;
     lastOcrTextRef := lastOcrTextRef r;
     lastScreenshotRef := lastScreenshotRef r;
     isAutomationRunningRef := isAutomationRunningRef r;
     ocrStabilityCounterRef := ocrStabilityCounterRef r;
     automationTimeoutRef := automationTimeoutRef r |}.

Definition set_lastOcrTextRef (t : string) (r : Refs) : Refs :=
  {| processingRef := processingRef r;
     lastOcrTextRef := t;
     lastScreenshotRef := lastScreenshotRef r;
     isAutomationRunningRef := isAutomationRunningRef r;
     ocrStabilityCounterRef := ocrStabilityCounterRef r;
     automationTimeoutRef := automationTimeoutRef r |}.

Definition set_lastScreenshotRef (f : option Frame) (r : Refs) : Refs :=
  {| processingRef := processingRef r;
     lastOcrTextRef := lastOcrTextRef r;
     lastScreenshotRef := f;
     isAutomationRunningRef := isAutomationRunningRef r;
     ocrStabilityCounterRef := ocrStabilityCounterRef r;
     automationTimeoutRef := automationTimeoutRef r |}.

Definition set_ocrStabilityCounterRef (n : nat) (r : Refs) : Refs :=
  {| processingRef := processingRef r;
     lastOcrTextRef := lastOcrTextRef r;
     lastScreenshotRef := lastScreenshotRef r;
     isAutomationRunningRef := isAutomationRunningRef r;
     ocrStabilityCounterRef := n;
     automationTimeoutRef := automationTimeoutRef r |}.

Definition set_automationTimeoutRef (t : option N) (r : Refs) : Refs :=
  {| processingRef := processingRef r;
     lastOcrTextRef := lastOcrTextRef r;
     lastScreenshotRef := lastScreenshotRef r;
     isAutomationRunningRef := isAutomationRunningRef r;
     ocrStabilityCounterRef := ocrStabilityCounterRef r;
     automationTimeoutRef := t |}.

(** The cleanup of the automation effect: the flag goes down and the
    pending timer is cleared. *)
Definition stopAutomation (r : Refs) : Refs :=
  {| processingRef := processingRef r;
     lastOcrTextRef := lastOcrTextRef r;
     lastScreenshotRef := lastScreenshotRef r;
     isAutomationRunningRef := false;
     ocrStabilityCounterRef := ocrStabilityCounterRef r;
     automationTimeoutRef := None |}.

Definition with_refs (f : Refs -> Refs) (w : World) : World :=
  {| refs := f (refs w); react := react w; cursors := cursors w;
     trace := trace w |}.

Definition with_react (f : ReactState -> ReactState) (w : World) : World :=
  {| refs := refs w; react := f (react w); cursors := cursors w;
     trace := trace w |}.

Definition with_cursors (f : Cursors -> Cursors) (w : World) : World :=
  {| refs := refs w; react := react w; cursors := f (cursors w);
     trace := trace w |}.

Definition with_trace (f : list Event -> list Event) (w : World) : World :=
  {| refs := refs w; react := react w; cursors := cursors w;
     trace := f (trace w) |}.

Definition bump_nCapture (c : Cursors) : Cursors :=
  {| nCapture := S (nCapture c); nDetect := nDetect c;
     nGenerate := nGenerate c; nCheck := nCheck c; nVerify := nVerify c;
     nAwait := nAwait c |}.

Definition bump_nDetect (c : Cursors) : Cursors :=
  {| nCapture := nCapture c; nDetect := S (nDetect c);
     nGenerate := nGenerate c; nCheck := nCheck c; nVerify := nVerify c;
     nAwait := nAwait c |}.

Definition bump_nGenerate (c : Cursors) : Cursors :=
  {| nCapture := nCapture c; nDetect := nDetect c;
     nGenerate := S (nGenerate c); nCheck := nCheck c; nVerify := nVerify c;
     nAwait := nAwait c |}.

Definition bump_nCheck (c : Cursors) : Cursors :=
  {| nCapture := nCapture c; nDetect := nDetect c;
     nGenerate := nGenerate c; nCheck := S (nCheck c); nVerify := nVerify c;
     nAwait := nAwait c |}.

Definition bump_nVerify (c : Cursors) : Cursors :=
  {| nCapture := nCapture c; nDetect := nDetect c;
     nGenerate := nGenerate c; nCheck := nCheck c; nVerify := S (nVerify c);
     nAwait := nAwait c |}.

Definition bump_nAwait (c : Cursors) : Cursors :=
  {| nCapture := nCapture c; nDetect := nDetect c;
     nGenerate := nGenerate c; nCheck := nCheck c; nVerify := nVerify c;
     nAwait := S (nAwait c) |}.

(** [setSettings(s => ({ ...s, automationEnabled: false }))] *)
Definition disableAutomation (s : AppSettings) : AppSettings :=
  {| automationEnabled := false;
     triggerTime := triggerTime s;
     triggerSmart := triggerSmart s;
     triggerHybrid := triggerHybrid s;
     scanIntervalMs := scanIntervalMs s;
     smartScanSensitivity := smartScanSensitivity s;
     confidenceThreshold := confidenceThreshold s;
     autoSelect := autoSelect s;
     autoNext := autoNext s;
     simplifiedMode := simplifiedMode s;
     modelName := modelName s;
     speakAnswer := speakAnswer s;
     debugMode := debugMode s;
     apiKey := apiKey s;
     externalContext := externalContext s |}.

Definition update_settingsState (f : AppSettings -> AppSettings)
    (r : ReactState) : ReactState :=
  {| settingsState := f (settingsState r); lastResult := lastResult r;
     showApiKeyModal := showApiKeyModal r |}.

Definition set_lastResult (res : option AnalysisResult) (r : ReactState)
    : ReactState :=
  {| settingsState := settingsState r; lastResult := res;
     showApiKeyModal := showApiKeyModal r |}.

Definition set_showApiKeyModal (b : bool) (r : ReactState) : ReactState :=
  {| settingsState := settingsState r; lastResult := lastResult r;
     showApiKeyModal := b |}.

(** ** The monad of the asynchronous code *)

Definition M (A : Type) : Type := Env -> World -> A * World.

#[global] Instance M_ret : MRet M := λ A a _ w, (a, w).

#[global] Instance M_bind : MBind M :=
  λ A B k m env w, let '(a, w') := m env w in k a env w'.

Definition ret {A} (a : A) : M A := mret a.

Definition ask : M Env := λ env w, (env, w).
Definition get : M World := λ _ w, (w, w).
Definition modify (f : World -> World) : M unit := λ _ w, (tt, f w).
Definition when (b : bool) (m : M unit) : M unit := if b then m else ret tt.

(** Reading [cell.current] of one of the [useRef] cells. *)
Definition readRef {A} (cell : Refs → A) : M A := λ _ w, (cell (refs w), w).

Definition emit (e : Event) : M unit := modify (with_trace (λ t, t ++ [e])).

(** A call of [addLog(message, type)].  The trace records the call; what
    the call makes of the list of console entries is [Logs.addLog]. *)
Definition addLog (msg : LogMessage) (ty : LogType) : M unit :=
  emit (EvLog ty msg).

(** Suspension at an [await] of a pending operation.  Meanwhile the
    automation may be switched off: the cleanup of the automation effect
    lowers the flag of the loop and clears its timer.  What [stopCapture]
    does besides (it ends the stream and resets [lastResult] and
    [automationEnabled]) is not part of the step; the statement on
    stopped sessions below is made for every state that a stop may
    leave. *)
Definition await : M unit :=
  λ env w,
    let n := nAwait (cursors w) in
    let w := with_cursors bump_nAwait w in
    (tt, if stoppedDuring env n then with_refs stopAutomation w else w).

(** [captureFrame()] is synchronous; [None] is [null]. *)
Definition captureFrame : M (option Frame) :=
  λ env w,
    let n := nCapture (cursors w) in
    (captureFrame_at env n,
     with_trace (λ t, t ++ [EvCaptureFrame]) (with_cursors bump_nCapture w)).

(** [await detectText(img)]; the OCR wrapper catches its own failures and
    resolves to the empty string then. *)
Definition detectText (img : Frame) : M string :=
  env ← ask; w ← get;
  emit EvDetectText;; modify (with_cursors bump_nDetect);; await;;
  ret (detectText_at env (nDetect (cursors w))).

Definition generateContent (model : string) (probe : bool) : M GenOutcome :=
  env ← ask; w ← get;
  emit (EvGenerateContent model probe);;
  modify (with_cursors bump_nGenerate);; await;;
  ret (generateContent_at env (nGenerate (cursors w))).

Definition checkForNewQuestion (current : Frame) (previous : option Frame)
    : M CheckResult :=
  env ← ask; w ← get;
  emit (EvCheckForNewQuestion current previous);;
  modify (with_cursors bump_nCheck);; await;;
  ret (checkForNewQuestion_at env (nCheck (cursors w))).

Definition verifySelection (img : Frame) (optionText : string)
    : M VerifyResult :=
  env ← ask; w ← get;
  emit (EvVerifySelection img optionText);;
  modify (with_cursors bump_nVerify);; await;;
  ret (verifySelection_at env (nVerify (cursors w))).

(** [JSON.parse(text)], with a thrown [SyntaxError] as an outcome. *)
Definition JSON_parse (txt : string) : M ParseOutcome :=
  λ env w, (parseJSON env txt, w).

(** [await new Promise(r => setTimeout(r, ms))] *)
Definition sleep (ms : N) : M unit := emit (EvSleep ms);; await.

(** [window.postMessage({ type: 'AVA_ACTION', action: 'EXECUTE_SEQUENCE',
    payload: { sequence } }, '*')] *)
Definition postMessage (sequence : list Action) : M unit :=
  emit (EvPostMessage sequence).

(* ===================================================================== *)
(** * services/geminiService.ts *)
(* ===================================================================== *)

Definition FALLBACK_MODEL : string := "gemini-flash-lite-latest".

(** [/\.(e1|e2|...)$/i.test(value)] *)
Definition hasExtension (exts : list string) (value : string) : bool :=
  existsb (λ ext, Str.endsWith (Str.toLowerCase value) ("." +:+ ext)) exts.

Definition isLink (item : ExternalContext) : bool :=
  match ctx_type item with ctx_link => true | _ => false end.

Definition isVideo (item : ExternalContext) : bool :=
  match ctx_type item with
  | ctx_video => true
  | _ => isLink item &&
         hasExtension ["mp4"; "mov"; "avi"; "wmv"; "3gp"; "mpg"; "flv"]
           (ctx_value item)
  end.

Definition isImage (item : ExternalContext) : bool :=
  match ctx_type item with
  | ctx_image => true
  | _ => isLink item &&
         hasExtension ["jpg"; "jpeg"; "png"; "webp"; "heic"; "heif"]
           (ctx_value item)
  end.

Definition isPDF (item : ExternalContext) : bool :=
  match ctx_type item with
  | ctx_pdf => true
  | _ => isLink item && hasExtension ["pdf"] (ctx_value item)
  end.

Definition supportErrorMessage (modelName : string) : string :=
  "Model " +:+ Str.dquote +:+ modelName +:+ Str.dquote +:+
  " does not support multimodal context (Images/Video/PDF). Please switch to a newer model like Gemini Flash or Pro.".

Fixpoint validateModelSupport (modelName : string)
    (context : list ExternalContext) : option string :=
  let isLegacyModel := Str.includes modelName "1.0" in
  match context with
  | [] => None
  | item :: rest =>
      if isLegacyModel && (isVideo item || isImage item || isPDF item)
      then Some (supportErrorMessage modelName)
      else validateModelSupport modelName rest
  end.

(** The object returned on the two failure paths of [analyzeScreenFrame]. *)
Definition failureResult (msg : string) : AnalysisResult :=
  {| hasQuestion := false;
     questions := [];
     questionText := None;
     options := Some [];
     reasoning := None;
     suggestedAction := None;
     error := Some msg;
     modelUsed := None;
     attempts := None;
     boundingBox := None;
     nextButton := None |}.

(** [error.message || String(error)] *)
Definition errorText (e : JsError) : string :=
  if Str.isEmpty (message e) then asString e else message e.

(** The object returned when the transcription probe of the last attempt
    gets an answer. *)
Definition probeResult (txt currentModel : string) (attempt : nat)
    : AnalysisResult :=
  {| hasQuestion := true;
     questions := [];
     questionText := Some txt;
     options := Some [];
     reasoning := Some "DIAGNOSTIC PROBE SUCCESS";
     suggestedAction := None;
     error := None;
     modelUsed := Some currentModel;
     attempts := Some attempt;
     boundingBox := None;
     nextButton := None |}.

(** The parsed answer of a schema attempt, with the legacy members filled
    in from the first question, [modelUsed] and [attempts] added. *)
Definition parsedResult (parsed : ParsedJson) (currentModel : string)
    (attempt : nat) : AnalysisResult :=
  match p_hasQuestion parsed, p_questions parsed with
  | true, Some (first :: others) =>
      {| hasQuestion := p_hasQuestion parsed;
         questions := first :: others;
         questionText := q_questionText first;
         options := Some (q_options first);
         reasoning := q_reasoning first;
         suggestedAction := q_suggestedAction first;
         error := p_error parsed;
         modelUsed := Some currentModel;
         attempts := Some attempt;
         boundingBox := q_boundingBox first;
         nextButton := p_nextButton parsed |}
  | _, _ =>
      {| hasQuestion := p_hasQuestion parsed;
         questions := default [] (p_questions parsed);
         questionText := p_questionText parsed;
         options := p_options parsed;
         reasoning := p_reasoning parsed;
         suggestedAction := p_suggestedAction parsed;
         error := p_error parsed;
         modelUsed := Some currentModel;
         attempts := Some attempt;
         boundingBox := p_boundingBox parsed;
         nextButton := p_nextButton parsed |}
  end.

Definition maxRetries_analyze : nat := 3.

Definition emptyResponse : JsError :=
  {| message := "Empty response"; asString := "Error: Empty response" |}.

Definition neuralLinkFailed : JsError :=
  {| message := "Neural link failed"; asString := "Error: Neural link failed" |}.

(** The [while (attempt < maxRetries)] loop of [analyzeScreenFrame],
    together with the [catch] around it.  [fuel] bounds the iterations; the
    loop is entered with [fuel = maxRetries]. *)
Fixpoint attemptLoop (fuel : nat) (onProgress : bool) (attempt : nat)
    (currentModel : string) : M AnalysisResult :=
  match fuel with
  | O => ret (failureResult (errorText neuralLinkFailed))
  | S fuel' =>
      if (attempt <? maxRetries_analyze)%nat then
        let attempt := S attempt in
        let isLastAttempt := (attempt =? maxRetries_analyze)%nat in
        let useStrictSchema := negb isLastAttempt in
        let isProbeAttempt := (attempt =? maxRetries_analyze)%nat in
        (** the [catch] of one attempt *)
        let caught (e : JsError) : M AnalysisResult :=
          if (maxRetries_analyze <=? attempt)%nat
          then ret (failureResult (errorText e))
          else
            let nextModel :=
              if negb (String.eqb currentModel FALLBACK_MODEL)
                 && (2 <=? attempt)%nat
              then FALLBACK_MODEL else currentModel in
            sleep (1000 * N.of_nat attempt);;
            attemptLoop fuel' onProgress attempt nextModel in
        when onProgress
          (addLog (MsgProgress attempt maxRetries_analyze currentModel
                     (negb useStrictSchema)) info);;
        out ← generateContent currentModel isProbeAttempt;
        match out with
        | GenThrows e => caught e
        | GenResolves responseText =>
            match Str.trim <$> responseText with
            | Some (String c txt') =>
                let txt := String c txt' in
                if isProbeAttempt
                then ret (probeResult txt currentModel attempt)
                else
                  let cleanedText :=
                    Str.trim (Str.dropTrailingFence (Str.dropLeadingFence txt)) in
                  parsed ← JSON_parse cleanedText;
                  match parsed with
                  | ParseThrows e => caught e
                  | ParseReturns parsed =>
                      ret (parsedResult parsed currentModel attempt)
                  end
            | _ => caught emptyResponse
            end
        end
      else ret (failureResult (errorText neuralLinkFailed))
  end.

(** [analyzeScreenFrame(base64Image, modelName, apiKey, onProgress, ocrText,
    externalContext, customInstructions)].  The image, the key, the OCR
    text and the instructions only go into the request. *)
Definition analyzeScreenFrame (modelName : string) (onProgress : bool)
    (context : list ExternalContext) : M AnalysisResult :=
  emit (EvAnalyzeScreenFrame modelName);;
  match validateModelSupport modelName context with
  | Some supportError => ret (failureResult supportError)
  | None => attemptLoop maxRetries_analyze onProgress 0 modelName
  end.

(* ===================================================================== *)
(** * App.tsx *)
(* ===================================================================== *)

(** Truthiness of an optional string member. *)
Definition truthy (s : option string) : bool :=
  match s with
  | Some s => negb (Str.isEmpty s)
  | None => false
  end.

(** [speakAnswer(result)] *)
Definition speakAnswerOf (settings : AppSettings) (result : AnalysisResult)
    : M unit :=
  match options result with
  | Some opts =>
      if speakAnswer settings && hasQuestion result then
        match filter (λ o, isCorrect o = true) opts with
        | [] => ret tt
        | correctOptions => emit (EvSpeak correctOptions)
        end
      else ret tt
  | None => ret tt
  end.

(** ** handleAutoPilot *)

Definition maxRetries_autoPilot : nat := 5.

Definition midpoint (lo hi : number) : number :=
  Num.div (Num.add lo hi) Num.lit_2.

(** The sequence built in each attempt: a coordinate click when the
    option carries a box, and always the click by text. *)
Definition selectSequence (opt : QuestionOption) : list Action :=
  match optionBox opt with
  | Some box =>
      [click (midpoint (xmin box) (xmax box)) (midpoint (ymin box) (ymax box))]
  | None => []
  end ++ [text_click (text opt)].

Definition nextSeq (nextButtonBox : option BoundingBox) : list Action :=
  match nextButtonBox with
  | Some box =>
      [click (midpoint (xmin box) (xmax box)) (midpoint (ymin box) (ymax box))]
  | None => [next_click]
  end.

(** The body of the loop of [handleAutoPilot], after [attempts++]; it
    returns the new [verified]. *)
Definition autoPilotAttempt (opt : QuestionOption) (attempts : nat)
    (verified : bool) : M bool :=
  addLog (MsgExecutionAttempt attempts maxRetries_autoPilot) info;;
  postMessage (selectSequence opt);;
  sleep 2000%N;;
  addLog MsgVerifying info;;
  verifyImg ← captureFrame;
  match verifyImg with
  | Some img =>
      verification ← verifySelection img (text opt);
      if isSelected verification then
        addLog (MsgSelectionConfirmed (confidence verification)) success;;
        ret true
      else
        addLog MsgVerificationFailed warning;;
        ret verified
  | None => ret verified
  end.

(** The [while (attempts < maxRetries && !verified)] loop; it returns the
    final [verified].  [fuel] bounds the iterations; the loop is entered
    with [fuel = maxRetries]. *)
Fixpoint autoPilotLoop (fuel : nat) (opt : QuestionOption)
    (attempts : nat) (verified : bool) : M bool :=
  match fuel with
  | O => ret verified
  | S fuel' =>
      if (attempts <? maxRetries_autoPilot)%nat && negb verified then
        let attempts := S attempts in
        verified ← autoPilotAttempt opt attempts verified;
        autoPilotLoop fuel' opt attempts verified
      else ret verified
  end.

Definition handleAutoPilot (opt : QuestionOption)
    (nextButtonBox : option BoundingBox) (clickNext : bool) : M unit :=
  addLog (MsgTargetIdentified (text opt)) success;;
  verified ← autoPilotLoop maxRetries_autoPilot opt 0 false;
  if verified && clickNext then
    addLog MsgProceedingToNext info;;
    postMessage (nextSeq nextButtonBox)
  else if negb verified then
    addLog (MsgFailedToVerify maxRetries_autoPilot) error_
  else ret tt.

(** ** performAnalysis *)

(** [result.modelUsed || settings.modelName] *)
Definition activeModelOf (settings : AppSettings) (result : AnalysisResult)
    : string :=
  match modelUsed result with
  | Some m => if Str.isEmpty m then modelName settings else m
  | None => modelName settings
  end.

(** [result.attempts && result.attempts > 1 ? ... : ''] *)
Definition attemptInfoOf (result : AnalysisResult) : option nat :=
  match attempts result with
  | Some n => if (1 <? n)%nat then Some n else None
  | None => None
  end.

Definition isQuotaError (err : string) : bool :=
  Str.includes err "Quota" || Str.includes err "429".

(** The auto-select arm at the end of [performAnalysis]. *)
Definition autoSelectArm (settings : AppSettings) (result : AnalysisResult)
    : M unit :=
  match options result with
  | Some opts =>
      if autoSelect settings && hasQuestion result then
        match List.find isCorrect opts with
        | Some correctOption =>
            if Num.ge (confidenceScore correctOption)
                      (confidenceThreshold settings)
            then handleAutoPilot correctOption (nextButton result)
                   (autoNext settings)
            else addLog (MsgConfidenceTooLow (confidenceScore correctOption)
                           (confidenceThreshold settings)) warning
        | None => addLog MsgNoClearAnswer warning
        end
      else ret tt
  | None => ret tt
  end.

(** The report on the result: the error, with the master switch turned
    off on a quota error, or the detected questions. *)
Definition reportResult (settings : AppSettings) (base64Image : Frame)
    (result : AnalysisResult) : M unit :=
  let activeModel := activeModelOf settings result in
  let attemptInfo := attemptInfoOf result in
  if truthy (error result) then
    let err := default "" (error result) in
    addLog (MsgGeminiError activeModel err attemptInfo) error_;;
    when (isQuotaError err)
      (modify (with_react (update_settingsState disableAutomation));;
       addLog MsgRecommendation warning)
  else if hasQuestion result then
    let fallbackIndicator :=
      truthy (modelUsed result)
      && negb (String.eqb (default "" (modelUsed result))
                          (modelName settings)) in
    addLog (MsgDetected activeModel fallbackIndicator
              (length (questions result)) attemptInfo) success;;
    modify (with_refs (set_lastScreenshotRef (Some base64Image)));;
    speakAnswerOf settings result
  else
    when (debugMode settings)
      (addLog (MsgNoQuestion activeModel attemptInfo) info).

(** What [performAnalysis] does with the result of the analysis call. *)
Definition handleResult (settings : AppSettings) (base64Image : Frame)
    (result : AnalysisResult) : M unit :=
  reportResult settings base64Image result;;
  modify (with_react (set_lastResult (Some result)));;
  autoSelectArm settings result.

(** The part of [performAnalysis] up to the analysis call, whose result
    it returns. *)
Definition beginAnalysis (settings : AppSettings) (base64Image : Frame)
    (shouldFlash : bool) : M AnalysisResult :=
  modify (with_refs (set_processingRef true));;
  when (negb (simplifiedMode settings) && shouldFlash) (emit EvFlash);;
  addLog MsgInitiating info;;
  when (debugMode settings) (addLog MsgLocalOcr info);;
  localOcrText ← detectText base64Image;
  analyzeScreenFrame (modelName settings) (debugMode settings)
    (externalContext settings).

(** [performAnalysis(base64Image, shouldFlash)].  [settings] is the value
    captured by the closure; [setSettings] writes the state cell.  None of
    the awaited collaborators rejects, so the [catch] arm is not entered
    and the [finally] arm runs last. *)
Definition performAnalysis (settings : AppSettings) (base64Image : Frame)
    (shouldFlash : bool) : M unit :=
  if negb (truthy (apiKey settings)) then
    modify (with_react (set_showApiKeyModal true));;
    addLog MsgApiKeyMissing error_
  else
    result ← beginAnalysis settings base64Image shouldFlash;
    handleResult settings base64Image result;;
    modify (with_refs (set_processingRef false));;
    addLog MsgComplete info.

(** ** runAutomationLoop *)

(** The clean-up of the OCR text in hybrid mode:
    [rawText.replace(/\d+/g, '#').replace(/[^a-zA-Z#\s]/g, '')
            .replace(/\s+/g, ' ').trim().toLowerCase()] *)
Definition normalizeOcrText (rawText : string) : string :=
  Str.toLowerCase
    (Str.trim
       (Str.collapseRuns Str.isWhiteSpace " "%char false
          (Str.filterChars
             (λ c, Str.isAsciiLetter c || (Str.code c =? 35)%N
                   || Str.isWhiteSpace c)
             (Str.collapseRuns Str.isDigit "#"%char false rawText)))).

Definition changeThreshold (smartScanSensitivity : number) : number :=
  let sensitivityFactor := Num.div smartScanSensitivity Num.lit_100 in
  Num.add Num.lit_0_2 (Num.mul sensitivityFactor Num.lit_0_6).

Definition rawChange (smartScanSensitivity : number)
    (lastOcrText txt : string) : bool :=
  let isMouseCovering := isTextSubset lastOcrText txt in
  let isFeedbackAdded := isTextSubset txt lastOcrText in
  let similarity := calculateTextSimilarity txt lastOcrText in
  let threshold := changeThreshold smartScanSensitivity in
  negb isMouseCovering && negb isFeedbackAdded
  && Num.lt similarity threshold && (15 <? String.length txt)%nat.

(** The debounce on [ocrStabilityCounterRef]: the new values of
    [shouldCheckAI], [lastOcrTextRef] and the counter. *)
Definition stabilityStep (isRawChange : bool) (txt lastOcrText : string)
    (counter : nat) : bool * string * nat :=
  if isRawChange then
    let counter := counter + 1 in
    if (3 <=? counter)%nat then (true, txt, 0) else (false, lastOcrText, counter)
  else (false, lastOcrText, 0).

(** The [if (settings.triggerHybrid)] block; it returns [shouldCheckAI]. *)
Definition hybridGate (settings : AppSettings) (img : Frame) : M bool :=
  rawText ← detectText img;
  let txt := normalizeOcrText rawText in
  lastOcrText ← readRef lastOcrTextRef;
  counter ← readRef ocrStabilityCounterRef;
  let isRawChange := rawChange (smartScanSensitivity settings) lastOcrText txt in
  when (debugMode settings)
    (addLog (MsgDebugOcr txt lastOcrText
               (calculateTextSimilarity txt lastOcrText) counter) info);;
  let '(shouldCheckAI, lastOcrText', counter') :=
    stabilityStep isRawChange txt lastOcrText counter in
  modify (with_refs (set_lastOcrTextRef lastOcrText'));;
  modify (with_refs (set_ocrStabilityCounterRef counter'));;
  ret shouldCheckAI.

(** What the [if (shouldCheckAI)] block does with the oracle's answer. *)
Definition afterCheck (settings : AppSettings) (img : Frame)
    (r : CheckResult) : M unit :=
  if truthy (check_error r) then
    addLog (MsgWatchdogError (default "" (check_error r))) error_
  else if isNew r then
    addLog MsgWatchdogNew success;;
    modify (with_refs (set_lastScreenshotRef (Some img)));;
    when (negb (triggerHybrid settings))
      (modify (with_refs (set_lastOcrTextRef (currentText r))));;
    performAnalysis settings img false
  else ret tt.

(** The [if (shouldCheckAI)] block. *)
Definition watchdog (settings : AppSettings) (img : Frame) : M unit :=
  previous ← readRef lastScreenshotRef;
  r ← checkForNewQuestion img previous;
  afterCheck settings img r.

(** [window.setTimeout(runAutomationLoop, delay)] *)
Definition setTimeout (delay : N) : M unit :=
  emit (EvSetTimeout delay);;
  modify (with_refs (set_automationTimeoutRef (Some delay))).

(** The work of one tick; it returns [nextRunDelay]. *)
Definition tickBody (settings : AppSettings) : M N :=
  if triggerTime settings then
    img ← captureFrame;
    match img with
    | Some img => performAnalysis settings img false
    | None => ret tt
    end;;
    ret (scanIntervalMs settings)
  else if triggerSmart settings then
    processing ← readRef processingRef;
    (if negb processing then
       img ← captureFrame;
       match img with
       | Some img =>
           shouldCheckAI ←
             (if triggerHybrid settings then hybridGate settings img
              else ret true);
           when shouldCheckAI (watchdog settings img)
       | None => ret tt
       end
     else ret tt);;
    ret 1000%N
  else ret 1000%N.

(** One run of [runAutomationLoop], that is one tick.  [stream] tells
    whether the captured closure holds a media stream. *)
Definition runAutomationLoop (settings : AppSettings) (stream : bool)
    : M unit :=
  running ← readRef isAutomationRunningRef;
  if negb running || negb stream then ret tt
  else
    nextRunDelay ← tickBody settings;
    running ← readRef isAutomationRunningRef;
    when running (setTimeout nextRunDelay).

(* ===================================================================== *)
(** * The design document's reading of the text heuristics *)
(* ===================================================================== *)

(** The token set of a text in the words of the design document: split at
    white space, each token in lower case. *)
Definition tokenSet (s : string) : gset string :=
  list_to_set (Str.toLowerCase <$> Str.splitWhiteSpace s).

(** The Jaccard index [|A ∩ B| / |A ∪ B|] of the token sets, and 0 when
    either text is empty. *)
Definition jaccardIndex (a b : string) : number :=
  if Str.isEmpty a || Str.isEmpty b then Num.lit_0
  else
    Num.div (Num.of_nat (size (tokenSet a ∩ tokenSet b)))
            (Num.of_nat (size (tokenSet a ∪ tokenSet b))).

(* ===================================================================== *)
(** * Vocabulary for the properties *)
(* ===================================================================== *)

(** ** Kinds of events and their number in a trace *)

Definition isPost (e : Event) : bool :=
  match e with EvPostMessage _ => true | _ => false end.

Definition isVerify (e : Event) : bool :=
  match e with EvVerifySelection _ _ => true | _ => false end.

Definition isCheck (e : Event) : bool :=
  match e with EvCheckForNewQuestion _ _ => true | _ => false end.

Definition isAnalyze (e : Event) : bool :=
  match e with EvAnalyzeScreenFrame _ => true | _ => false end.

Definition isSetTimeout (e : Event) : bool :=
  match e with EvSetTimeout _ => true | _ => false end.

Definition count (p : Event → bool) (tr : list Event) : nat :=
  length (List.filter p tr).

(** ** Frame conditions *)

(** Running [m] relates the world before to the world after by [R],
    which may look at the script of the collaborators. *)
Definition Keeps (R : Env → relation World) {A} (m : M A) : Prop :=
  ∀ env w, R env w (m env w).2.

(** The trace grows by events of the kind [ok] only. *)
Definition Emits (ok : Event → Prop) : relation World :=
  λ w w', ∃ evs, trace w' = trace w ++ evs ∧ Forall ok evs.

(** The two cells of the hybrid gate are left as they were. *)
Definition SameGate : relation World :=
  λ w w',
    lastOcrTextRef (refs w') = lastOcrTextRef (refs w)
    ∧ ocrStabilityCounterRef (refs w') = ocrStabilityCounterRef (refs w).

(** ** Test doubles *)

Definition DEFAULT_SETTINGS : AppSettings :=
  {| automationEnabled := false;
     triggerTime := false;
     triggerSmart := true;
     triggerHybrid := true;
     scanIntervalMs := 3000%N;
     smartScanSensitivity := Num.lit_50;
     confidenceThreshold := Num.lit_0_7;
     autoSelect := false;
     autoNext := false;
     simplifiedMode := false;
     modelName := "gemini-flash-lite-latest";
     speakAnswer := false;
     debugMode := false;
     apiKey := None;
     externalContext := [] |}.

(** The world when [App] is mounted with the given settings. *)
Definition initialWorld (settings : AppSettings) : World :=
  {| refs := {| processingRef := false;
                lastOcrTextRef := "";
                lastScreenshotRef := None;
                isAutomationRunningRef := false;
                ocrStabilityCounterRef := 0;
                automationTimeoutRef := None |};
     react := {| settingsState := settings;
                 lastResult := None;
                 showApiKeyModal := false |};
     cursors := {| nCapture := 0; nDetect := 0; nGenerate := 0; nCheck := 0;
                   nVerify := 0; nAwait := 0 |};
     trace := [] |}.

(** The automation effect switching the loop on. *)
Definition startAutomation (r : Refs) : Refs :=
  {| processingRef := processingRef r;
     lastOcrTextRef := lastOcrTextRef r;
     lastScreenshotRef := lastScreenshotRef r;
     isAutomationRunningRef := true;
     ocrStabilityCounterRef := ocrStabilityCounterRef r;
     automationTimeoutRef := automationTimeoutRef r |}.

Definition networkError : JsError :=
  {| message := "Failed to fetch"; asString := "TypeError: Failed to fetch" |}.

(** Collaborators that see a frame with a question on it, and fail or
    decline at every remote call. *)
Definition idleEnv : Env :=
  {| captureFrame_at := λ _, Some "data:image/jpeg;base64,/9j/4AAQ";
     detectText_at := λ _, "What is the capital of France?";
     generateContent_at := λ _, GenThrows networkError;
     parseJSON := λ _, ParseThrows networkError;
     checkForNewQuestion_at :=
       λ _, {| isNew := false; currentText := ""; check_error := None |};
     verifySelection_at :=
       λ _, {| isSelected := false; confidence := Num.lit_0 |};
     stoppedDuring := λ _, false |}.

Definition with_captureFrame (f : nat → option Frame) (env : Env) : Env :=
  {| captureFrame_at := f;
     detectText_at := detectText_at env;
     generateContent_at := generateContent_at env;
     parseJSON := parseJSON env;
     checkForNewQuestion_at := checkForNewQuestion_at env;
     verifySelection_at := verifySelection_at env;
     stoppedDuring := stoppedDuring env |}.

Definition with_generateContent (f : nat → GenOutcome) (env : Env) : Env :=
  {| captureFrame_at := captureFrame_at env;
     detectText_at := detectText_at env;
     generateContent_at := f;
     parseJSON := parseJSON env;
     checkForNewQuestion_at := checkForNewQuestion_at env;
     verifySelection_at := verifySelection_at env;
     stoppedDuring := stoppedDuring env |}.

Definition with_parseJSON (f : string → ParseOutcome) (env : Env) : Env :=
  {| captureFrame_at := captureFrame_at env;
     detectText_at := detectText_at env;
     generateContent_at := generateContent_at env;
     parseJSON := f;
     checkForNewQuestion_at := checkForNewQuestion_at env;
     verifySelection_at := verifySelection_at env;
     stoppedDuring := stoppedDuring env |}.

Definition with_checkForNewQuestion (f : nat → CheckResult) (env : Env)
    : Env :=
  {| captureFrame_at := captureFrame_at env;
     detectText_at := detectText_at env;
     generateContent_at := generateContent_at env;
     parseJSON := parseJSON env;
     checkForNewQuestion_at := f;
     verifySelection_at := verifySelection_at env;
     stoppedDuring := stoppedDuring env |}.

Definition with_verifySelection (f : nat → VerifyResult) (env : Env) : Env :=
  {| captureFrame_at := captureFrame_at env;
     detectText_at := detectText_at env;
     generateContent_at := generateContent_at env;
     parseJSON := parseJSON env;
     checkForNewQuestion_at := checkForNewQuestion_at env;
     verifySelection_at := f;
     stoppedDuring := stoppedDuring env |}.

Definition with_stoppedDuring (f : nat → bool) (env : Env) : Env :=
  {| captureFrame_at := captureFrame_at env;
     detectText_at := detectText_at env;
     generateContent_at := generateContent_at env;
     parseJSON := parseJSON env;
     checkForNewQuestion_at := checkForNewQuestion_at env;
     verifySelection_at := verifySelection_at env;
     stoppedDuring := f |}.

(** An option marked correct, with the given confidence and no box. *)
Definition correctOption (score : number) : QuestionOption :=
  {| text := "Paris"; isCorrect := true; confidenceScore := score;
     optionBox := None |}.

Definition wrongOption : QuestionOption :=
  {| text := "Lyon"; isCorrect := false; confidenceScore := Num.lit_0_2;
     optionBox := None |}.

Definition capitalQuestion (score : number) : QuestionData :=
  {| q_type := Some "multiple-choice";
     q_questionText := Some "What is the capital of France?";
     q_options := [wrongOption; correctOption score];
     q_reasoning := Some "Paris is the capital of France.";
     q_suggestedAction := None;
     q_boundingBox := None |}.

Definition parsedQuestion (score : number) : ParsedJson :=
  {| p_hasQuestion := true;
     p_questions := Some [capitalQuestion score];
     p_questionText := None;
     p_options := None;
     p_reasoning := None;
     p_suggestedAction := None;
     p_boundingBox := None;
     p_error := None;
     p_nextButton := None |}.

(** Collaborators whose analyzer answers at once, with one question whose
    correct option has the given confidence; the response text stands for
    the JSON document that the parser double decodes. *)
Definition answeringEnv (score : number) : Env :=
  with_parseJSON (λ _, ParseReturns (parsedQuestion score))
    (with_generateContent (λ _, GenResolves (Some "{ hasQuestion: true }"))
       idleEnv).

(** Collaborators whose analyzer is refused with a quota error at every
    attempt. *)
Definition quotaError : JsError :=
  {| message := "429 RESOURCE_EXHAUSTED: Quota exceeded";
     asString := "Error: 429 RESOURCE_EXHAUSTED: Quota exceeded" |}.

Definition quotaEnv : Env :=
  with_generateContent (λ _, GenThrows quotaError) idleEnv.

(** Collaborators whose analyzer fails twice and then transcribes. *)
Definition probeEnv : Env :=
  with_generateContent
    (λ n, if n <? 2 then GenThrows networkError
          else GenResolves (Some "What is the capital of France? A) Lyon B) Paris"))
    idleEnv.

(** The default settings with a key, auto-select and auto-advance. *)
Definition autoSelectSettings : AppSettings :=
  {| automationEnabled := true;
     triggerTime := false;
     triggerSmart := true;
     triggerHybrid := true;
     scanIntervalMs := 3000%N;
     smartScanSensitivity := Num.lit_50;
     confidenceThreshold := Num.lit_0_7;
     autoSelect := true;
     autoNext := true;
     simplifiedMode := false;
     modelName := "gemini-flash-lite-latest";
     speakAnswer := false;
     debugMode := false;
     apiKey := Some "AIza-test-key";
     externalContext := [] |}.

(** Smart mode without the local pre-filter. *)
Definition smartSettings : AppSettings :=
  {| automationEnabled := true;
     triggerTime := false;
     triggerSmart := true;
     triggerHybrid := false;
     scanIntervalMs := 3000%N;
     smartScanSensitivity := Num.lit_50;
     confidenceThreshold := Num.lit_0_7;
     autoSelect := true;
     autoNext := true;
     simplifiedMode := false;
     modelName := "gemini-flash-lite-latest";
     speakAnswer := false;
     debugMode := false;
     apiKey := Some "AIza-test-key";
     externalContext := [] |}.

(** Collaborators that report a new question, answer it with confidence
    0.9 and confirm the selection, while the session is stopped during the
    first awaited call. *)
Definition stoppedEarlyEnv : Env :=
  with_stoppedDuring (λ n, n =? 0)
    (with_verifySelection
       (λ _, {| isSelected := true; confidence := Num.lit_0_9 |})
       (with_checkForNewQuestion
          (λ _, {| isNew := true;
                   currentText := "What is the capital of France?";
                   check_error := None |})
          (answeringEnv Num.lit_0_9))).

Definition sampleFrame : Frame := "data:image/jpeg;base64,/9j/4AAQ".

(** The world of a running session. *)
Definition runningWorld (settings : AppSettings) : World :=
  with_refs startAutomation (initialWorld settings).

(** ** Failing schema attempts *)

(** One of the first two attempts of [analyzeScreenFrame] fails: the call
    throws, the response has no text, or the text does not parse. *)
Definition schemaAttemptFails (env : Env) (out : GenOutcome) : bool :=
  match out with
  | GenThrows _ => true
  | GenResolves responseText =>
      match Str.trim <$> responseText with
      | Some (String c txt') =>
          match parseJSON env
                  (Str.trim (Str.dropTrailingFence
                               (Str.dropLeadingFence (String c txt')))) with
          | ParseThrows _ => true
          | ParseReturns _ => false
          end
      | _ => true
      end
  end.

(** The React state is left as it was. *)
Definition SameReact : relation World := λ w w', react w' = react w.

(** ** The events of one attempt of the auto-pilot *)

Definition attemptEvents (opt : QuestionOption) (attempt : nat)
    (verifyImg : option Frame) (verification : VerifyResult) : list Event :=
  [EvLog info (MsgExecutionAttempt attempt maxRetries_autoPilot);
   EvPostMessage (selectSequence opt);
   EvSleep 2000%N;
   EvLog info MsgVerifying;
   EvCaptureFrame]
  ++ match verifyImg with
     | Some img =>
         [EvVerifySelection img (text opt);
          if isSelected verification
          then EvLog success (MsgSelectionConfirmed (confidence verification))
          else EvLog warning MsgVerificationFailed]
     | None => []
     end.

(** ** Stopping the session during a tick *)

(** The flag of the loop is down and no timer is pending. *)
Definition stopped (w : World) : Prop :=
  isAutomationRunningRef (refs w) = false
  ∧ automationTimeoutRef (refs w) = None.

(** A stop made before, or during one of the awaits passed since, is still
    in force. *)
Definition StopsSeen : Env → relation World :=
  λ env w w',
    nAwait (cursors w) ≤ nAwait (cursors w')
    ∧ (stopped w → stopped w')
    ∧ (∀ n, nAwait (cursors w) ≤ n < nAwait (cursors w') →
            stoppedDuring env n = true → stopped w').

(** When the script never stops the session, the flag stays as it is. *)
Definition NeverStopped : Env → relation World :=
  λ env w w',
    (∀ n, stoppedDuring env n = false) →
    isAutomationRunningRef (refs w') = isAutomationRunningRef (refs w).

(** ** The hybrid gate over a sequence of ticks *)

(** The gate on one OCR text: whether the tick is a raw candidate,
    whether it escalates, and the new [lastOcrTextRef] and counter. *)
Definition gateStep (sensitivity : number) (st : string * nat) (txt : string)
    : (bool * bool) * (string * nat) :=
  let isRawChange := rawChange sensitivity st.1 txt in
  let '(shouldCheckAI, lastOcrText', counter') :=
    stabilityStep isRawChange txt st.1 st.2 in
  ((isRawChange, shouldCheckAI), (lastOcrText', counter')).

(** The gate over the OCR texts of successive ticks: per tick the pair
    (raw candidate, escalated), and the final state. *)
Fixpoint gateRun (sensitivity : number) (st : string * nat)
    (txts : list string) : list (bool * bool) * (string * nat) :=
  match txts with
  | [] => ([], st)
  | txt :: rest =>
      let '(flags, st') := gateStep sensitivity st txt in
      let '(log, final) := gateRun sensitivity st' rest in
      (flags :: log, final)
  end.

(** The number of candidate ticks at the end of a sequence of ticks. *)
Fixpoint trailingCandidates (newestFirst : list bool) : nat :=
  match newestFirst with
  | true :: older => S (trailingCandidates older)
  | _ => 0
  end.

(** ** More kinds of events *)

Definition isGenerate (e : Event) : bool :=
  match e with EvGenerateContent _ _ => true | _ => false end.

Definition isSleep (e : Event) : bool :=
  match e with EvSleep _ => true | _ => false end.

Definition isLog (e : Event) : bool :=
  match e with EvLog _ _ => true | _ => false end.

Definition isDetect (e : Event) : bool :=
  match e with EvDetectText => true | _ => false end.

Definition isCapture (e : Event) : bool :=
  match e with EvCaptureFrame => true | _ => false end.

(** ** More test doubles *)

(** The settings of a session that only looks: a key, auto-select off. *)
Definition lookOnlySettings : AppSettings :=
  {| automationEnabled := true;
     triggerTime := false;
     triggerSmart := true;
     triggerHybrid := true;
     scanIntervalMs := 3000%N;
     smartScanSensitivity := Num.lit_50;
     confidenceThreshold := Num.lit_0_7;
     autoSelect := false;
     autoNext := false;
     simplifiedMode := false;
     modelName := "gemini-flash-lite-latest";
     speakAnswer := false;
     debugMode := false;
     apiKey := Some "AIza-test-key";
     externalContext := [] |}.

(** The settings of a session on the timer, every 3 seconds. *)
Definition timedSettings : AppSettings :=
  {| automationEnabled := true;
     triggerTime := true;
     triggerSmart := true;
     triggerHybrid := true;
     scanIntervalMs := 3000%N;
     smartScanSensitivity := Num.lit_50;
     confidenceThreshold := Num.lit_0_7;
     autoSelect := false;
     autoNext := false;
     simplifiedMode := false;
     modelName := "gemini-flash-lite-latest";
     speakAnswer := false;
     debugMode := false;
     apiKey := Some "AIza-test-key";
     externalContext := [] |}.

(** Collaborators whose change oracle reports a new question and whose
    analyzer answers it at once with confidence 0.9. *)
Definition newQuestionEnv : Env :=
  with_checkForNewQuestion
    (λ _, {| isNew := true;
             currentText := "What is the capital of France?";
             check_error := None |})
    (answeringEnv Num.lit_0_9).

(** Collaborators whose change oracle fails. *)
Definition oracleDownEnv : Env :=
  with_checkForNewQuestion
    (λ _, {| isNew := false; currentText := "";
             check_error := Some "Failed to fetch" |})
    (answeringEnv Num.lit_0_9).

(** ** More frame conditions *)

(** The stability counter is left as it was. *)
Definition SameCounter : relation World :=
  λ w w', ocrStabilityCounterRef (refs w') = ocrStabilityCounterRef (refs w).

(** The reference frame is left as it was. *)
Definition SameShot : relation World :=
  λ w w', lastScreenshotRef (refs w') = lastScreenshotRef (refs w).

(** The busy flag is left as it was. *)
Definition SameBusy : relation World :=
  λ w w', processingRef (refs w') = processingRef (refs w).

(** ** A series of ticks *)

(** The ticks of a session one after the other, each with the settings
    and the stream that its closure holds. *)
Fixpoint runTicks (ticks : list (AppSettings * bool)) : M unit :=
  match ticks with
  | [] => ret tt
  | (settings, stream) :: rest =>
      runAutomationLoop settings stream;; runTicks rest
  end.

(** ** Budgets of calls *)

(** How many calls of each kind a stretch of the run may make. *)
Record Budget := {
  checks : nat;
  analyses : nat;
  requests : nat;
  dispatches : nat;
  verifications : nat;
  timers : nat;
}.

Definition noCalls : Budget :=
  {| checks := 0; analyses := 0; requests := 0; dispatches := 0;
     verifications := 0; timers := 0 |}.

Definition addBudget (a b : Budget) : Budget :=
  {| checks := checks a + checks b;
     analyses := analyses a + analyses b;
     requests := requests a + requests b;
     dispatches := dispatches a + dispatches b;
     verifications := verifications a + verifications b;
     timers := timers a + timers b |}.

Definition leBudget (a b : Budget) : Prop :=
  checks a ≤ checks b ∧ analyses a ≤ analyses b ∧ requests a ≤ requests b
  ∧ dispatches a ≤ dispatches b ∧ verifications a ≤ verifications b
  ∧ timers a ≤ timers b.

(** An event that is a call of one of the kinds that are budgeted. *)
Definition isCounted (e : Event) : bool :=
  isCheck e || isAnalyze e || isGenerate e || isPost e || isVerify e
  || isSetTimeout e.

(** From [w] to [w'] the calls stay within the budget. *)
Definition Within (b : Budget) : relation World :=
  λ w w',
    count isCheck (trace w') ≤ count isCheck (trace w) + checks b
    ∧ count isAnalyze (trace w') ≤ count isAnalyze (trace w) + analyses b
    ∧ count isGenerate (trace w') ≤ count isGenerate (trace w) + requests b
    ∧ count isPost (trace w') ≤ count isPost (trace w) + dispatches b
    ∧ count isVerify (trace w') ≤ count isVerify (trace w) + verifications b
    ∧ count isSetTimeout (trace w') ≤ count isSetTimeout (trace w) + timers b.

(** Running [m] stays within the budget. *)
Definition Spends (b : Budget) {A} (m : M A) : Prop :=
  ∀ env w, Within b w (m env w).2.

(** The budget of the analysis call, of the selection of an answer, of
    one analysis, and of one tick. *)
Definition requestBudget : Budget :=
  {| checks := 0; analyses := 1; requests := 3; dispatches := 0;
     verifications := 0; timers := 0 |}.

Definition selectionBudget : Budget :=
  {| checks := 0; analyses := 0; requests := 0; dispatches := 6;
     verifications := 5; timers := 0 |}.

Definition analysisBudget : Budget :=
  {| checks := 0; analyses := 1; requests := 3; dispatches := 6;
     verifications := 5; timers := 0 |}.

Definition workBudget : Budget :=
  {| checks := 1; analyses := 1; requests := 3; dispatches := 6;
     verifications := 5; timers := 0 |}.

Definition tickBudget : Budget :=
  {| checks := 1; analyses := 1; requests := 3; dispatches := 6;
     verifications := 5; timers := 1 |}.

(** The events of a trace that are no log entries. *)
Definition withoutLogs (tr : list Event) : list Event :=
  List.filter (λ e, negb (isLog e)) tr.

(** An item of the external context that a legacy model cannot take. *)
Definition isMultimodal (item : ExternalContext) : bool :=
  isVideo item || isImage item || isPDF item.

(** The model of the attempt after a failed attempt number [attempt]. *)
Definition modelAfterFailure (currentModel : string) (attempt : nat)
    : string :=
  if negb (String.eqb currentModel FALLBACK_MODEL) && (2 <=? attempt)%nat
  then FALLBACK_MODEL else currentModel.

(** What attempt number [attempt] of [analyzeScreenFrame] makes of the
    outcome of its request: the result that it returns, or the error
    that its [catch] gets. *)
Definition attemptResult (env : Env) (currentModel : string) (attempt : nat)
    (out : GenOutcome) : AnalysisResult + JsError :=
  match out with
  | GenThrows e => inr e
  | GenResolves responseText =>
      match Str.trim <$> responseText with
      | Some (String c txt') =>
          let txt := String c txt' in
          if (attempt =? maxRetries_analyze)%nat
          then inl (probeResult txt currentModel attempt)
          else
            match parseJSON env
                    (Str.trim (Str.dropTrailingFence
                                 (Str.dropLeadingFence txt))) with
            | ParseThrows e => inr e
            | ParseReturns parsed =>
                inl (parsedResult parsed currentModel attempt)
            end
      | _ => inr emptyResponse
      end
  end.

(** Whether every code unit of a string is in the class [p]. *)
Fixpoint allChars (p : ascii → bool) (s : string) : bool :=
  match s with
  | EmptyString => true
  | String c s' => p c && allChars p s'
  end.

(** The alphabet of a normalized OCR text: [a-z], [#] and the space. *)
Definition isNormalChar (c : ascii) : bool :=
  Str.between 97 122 c || (Str.code c =? 35)%N || (Str.code c =? 32)%N.

(** No space at the start, no two spaces in a row, no space at the end;
    [afterSpace] tells that the previous code unit was a space, or that
    the string starts here. *)
Fixpoint singleSpaced (afterSpace : bool) (s : string) : bool :=
  match s with
  | EmptyString => true
  | String c s' =>
      if (Str.code c =? 32)%N
      then negb afterSpace && negb (Str.isEmpty s') && singleSpaced true s'
      else singleSpaced false s'
  end.

(* ===================================================================== *)
(** * App.tsx: the entries of the console log *)
(* ===================================================================== *)

Module Logs.

Record LogEntry := {
  id : string;
  timestamp : string;
  message : string;
  type : LogType;
  count : option nat;
}.

Definition sameType (a b : LogType) : bool :=
  match a, b with
  | info, info | success, success | warning, warning | error_, error_ => true
  | _, _ => false
  end.

(** [count || 1] *)
Definition countOr1 (c : option nat) : nat :=
  match c with
  | Some (S n) => S n
  | _ => 1
  end.

(** The update that [addLog(msg, ty)] hands to [setLogs], applied to the
    entries [prev].  [now] is the time of the call as [toLocaleTimeString]
    prints it, [newId] the random id drawn for a new entry, [debugMode]
    the setting captured by the callback. *)
Definition addLog (debugMode : bool) (now newId : string) (msg : string)
    (ty : LogType) (prev : list LogEntry) : list LogEntry :=
  let newLog :=
    {| id := newId; timestamp := now; message := msg; type := ty;
       count := Some 1 |} in
  let appended := drop (length prev - 49) prev ++ [newLog] in
  if negb debugMode && (0 <? length prev)%nat then
    match last prev with
    | Some lastLog =>
        if String.eqb (message lastLog) msg && sameType (type lastLog) ty
        then
          let updatedLog :=
            {| id := id lastLog; timestamp := now;
               message := message lastLog; type := type lastLog;
               count := Some (countOr1 (count lastLog) + 1) |} in
          take (length prev - 1) prev ++ [updatedLog]
        else appended
    | None => appended
    end
  else appended.

(** [clearLogs()]: the entries are dropped, then the clearing is logged. *)
Definition clearLogs (debugMode : bool) (now newId : string)
    (prev : list LogEntry) : list LogEntry :=
  addLog debugMode now newId "System logs cleared." info [].

(** One call of [addLog], with the setting and the clock of that time. *)
Record Call := {
  call_debugMode : bool;
  call_now : string;
  call_newId : string;
  call_message : string;
  call_type : LogType;
}.

Definition step (logs : list LogEntry) (c : Call) : list LogEntry :=
  addLog (call_debugMode c) (call_now c) (call_newId c) (call_message c)
    (call_type c) logs.

(** The entries after a series of calls, oldest call first. *)
Definition run (calls : list Call) (logs : list LogEntry) : list LogEntry :=
  foldl step logs calls.

(** How many calls the entries stand for. *)
Definition occurrences (logs : list LogEntry) : nat :=
  foldr (λ e n, countOr1 (count e) + n) 0 logs.

(** Two neighbouring entries with the same message and type. *)
Fixpoint hasRepeat (logs : list LogEntry) : bool :=
  match logs with
  | e1 :: ((e2 :: _) as rest) =>
      (String.eqb (message e1) (message e2) && sameType (type e1) (type e2))
      || hasRepeat rest
  | _ => false
  end.

End Logs.

(* ===================================================================== *)
(** * services/storageService.ts *)
(* ===================================================================== *)

Module storageService.

(** [while (c.charAt(0) === ' ') c = c.substring(1, c.length)] *)
Fixpoint dropSpaces (c : string) : string :=
  match c with
  | EmptyString => EmptyString
  | String ch c' => if Ascii.eqb ch " " then dropSpaces c' else c
  end.

(** The [for] loop of [getCookie] over the pieces [ca]. *)
Fixpoint findCookie (nameEQ : string) (ca : list string) : option string :=
  match ca with
  | [] => None
  | c :: rest =>
      let c := dropSpaces c in
      if String.prefix nameEQ c
      then Some (String.substring (String.length nameEQ)
                   (String.length c - String.length nameEQ) c)
      else findCookie nameEQ rest
  end.

(** [getCookie(name)], reading [document.cookie]. *)
Definition getCookie (document_cookie name : string) : option string :=
  findCookie (name +:+ "=") (Str.splitOn ";" document_cookie).

(** The string that [document.cookie] yields for a jar of cookies: the
    pairs [name=value], separated by a semicolon and a space. *)
Definition cookieString (jar : list (string * string)) : string :=
  String.concat "; " ((λ p, p.1 +:+ "=" +:+ p.2) <$> jar).

(** The value of the first cookie of the jar with the given name. *)
Fixpoint firstValue (name : string) (jar : list (string * string))
    : option string :=
  match jar with
  | [] => None
  | (n, v) :: rest => if String.eqb n name then Some v else firstValue name rest
  end.

Definition hasChar (ch : ascii) (s : string) : bool :=
  negb (allChars (λ c, negb (Ascii.eqb c ch)) s).

(** A cookie as a browser stores it: no semicolon in the name or in the
    value, no equals sign in the name, no space at the start of the
    name. *)
Definition wellFormed (p : string * string) : bool :=
  negb (hasChar ";" p.1) && negb (hasChar "=" p.1)
  && negb (String.prefix " " p.1) && negb (hasChar ";" p.2).

End storageService.

(* ===================================================================== *)
(** * content_school.js *)
(* ===================================================================== *)

Module content_school.

(** An element of the page, as far as the script looks at it:
    [innerText], [children.length] and [value]. *)
Record Element := {
  innerText : string;
  children : nat;
  value : option string;
}.

(** An element that [selectOptionByText] looks at. *)
Definition eligible (el : Element) : bool := negb (5 <? children el)%nat.

(** The partial-match test of [selectOptionByText]. *)
Definition partialMatch (normalizedText elText : string) : bool :=
  (2 <? String.length elText)%nat
  && (Str.includes normalizedText elText
      || Str.includes elText normalizedText).

Section LowerCase.

(** [selectOptionByText] is stated for any case mapping in the place of
    [toLowerCase]: its loop compares the length of a text in lower case
    with the length of a text as it is, and the lower case of a string of
    UTF-16 code units need not have the length of the string (U+0130
    becomes two code units), unlike [Str.toLowerCase] on the code units
    0..255. *)
Variable toLowerCase : string → string.

(** The [for] loop of [selectOptionByText] over the elements that are
    left, each with its position in the result of [querySelectorAll]. *)
Fixpoint selectLoop (normalizedText : string)
    (elements : list (nat * Element)) (bestMatch : option (nat * Element))
    : option (nat * Element) :=
  match elements with
  | [] => bestMatch
  | (i, el) :: rest =>
      if (5 <? children el)%nat then selectLoop normalizedText rest bestMatch
      else
        let elText := toLowerCase (Str.trim (innerText el)) in
        if String.eqb elText normalizedText then Some (i, el)
        else if partialMatch normalizedText elText then
          match bestMatch with
          | Some (_, best) =>
              if (String.length (Str.trim (innerText best))
                  <? String.length elText)%nat
              then selectLoop normalizedText rest (Some (i, el))
              else selectLoop normalizedText rest bestMatch
          | None => selectLoop normalizedText rest (Some (i, el))
          end
        else selectLoop normalizedText rest bestMatch
  end.

(** [selectOptionByText(text)] on the elements that the selector finds,
    in document order; the element found comes with its position. *)
Definition selectOptionByText (text : string) (elements : list Element)
    : option (nat * Element) :=
  selectLoop (toLowerCase (Str.trim text)) (imap pair elements) None.

(** [el.innerText.trim().toLowerCase()] *)
Definition elementText (el : Element) : string :=
  toLowerCase (Str.trim (innerText el)).

(** An element whose text is the text looked for, and one whose text
    matches it in part. *)
Definition isExact (normalizedText : string) (el : Element) : bool :=
  eligible el && String.eqb (elementText el) normalizedText.

Definition isCandidate (normalizedText : string) (el : Element) : bool :=
  eligible el && partialMatch normalizedText (elementText el).

(** [el.innerText.trim().length] and [elText.length] *)
Definition rawLength (el : Element) : nat :=
  String.length (Str.trim (innerText el)).

Definition lowerLength (el : Element) : nat :=
  String.length (elementText el).

End LowerCase.

Definition nextKeywords : list string :=
  ["next"; "continue"; "submit"; "check"; "confirm"; "arrow_forward";
   "forward"; "submit answer"; "save & next"].

(** [(btn.innerText || btn.value || '').trim().toLowerCase()] *)
Definition buttonText (btn : Element) : string :=
  Str.toLowerCase
    (Str.trim
       (if Str.isEmpty (innerText btn) then default "" (value btn)
        else innerText btn)).

(** The [for] loop of [clickNextButton]; it returns the position of the
    button that is clicked. *)
Fixpoint nextLoop (buttons : list (nat * Element)) : option nat :=
  match buttons with
  | [] => None
  | (i, btn) :: rest =>
      let text := buttonText btn in
      if existsb (λ k, String.eqb text k || Str.includes text k) nextKeywords
      then
        if Str.includes text "prev" || Str.includes text "back"
        then nextLoop rest
        else Some i
      else nextLoop rest
  end.

(** [clickNextButton()] on the buttons that the selector finds: the
    position of the button clicked, or [None] when it returns false. *)
Definition clickNextButton (buttons : list Element) : option nat :=
  nextLoop (imap pair buttons).

(** The words that decide about a button, without those that contain
    another one of them. *)
Definition shortKeywords : list string :=
  ["next"; "continue"; "submit"; "check"; "confirm"; "forward"].

(** A button that [clickNextButton] is ready to click. *)
Definition isNextButton (btn : Element) : bool :=
  existsb (Str.includes (buttonText btn)) shortKeywords
  && negb (Str.includes (buttonText btn) "prev")
  && negb (Str.includes (buttonText btn) "back").

End content_school.

(* ===================================================================== *)
(** * The debug switch *)
(* ===================================================================== *)

(** The settings with [debugMode] set to [b]. *)
Definition withDebugMode (b : bool) (s : AppSettings) : AppSettings :=
  {| automationEnabled := automationEnabled s;
     triggerTime := triggerTime s;
     triggerSmart := triggerSmart s;
     triggerHybrid := triggerHybrid s;
     scanIntervalMs := scanIntervalMs s;
     smartScanSensitivity := smartScanSensitivity s;
     confidenceThreshold := confidenceThreshold s;
     autoSelect := autoSelect s;
     autoNext := autoNext s;
     simplifiedMode := simplifiedMode s;
     modelName := modelName s;
     speakAnswer := speakAnswer s;
     debugMode := b;
     apiKey := apiKey s;
     externalContext := externalContext s |}.

(** Two values of the settings that differ at most in [debugMode]. *)
Definition SameButDebug (s1 s2 : AppSettings) : Prop :=
  withDebugMode false s1 = withDebugMode false s2.

(** The messages that are written behind a test of [settings.debugMode]:
    the progress of the analysis attempts, the start of the local OCR
    scan, the analysis without a question and the OCR figures of the
    hybrid gate. *)
Definition isDebugMessage (msg : LogMessage) : bool :=
  match msg with
  | MsgProgress _ _ _ _ | MsgLocalOcr | MsgNoQuestion _ _
  | MsgDebugOcr _ _ _ _ => true
  | _ => false
  end.

Definition isDebugLog (e : Event) : bool :=
  match e with
  | EvLog _ msg => isDebugMessage msg
  | _ => false
  end.

Definition withoutDebugLogs (tr : list Event) : list Event :=
  List.filter (λ e, negb (isDebugLog e)) tr.

(** Two worlds with the same cells, the same React state and the same
    scripts left. *)
Definition SameState (w1 w2 : World) : Prop :=
  refs w1 = refs w2 ∧ react w1 = react w2 ∧ cursors w1 = cursors w2.

(** [verbose] does what [quiet] does, and writes debug messages on top:
    from the same state both return the same and reach the same state,
    and the events of [quiet] are those of [verbose] without the debug
    messages. *)
Definition DebugOf {A} (quiet verbose : M A) : Prop :=
  ∀ env w1 w2,
    SameState w1 w2 →
    (quiet env w1).1 = (verbose env w2).1
    ∧ SameState (quiet env w1).2 (verbose env w2).2
    ∧ ∃ evs,
        trace (verbose env w2).2 = trace w2 ++ evs
        ∧ trace (quiet env w1).2 = trace w1 ++ withoutDebugLogs evs.

(* ===================================================================== *)
(** * The asynchronous code as tasks *)
(* ===================================================================== *)

(** The state monad above runs an asynchronous function to its end.  To
    let event handlers run while a call is pending, the asynchronous
    functions of [App.tsx] are written once more as tasks: trees of
    synchronous code and suspension points, one for every [await].
    [Tasks.run] runs a task to its end; it gives the functions above
    back. *)

Module Tasks.

(** What a suspended task waits for: the local OCR scan, a
    [generateContent] request, the answer of the change oracle, the answer
    of the verification, or a timer. *)
Inductive Pending := OcrScan | Request | OracleCall | Verification | Timer.

(** The calls that leave the browser. *)
Definition isRemote (p : Pending) : bool :=
  match p with
  | Request | OracleCall | Verification => true
  | OcrScan | Timer => false
  end.

Inductive Task (A : Type) : Type :=
  | Return (a : A)
  | Sync {B : Type} (m : M B) (k : B → Task A)
  | Suspend (p : Pending) (k : Task A).

Arguments Return {A} a.
Arguments Sync {A B} m k.
Arguments Suspend {A} p k.

Fixpoint bind {A B} (t : Task A) (k : A → Task B) : Task B :=
  match t with
  | Return a => k a
  | Sync m k' => Sync m (λ b, bind (k' b) k)
  | Suspend p t' => Suspend p (bind t' k)
  end.

#[global] Instance Task_ret : MRet Task := λ A a, Return a.

#[global] Instance Task_bind : MBind Task := λ A B k t, bind t k.

(** Synchronous code, and an [await] of a pending operation. *)
Definition sync {B} (m : M B) : Task B := Sync m Return.

Definition suspend (p : Pending) : Task unit := Suspend p (Return tt).

(** A task run to its end, with nothing else in between. *)
Fixpoint run {A} (t : Task A) : M A :=
  match t with
  | Return a => ret a
  | Sync m k => b ← m; run (k b)
  | Suspend p k => await;; run k
  end.

(** The worlds in which the task, run alone, is suspended, each with
    what the task waits for. *)
Fixpoint suspensions {A} (t : Task A) (env : Env) (w : World)
    : list (Pending * World) :=
  match t with
  | Return a => []
  | Sync m k => let '(b, w') := m env w in suspensions (k b) env w'
  | Suspend p k => (p, w) :: suspensions k env (await env w).2
  end.

(** ** The collaborators *)

(** Each call sends the request, is suspended, and reads the scripted
    answer with the number of the request. *)
Definition detectText (img : Frame) : Task string :=
  n ← sync (w ← get;
            emit EvDetectText;; modify (with_cursors bump_nDetect);;
            ret (nDetect (cursors w)));
  suspend OcrScan;;
  sync (env ← ask; ret (detectText_at env n)).

Definition generateContent (model : string) (probe : bool)
    : Task GenOutcome :=
  n ← sync (w ← get;
            emit (EvGenerateContent model probe);;
            modify (with_cursors bump_nGenerate);;
            ret (nGenerate (cursors w)));
  suspend Request;;
  sync (env ← ask; ret (generateContent_at env n)).

Definition checkForNewQuestion (current : Frame) (previous : option Frame)
    : Task CheckResult :=
  n ← sync (w ← get;
            emit (EvCheckForNewQuestion current previous);;
            modify (with_cursors bump_nCheck);;
            ret (nCheck (cursors w)));
  suspend OracleCall;;
  sync (env ← ask; ret (checkForNewQuestion_at env n)).

Definition verifySelection (img : Frame) (optionText : string)
    : Task VerifyResult :=
  n ← sync (w ← get;
            emit (EvVerifySelection img optionText);;
            modify (with_cursors bump_nVerify);;
            ret (nVerify (cursors w)));
  suspend Verification;;
  sync (env ← ask; ret (verifySelection_at env n)).

Definition sleep (ms : N) : Task unit :=
  sync (emit (EvSleep ms));; suspend Timer.

(** ** The functions of the loop *)

Fixpoint attemptLoop (fuel : nat) (onProgress : bool) (attempt : nat)
    (currentModel : string) : Task AnalysisResult :=
  match fuel with
  | O => mret (failureResult (errorText neuralLinkFailed))
  | S fuel' =>
      if (attempt <? maxRetries_analyze)%nat then
        let attempt := S attempt in
        let isLastAttempt := (attempt =? maxRetries_analyze)%nat in
        let useStrictSchema := negb isLastAttempt in
        let isProbeAttempt := (attempt =? maxRetries_analyze)%nat in
        let caught (e : JsError) : Task AnalysisResult :=
          if (maxRetries_analyze <=? attempt)%nat
          then mret (failureResult (errorText e))
          else
            let nextModel :=
              if negb (String.eqb currentModel FALLBACK_MODEL)
                 && (2 <=? attempt)%nat
              then FALLBACK_MODEL else currentModel in
            sleep (1000 * N.of_nat attempt);;
            attemptLoop fuel' onProgress attempt nextModel in
        sync (when onProgress
                (addLog (MsgProgress attempt maxRetries_analyze currentModel
                           (negb useStrictSchema)) info));;
        out ← generateContent currentModel isProbeAttempt;
        match out with
        | GenThrows e => caught e
        | GenResolves responseText =>
            match Str.trim <$> responseText with
            | Some (String c txt') =>
                let txt := String c txt' in
                if isProbeAttempt
                then mret (probeResult txt currentModel attempt)
                else
                  let cleanedText :=
                    Str.trim (Str.dropTrailingFence (Str.dropLeadingFence txt)) in
                  parsed ← sync (JSON_parse cleanedText);
                  match parsed with
                  | ParseThrows e => caught e
                  | ParseReturns parsed =>
                      mret (parsedResult parsed currentModel attempt)
                  end
            | _ => caught emptyResponse
            end
        end
      else mret (failureResult (errorText neuralLinkFailed))
  end.

Definition analyzeScreenFrame (modelName : string) (onProgress : bool)
    (context : list ExternalContext) : Task AnalysisResult :=
  sync (emit (EvAnalyzeScreenFrame modelName));;
  match validateModelSupport modelName context with
  | Some supportError => mret (failureResult supportError)
  | None => attemptLoop maxRetries_analyze onProgress 0 modelName
  end.

Definition autoPilotAttempt (opt : QuestionOption) (attempts : nat)
    (verified : bool) : Task bool :=
  sync (addLog (MsgExecutionAttempt attempts maxRetries_autoPilot) info);;
  sync (postMessage (selectSequence opt));;
  sleep 2000%N;;
  sync (addLog MsgVerifying info);;
  verifyImg ← sync captureFrame;
  match verifyImg with
  | Some img =>
      verification ← verifySelection img (text opt);
      if isSelected verification then
        sync (addLog (MsgSelectionConfirmed (confidence verification))
                success);;
        mret true
      else
        sync (addLog MsgVerificationFailed warning);;
        mret verified
  | None => mret verified
  end.

Fixpoint autoPilotLoop (fuel : nat) (opt : QuestionOption)
    (attempts : nat) (verified : bool) : Task bool :=
  match fuel with
  | O => mret verified
  | S fuel' =>
      if (attempts <? maxRetries_autoPilot)%nat && negb verified then
        let attempts := S attempts in
        verified ← autoPilotAttempt opt attempts verified;
        autoPilotLoop fuel' opt attempts verified
      else mret verified
  end.

Definition handleAutoPilot (opt : QuestionOption)
    (nextButtonBox : option BoundingBox) (clickNext : bool) : Task unit :=
  sync (addLog (MsgTargetIdentified (text opt)) success);;
  verified ← autoPilotLoop maxRetries_autoPilot opt 0 false;
  if verified && clickNext then
    sync (addLog MsgProceedingToNext info);;
    sync (postMessage (nextSeq nextButtonBox))
  else if negb verified then
    sync (addLog (MsgFailedToVerify maxRetries_autoPilot) error_)
  else mret tt.

Definition autoSelectArm (settings : AppSettings) (result : AnalysisResult)
    : Task unit :=
  match options result with
  | Some opts =>
      if autoSelect settings && hasQuestion result then
        match List.find isCorrect opts with
        | Some correctOption =>
            if Num.ge (confidenceScore correctOption)
                      (confidenceThreshold settings)
            then handleAutoPilot correctOption (nextButton result)
                   (autoNext settings)
            else sync (addLog (MsgConfidenceTooLow
                                 (confidenceScore correctOption)
                                 (confidenceThreshold settings)) warning)
        | None => sync (addLog MsgNoClearAnswer warning)
        end
      else mret tt
  | None => mret tt
  end.

Definition handleResult (settings : AppSettings) (base64Image : Frame)
    (result : AnalysisResult) : Task unit :=
  sync (reportResult settings base64Image result);;
  sync (modify (with_react (set_lastResult (Some result))));;
  autoSelectArm settings result.

Definition beginAnalysis (settings : AppSettings) (base64Image : Frame)
    (shouldFlash : bool) : Task AnalysisResult :=
  sync (modify (with_refs (set_processingRef true)));;
  sync (when (negb (simplifiedMode settings) && shouldFlash) (emit EvFlash));;
  sync (addLog MsgInitiating info);;
  sync (when (debugMode settings) (addLog MsgLocalOcr info));;
  localOcrText ← detectText base64Image;
  analyzeScreenFrame (modelName settings) (debugMode settings)
    (externalContext settings).

Definition performAnalysis (settings : AppSettings) (base64Image : Frame)
    (shouldFlash : bool) : Task unit :=
  if negb (truthy (apiKey settings)) then
    sync (modify (with_react (set_showApiKeyModal true)));;
    sync (addLog MsgApiKeyMissing error_)
  else
    result ← beginAnalysis settings base64Image shouldFlash;
    handleResult settings base64Image result;;
    sync (modify (with_refs (set_processingRef false)));;
    sync (addLog MsgComplete info).

Definition hybridGate (settings : AppSettings) (img : Frame) : Task bool :=
  rawText ← detectText img;
  let txt := normalizeOcrText rawText in
  lastOcrText ← sync (readRef lastOcrTextRef);
  counter ← sync (readRef ocrStabilityCounterRef);
  let isRawChange := rawChange (smartScanSensitivity settings) lastOcrText txt in
  sync (when (debugMode settings)
          (addLog (MsgDebugOcr txt lastOcrText
                     (calculateTextSimilarity txt lastOcrText) counter)
             info));;
  let '(shouldCheckAI, lastOcrText', counter') :=
    stabilityStep isRawChange txt lastOcrText counter in
  sync (modify (with_refs (set_lastOcrTextRef lastOcrText')));;
  sync (modify (with_refs (set_ocrStabilityCounterRef counter')));;
  mret shouldCheckAI.

Definition afterCheck (settings : AppSettings) (img : Frame)
    (r : CheckResult) : Task unit :=
  if truthy (check_error r) then
    sync (addLog (MsgWatchdogError (default "" (check_error r))) error_)
  else if isNew r then
    sync (addLog MsgWatchdogNew success);;
    sync (modify (with_refs (set_lastScreenshotRef (Some img))));;
    sync (when (negb (triggerHybrid settings))
            (modify (with_refs (set_lastOcrTextRef (currentText r)))));;
    performAnalysis settings img false
  else mret tt.

Definition watchdog (settings : AppSettings) (img : Frame) : Task unit :=
  previous ← sync (readRef lastScreenshotRef);
  r ← checkForNewQuestion img previous;
  afterCheck settings img r.

Definition tickBody (settings : AppSettings) : Task N :=
  if triggerTime settings then
    img ← sync captureFrame;
    match img with
    | Some img => performAnalysis settings img false
    | None => mret tt
    end;;
    mret (scanIntervalMs settings)
  else if triggerSmart settings then
    processing ← sync (readRef processingRef);
    (if negb processing then
       img ← sync captureFrame;
       match img with
       | Some img =>
           shouldCheckAI ←
             (if triggerHybrid settings then hybridGate settings img
              else mret true);
           if shouldCheckAI : bool then watchdog settings img else mret tt
       | None => mret tt
       end
     else mret tt);;
    mret 1000%N
  else mret 1000%N.

Definition runAutomationLoop (settings : AppSettings) (stream : bool)
    : Task unit :=
  running ← sync (readRef isAutomationRunningRef);
  if negb running || negb stream then mret tt
  else
    nextRunDelay ← tickBody settings;
    running ← sync (readRef isAutomationRunningRef);
    sync (when running (setTimeout nextRunDelay)).

(** The [onClick] of the Manual Scan button:
    [const img = captureFrame(); if (img) { performAnalysis(img); }];
    [shouldFlash] takes its default, [true]. *)
Definition manualScan (settings : AppSettings) : Task unit :=
  img ← sync captureFrame;
  match img with
  | Some img => performAnalysis settings img true
  | None => mret tt
  end.

(** ** Handlers that run while calls are pending *)

(** A task that is suspended, with what it waits for. *)
Definition Suspended : Type := Pending * Task unit.

(** A task run up to its next suspension point, or to its end. *)
Fixpoint advance (t : Task unit) (env : Env) (w : World)
    : World * option Suspended :=
  match t with
  | Return _ => (w, None)
  | Sync m k => let '(b, w') := m env w in advance (k b) env w'
  | Suspend p k => (w, Some (p, k))
  end.

(** The state of the page: the world and the suspended tasks, oldest
    first. *)
Record Config := {
  world : World;
  suspended : list Suspended;
}.

(** What the event loop does next: it calls an event handler (a click,
    a timer that fires), or the pending operation of the [i]-th suspended
    task settles and the task goes on. *)
Inductive Move :=
  | Fire (handler : Task unit)
  | Settle (i : nat).

Definition step (env : Env) (c : Config) (mv : Move) : Config :=
  match mv with
  | Fire handler =>
      let '(w, s) := advance handler env (world c) in
      {| world := w; suspended := suspended c ++ option_list s |}
  | Settle i =>
      match suspended c !! i with
      | Some (_, k) =>
          let '(w, s) := advance (Sync await (λ _, k)) env (world c) in
          {| world := w;
             suspended := match s with
                          | Some s => <[i := s]> (suspended c)
                          | None => delete i (suspended c)
                          end |}
      | None => c
      end
  end.

Definition play (env : Env) (moves : list Move) (c : Config) : Config :=
  foldl (step env) c moves.

(** The remote calls that are outstanding, and what each suspended task
    waits for. *)
Definition outstanding (c : Config) : nat :=
  length (filter (λ s, isRemote s.1 = true) (suspended c)).

Definition waitingFor (c : Config) : list Pending := fst <$> suspended c.

End Tasks.

(** A task that, run to its end, is the function of the state monad. *)
Definition Agrees {A} (t : Tasks.Task A) (m : M A) : Prop :=
  ∀ env w, Tasks.run t env w = m env w.

(** The busy flag is up. *)
Definition busy (w : World) : Prop := processingRef (refs w) = true.

(** A task that leaves the busy flag up: started with the flag up, it
    finds the flag up whenever it is suspended and when it ends. *)
Definition StaysBusy {A} (t : Tasks.Task A) : Prop :=
  ∀ env w,
    busy w →
    Forall (λ s, busy s.2) (Tasks.suspensions t env w)
    ∧ busy (Tasks.run t env w).2.

(** Smart mode without the local pre-filter, only looking. *)
Definition smartLookSettings : AppSettings :=
  {| automationEnabled := true;
     triggerTime := false;
     triggerSmart := true;
     triggerHybrid := false;
     scanIntervalMs := 3000%N;
     smartScanSensitivity := Num.lit_50;
     confidenceThreshold := Num.lit_0_7;
     autoSelect := false;
     autoNext := false;
     simplifiedMode := false;
     modelName := "gemini-flash-lite-latest";
     speakAnswer := false;
     debugMode := false;
     apiKey := Some "AIza-test-key";
     externalContext := [] |}.

(* ===================================================================== *)
(** * Properties of the text heuristics *)
(* ===================================================================== *)

Example splitWhiteSpace_pieces :
  Str.splitWhiteSpace " a  b " = [""; "a"; "b"; ""]
  ∧ Str.splitWhiteSpace "" = [""].
Proof. by vm_compute. Qed.

Example normalizeOcrText_sample :
  normalizeOcrText "  Q12: What is 2+2?  A) 3 " = "q# what is ## a #".
Proof. by vm_compute. Qed.

Example clean_sample :
  clean "Question: 2+2=? A) 3 B) 4 [correct]" = ["question"; "correct"].
Proof. by vm_compute. Qed.

Example similarity_counts_empty_pieces :
  calculateTextSimilarity " x" "y " = Num.div (Num.of_nat 1) (Num.of_nat 3).
Proof. by vm_compute. Qed.

Section JsSetFacts.

Lemma has_true (s : list string) (x : string) :
  JsSet.has s x = true ↔ x ∈ s.
Proof. unfold JsSet.has. apply bool_decide_eq_true. Qed.

Lemma add_elem (s : list string) (x y : string) :
  y ∈ JsSet.add s x ↔ y ∈ s ∨ y = x.
Proof.
  unfold JsSet.add. destruct (JsSet.has s x) eqn:Hx.
  - apply has_true in Hx. split; [auto | intros [? | ->]; auto].
  - rewrite elem_of_app, list_elem_of_singleton. tauto.
Qed.

Lemma add_NoDup (s : list string) (x : string) :
  NoDup s → NoDup (JsSet.add s x).
Proof.
  intros Hs. unfold JsSet.add. destruct (JsSet.has s x) eqn:Hx; [done |].
  apply NoDup_app. split_and!; [done | | apply NoDup_singleton].
  intros y Hy ->%list_elem_of_singleton.
  apply has_true in Hy. congruence.
Qed.

Lemma foldl_add_elem (l acc : list string) (y : string) :
  y ∈ foldl JsSet.add acc l ↔ y ∈ acc ∨ y ∈ l.
Proof.
  revert acc. induction l as [| x l IH]; intros acc; simpl.
  - rewrite elem_of_nil. tauto.
  - rewrite IH, add_elem, elem_of_cons. tauto.
Qed.

Lemma foldl_add_NoDup (l acc : list string) :
  NoDup acc → NoDup (foldl JsSet.add acc l).
Proof.
  revert acc. induction l as [| x l IH]; intros acc Hacc; simpl; [done |].
  apply IH, add_NoDup, Hacc.
Qed.

Lemma new_elem (l : list string) (y : string) : y ∈ JsSet.new l ↔ y ∈ l.
Proof.
  unfold JsSet.new. rewrite foldl_add_elem, elem_of_nil. tauto.
Qed.

Lemma new_NoDup (l : list string) : NoDup (JsSet.new l).
Proof. apply foldl_add_NoDup, NoDup_nil_2. Qed.

(** The size of a [Set] is the cardinality of the set of its members. *)
Lemma new_size (l : list string) (X : gset string) :
  (∀ y, y ∈ X ↔ y ∈ l) → JsSet.size (JsSet.new l) = size X.
Proof.
  intros HX. unfold JsSet.size.
  rewrite <- (size_list_to_set (C := gset string) (JsSet.new l))
    by apply new_NoDup.
  f_equal. apply set_eq. intros y.
  rewrite elem_of_list_to_set, new_elem, HX. done.
Qed.

End JsSetFacts.

Section StringFacts.

Lemma isWhiteSpace_toLowerCaseChar (c : ascii) :
  Str.isWhiteSpace (Str.toLowerCaseChar c) = Str.isWhiteSpace c.
Proof. destruct c as [[] [] [] [] [] [] [] []]; reflexivity. Qed.

(** Lower-casing commutes with splitting at white space. *)
Lemma splitFrom_toLowerCase (s : string) (inSep : bool) :
  Str.splitFrom inSep (Str.toLowerCase s)
  = Str.toLowerCase <$> Str.splitFrom inSep s.
Proof.
  revert inSep. induction s as [| c s IH]; intros inSep; [done |].
  cbn [Str.toLowerCase Str.splitFrom].
  rewrite isWhiteSpace_toLowerCaseChar.
  destruct (Str.isWhiteSpace c).
  - destruct inSep; rewrite IH; done.
  - rewrite IH. destruct (Str.splitFrom false s); done.
Qed.

Lemma splitFrom_nonempty (s : string) (inSep : bool) :
  Str.splitFrom inSep s ≠ [].
Proof.
  revert inSep. induction s as [| c s IH]; intros inSep; [done |].
  cbn [Str.splitFrom]. destruct (Str.isWhiteSpace c).
  - destruct inSep; [apply IH | done].
  - destruct (Str.splitFrom false s); done.
Qed.

Lemma tokenSet_elem (s y : string) :
  y ∈ tokenSet s ↔ y ∈ Str.splitWhiteSpace (Str.toLowerCase s).
Proof.
  unfold tokenSet, Str.splitWhiteSpace.
  rewrite splitFrom_toLowerCase, elem_of_list_to_set. done.
Qed.

Lemma tokenSet_size_pos (s : string) : 0 < size (tokenSet s).
Proof.
  unfold tokenSet, Str.splitWhiteSpace.
  pose proof (splitFrom_nonempty s false) as Hne.
  destruct (Str.splitFrom false s) as [| t ts]; [done |].
  rewrite fmap_cons, list_to_set_cons.
  destruct (decide (size ({[Str.toLowerCase t]} ∪
    list_to_set (Str.toLowerCase <$> ts) : gset string) = 0)) as [H0 | H0];
    [| lia].
  apply size_empty_inv in H0. set_solver.
Qed.

End StringFacts.

Section NumberFacts.

Lemma div_eucl_multiple (p : positive) (k : Z) :
  (0 <= k)%Z → Z.div_eucl (Z.pos p * k) (Z.pos p) = (k, 0%Z).
Proof.
  intros Hk.
  pose proof (Z.div_eucl_eq (Z.pos p * k) (Z.pos p) ltac:(lia)) as Heq.
  pose proof (Z.mod_pos_bound (Z.pos p * k) (Z.pos p) ltac:(lia)) as Hr.
  unfold Z.modulo in Hr.
  destruct (Z.div_eucl (Z.pos p * k) (Z.pos p)) as [q r].
  assert (q = k) by nia. subst q. f_equal. lia.
Qed.

(** A finite non-zero binary64 value divided by itself is exactly 1. *)
Lemma div_self_finite (p : positive) (e : Z) :
  Num.div (S754_finite false p e) (S754_finite false p e) = Num.lit_1.
Proof.
  unfold Num.div, SFdiv, SFdiv_core_binary.
  rewrite Z.sub_diag, Z.sub_diag.
  change (Z.min (fexp Num.prec Num.emax 0) 0) with (-53)%Z.
  change (0 - -53)%Z with 53%Z. cbv beta iota zeta.
  rewrite Z.shiftl_mul_pow2 by lia.
  rewrite div_eucl_multiple by lia.
  unfold new_location, new_location_even, new_location_odd.
  change (0 =? 0)%Z with true. cbv beta iota.
  destruct (Z.even (Z.pos p)); vm_compute; reflexivity.
Qed.

Lemma div_self_of_nat (n : nat) :
  0 < n → Num.div (Num.of_nat n) (Num.of_nat n) = Num.lit_1.
Proof.
  intros Hn. unfold Num.of_nat.
  destruct (N.of_nat n) as [| p] eqn:Hp; [lia |].
  apply div_self_finite.
Qed.

(** [x < y] excludes [x >= y]. *)
Lemma lt_not_ge (x y : number) : Num.lt x y = true → Num.ge x y = false.
Proof.
  unfold Num.lt, Num.ge, SFltb, SFleb, SFcompare. intros Hlt.
  destruct x as [sx | sx | | sx mx ex], y as [sy | sy | | sy my ey];
    try (destruct sx); try (destruct sy); try discriminate; try reflexivity.
  all: rewrite (Z.compare_antisym ex ey).
  all: replace (Pos.compare_cont Eq my mx)
         with (CompOpp (Pos.compare_cont Eq mx my))
         by apply Pos.compare_cont_antisym.
  all: destruct (ex ?= ey)%Z; simpl in *; try discriminate; try reflexivity.
  all: destruct (Pos.compare_cont Eq mx my); simpl in *; try discriminate;
         reflexivity.
Qed.

End NumberFacts.

Section TextHeuristics.

Lemma isEmpty_true (s : string) : Str.isEmpty s = true ↔ s = "".
Proof. destruct s; simpl; split; congruence. Qed.

Lemma isEmpty_false (s : string) : Str.isEmpty s = false ↔ s ≠ "".
Proof. destruct s; simpl; split; congruence. Qed.

(** The code's two [Set]s of intersection and union have the sizes of
    the intersection and union of the token sets. *)
Lemma intersection_size (a b : string) :
  let set1 := JsSet.new (Str.splitWhiteSpace (Str.toLowerCase a)) in
  let set2 := JsSet.new (Str.splitWhiteSpace (Str.toLowerCase b)) in
  JsSet.size (JsSet.new (filter (λ x, JsSet.has set2 x = true) set1))
  = size (tokenSet a ∩ tokenSet b).
Proof.
  intros set1 set2. apply new_size. intros y.
  rewrite elem_of_intersection, list_elem_of_filter, has_true.
  unfold set1, set2. rewrite !new_elem, !tokenSet_elem. tauto.
Qed.

Lemma union_size (a b : string) :
  let set1 := JsSet.new (Str.splitWhiteSpace (Str.toLowerCase a)) in
  let set2 := JsSet.new (Str.splitWhiteSpace (Str.toLowerCase b)) in
  JsSet.size (JsSet.new (set1 ++ set2)) = size (tokenSet a ∪ tokenSet b).
Proof.
  intros set1 set2. apply new_size. intros y.
  rewrite elem_of_union, elem_of_app.
  unfold set1, set2. rewrite !new_elem, !tokenSet_elem. tauto.
Qed.

Lemma similarity_jaccard (a b : string) :
  calculateTextSimilarity a b = jaccardIndex a b.
Proof.
  unfold calculateTextSimilarity, jaccardIndex.
  destruct (Str.isEmpty a || Str.isEmpty b); [done |].
  cbv zeta. rewrite intersection_size, union_size. done.
Qed.

Lemma jaccard_sym (a b : string) : jaccardIndex a b = jaccardIndex b a.
Proof.
  unfold jaccardIndex. rewrite (orb_comm (Str.isEmpty a)).
  destruct (Str.isEmpty b || Str.isEmpty a); [done |].
  rewrite (comm_L (∩) (tokenSet a)), (comm_L (∪) (tokenSet a)). done.
Qed.

Lemma jaccard_refl (a : string) : a ≠ "" → jaccardIndex a a = Num.lit_1.
Proof.
  intros Ha%isEmpty_false. unfold jaccardIndex. rewrite Ha. simpl.
  rewrite (idemp_L (∩) (tokenSet a)), (idemp_L (∪) (tokenSet a)).
  apply div_self_of_nat, tokenSet_size_pos.
Qed.

End TextHeuristics.

(** C9: [calculateTextSimilarity] is the Jaccard index of the lower-cased
    token sets obtained by splitting at white space, and 0 when either
    text is empty; hence it is symmetric, and 1 on a non-empty text
    compared with itself. *)
Theorem similarity_is_jaccard (a b : string) :
  calculateTextSimilarity a b = jaccardIndex a b
  ∧ (a = "" ∨ b = "" → calculateTextSimilarity a b = Num.lit_0)
  ∧ calculateTextSimilarity a b = calculateTextSimilarity b a
  ∧ (a ≠ "" → calculateTextSimilarity a a = Num.lit_1).
Proof.
  split_and!.
  - apply similarity_jaccard.
  - intros [-> | ->]; unfold calculateTextSimilarity; [done |].
    rewrite orb_true_r. done.
  - rewrite !similarity_jaccard. apply jaccard_sym.
  - intros Ha. rewrite similarity_jaccard. by apply jaccard_refl.
Qed.

Lemma similarity_is_jaccard_witness :
  calculateTextSimilarity "" "Question one" = Num.lit_0
  ∧ calculateTextSimilarity "The capital of France"
      "The capital of France" = Num.lit_1.
Proof.
  split.
  - apply (proj1 (proj2 (similarity_is_jaccard "" "Question one"))).
    left. reflexivity.
  - apply (proj2 (proj2 (proj2 (similarity_is_jaccard
             "The capital of France" "")))).
    discriminate.
Defined.

(** C5 (as the code has it): [isTextSubset] answers false as soon as the
    child, or the parent, is the empty string; it answers true when both
    are non-empty and cleaning leaves the child no token. *)
Theorem isTextSubset_empty_and_tokenless (parentText childText : string) :
  isTextSubset parentText "" = false
  ∧ isTextSubset "" childText = false
  ∧ (parentText ≠ "" → childText ≠ "" → clean childText = [] →
     isTextSubset parentText childText = true).
Proof.
  split_and!.
  - unfold isTextSubset. simpl. by rewrite orb_true_r.
  - done.
  - intros Hp%isEmpty_false Hc%isEmpty_false Hclean.
    unfold isTextSubset. rewrite Hp, Hc, Hclean. done.
Qed.

Lemma isTextSubset_empty_and_tokenless_witness :
  isTextSubset "What is 2 + 2 ?" "a) 3 b) 4" = true.
Proof.
  apply (proj2 (proj2 (isTextSubset_empty_and_tokenless
                         "What is 2 + 2 ?" "a) 3 b) 4")));
    [discriminate | discriminate | vm_compute; reflexivity].
Defined.

(** C5 fails as stated: with an empty child the answer is false. *)
Lemma isTextSubset_empty_child_false :
  isTextSubset "What is the capital of France" "" = false.
Proof. vm_compute. reflexivity. Qed.

(* ===================================================================== *)
(** * Reasoning about the monad *)
(* ===================================================================== *)

Lemma run_bind {A B} (m : M A) (k : A → M B) (env : Env) (w : World) :
  (m ≫= k) env w = k (m env w).1 env (m env w).2.
Proof. unfold mbind, M_bind. destruct (m env w); done. Qed.

Lemma run_ret {A} (a : A) (env : Env) (w : World) : ret a env w = (a, w).
Proof. done. Qed.

(** Unfolding of the primitive operations of the monad. *)
Ltac munfold :=
  unfold detectText, generateContent, checkForNewQuestion, verifySelection,
    sleep, postMessage, setTimeout, addLog, emit, await, captureFrame,
    modify, when, ask, get, readRef, ret, mbind, M_bind, mret, M_ret.

(** ** Frame conditions

    [Keeps R m]: running [m] relates the world before to the world after
    by [R].  The hypotheses of the section say which primitive updates
    [R] tolerates; every lemma depends on those it needs only. *)
Section Frame.

Context (R : Env → relation World) {R_preorder : ∀ env, PreOrder (R env)}.
Context (okEv : Event → Prop).

Local Abbreviation Keeps := (Keeps R).

Lemma Keeps_ret {A} (a : A) : Keeps (ret a).
Proof. intros env w. simpl. reflexivity. Qed.

Lemma Keeps_bind {A B} (m : M A) (k : A → M B) :
  Keeps m → (∀ a, Keeps (k a)) → Keeps (m ≫= k).
Proof.
  intros Hm Hk env w. rewrite run_bind.
  etransitivity; [apply Hm | apply Hk].
Qed.

Lemma Keeps_ask : Keeps ask.
Proof. intros env w. simpl. reflexivity. Qed.

Lemma Keeps_get : Keeps get.
Proof. intros env w. simpl. reflexivity. Qed.

Lemma Keeps_readRef {A} (cell : Refs → A) : Keeps (readRef cell).
Proof. intros env w. simpl. reflexivity. Qed.

Lemma Keeps_when (b : bool) (m : M unit) : Keeps m → Keeps (when b m).
Proof. intros Hm. destruct b; [done | apply Keeps_ret]. Qed.

Lemma Keeps_modify (f : World → World) :
  (∀ env w, R env w (f w)) → Keeps (modify f).
Proof. intros Hf env w. apply Hf. Qed.

Hypothesis R_emit :
  ∀ env e w, okEv e → R env w (with_trace (λ t, t ++ [e]) w).
Hypothesis R_bump :
  ∀ env f w, (∀ c, nAwait (f c) = nAwait c) → R env w (with_cursors f w).
Hypothesis R_await : ∀ env w, R env w (await env w).2.
Hypothesis R_processing :
  ∀ env b w, R env w (with_refs (set_processingRef b) w).
Hypothesis R_screenshot :
  ∀ env f w, R env w (with_refs (set_lastScreenshotRef f) w).
Hypothesis R_lastOcr :
  ∀ env t w, R env w (with_refs (set_lastOcrTextRef t) w).
Hypothesis R_counter :
  ∀ env n w, R env w (with_refs (set_ocrStabilityCounterRef n) w).
Hypothesis R_react : ∀ env f w, R env w (with_react f w).

Lemma Keeps_emit (e : Event) : okEv e → Keeps (emit e).
Proof. intros He. apply Keeps_modify. intros env w. by apply R_emit. Qed.

Lemma Keeps_await : Keeps await.
Proof. intros env w. apply R_await. Qed.

Hypothesis ok_log : ∀ ty msg, okEv (EvLog ty msg).
Hypothesis ok_capture : okEv EvCaptureFrame.
Hypothesis ok_detect : okEv EvDetectText.
Hypothesis ok_analyze : ∀ m, okEv (EvAnalyzeScreenFrame m).
Hypothesis ok_generate : ∀ m b, okEv (EvGenerateContent m b).
Hypothesis ok_check : ∀ c p, okEv (EvCheckForNewQuestion c p).
Hypothesis ok_verify : ∀ i t, okEv (EvVerifySelection i t).
Hypothesis ok_post : ∀ q, okEv (EvPostMessage q).
Hypothesis ok_sleep : ∀ ms, okEv (EvSleep ms).
Hypothesis ok_flash : okEv EvFlash.
Hypothesis ok_speak : ∀ c, okEv (EvSpeak c).

Ltac keeps_step :=
  lazymatch goal with
  | |- Keeps (mbind _ _) => apply Keeps_bind; [| intros ?]
  | |- Keeps (ret _) => apply Keeps_ret
  | |- Keeps (mret _) => apply Keeps_ret
  | |- Keeps ask => apply Keeps_ask
  | |- Keeps get => apply Keeps_get
  | |- Keeps (readRef _) => apply Keeps_readRef
  | |- Keeps (when _ _) => apply Keeps_when
  | |- Keeps (emit _) => apply Keeps_emit; auto
  | |- Keeps (modify (with_cursors _)) =>
      apply Keeps_modify; intros; apply R_bump; reflexivity
  | |- Keeps (modify _) => apply Keeps_modify; intros; auto
  | |- Keeps await => apply Keeps_await
  | |- Keeps (if ?b then _ else _) => destruct b
  | |- Keeps (match ?x with _ => _ end) => destruct x
  | |- Keeps (let '(_, _) := ?x in _) => destruct x
  | |- _ => solve [auto]
  end.
Ltac keeps := repeat keeps_step.

Lemma Keeps_addLog (msg : LogMessage) (ty : LogType) : Keeps (addLog msg ty).
Proof. unfold addLog. keeps. Qed.

Lemma Keeps_captureFrame : Keeps captureFrame.
Proof.
  intros env w. unfold captureFrame. simpl.
  transitivity (with_cursors bump_nCapture w);
    [by apply R_bump | apply R_emit, ok_capture].
Qed.

Lemma Keeps_detectText (img : Frame) : Keeps (detectText img).
Proof. unfold detectText. keeps. Qed.

Lemma Keeps_generateContent (model : string) (probe : bool) :
  Keeps (generateContent model probe).
Proof. unfold generateContent. keeps. Qed.

Lemma Keeps_checkForNewQuestion (cur : Frame) (prev : option Frame) :
  Keeps (checkForNewQuestion cur prev).
Proof. unfold checkForNewQuestion. keeps. Qed.

Lemma Keeps_verifySelection (img : Frame) (t : string) :
  Keeps (verifySelection img t).
Proof. unfold verifySelection. keeps. Qed.

Lemma Keeps_sleep (ms : N) : Keeps (sleep ms).
Proof. unfold sleep. keeps. Qed.

Lemma Keeps_postMessage (q : list Action) : Keeps (postMessage q).
Proof. unfold postMessage. keeps. Qed.

Lemma Keeps_JSON_parse (txt : string) : Keeps (JSON_parse txt).
Proof. intros env w. simpl. reflexivity. Qed.

Hint Resolve Keeps_JSON_parse : core.

Hint Resolve Keeps_addLog Keeps_captureFrame Keeps_detectText
  Keeps_generateContent Keeps_checkForNewQuestion Keeps_verifySelection
  Keeps_sleep Keeps_postMessage : core.

Lemma Keeps_attemptLoop (fuel : nat) (onProgress : bool) (attempt : nat)
    (currentModel : string) :
  Keeps (attemptLoop fuel onProgress attempt currentModel).
Proof.
  revert attempt currentModel.
  induction fuel as [| fuel IH]; intros attempt currentModel;
    cbn [attemptLoop]; keeps.
Qed.

Lemma Keeps_analyzeScreenFrame (model : string) (onProgress : bool)
    (context : list ExternalContext) :
  Keeps (analyzeScreenFrame model onProgress context).
Proof.
  unfold analyzeScreenFrame. keeps. apply Keeps_attemptLoop.
Qed.

Lemma Keeps_speakAnswerOf (settings : AppSettings) (result : AnalysisResult) :
  Keeps (speakAnswerOf settings result).
Proof. unfold speakAnswerOf. keeps. Qed.

Lemma Keeps_autoPilotAttempt (opt : QuestionOption) (attempts : nat)
    (verified : bool) :
  Keeps (autoPilotAttempt opt attempts verified).
Proof. unfold autoPilotAttempt. keeps. Qed.

Lemma Keeps_autoPilotLoop (fuel : nat) (opt : QuestionOption)
    (attempts : nat) (verified : bool) :
  Keeps (autoPilotLoop fuel opt attempts verified).
Proof.
  revert attempts verified.
  induction fuel as [| fuel IH]; intros attempts verified;
    cbn [autoPilotLoop]; keeps. apply Keeps_autoPilotAttempt.
Qed.

Lemma Keeps_handleAutoPilot (opt : QuestionOption)
    (nextButtonBox : option BoundingBox) (clickNext : bool) :
  Keeps (handleAutoPilot opt nextButtonBox clickNext).
Proof.
  unfold handleAutoPilot. keeps. apply Keeps_autoPilotLoop.
Qed.

Lemma Keeps_autoSelectArm (settings : AppSettings) (result : AnalysisResult) :
  Keeps (autoSelectArm settings result).
Proof.
  unfold autoSelectArm. keeps. apply Keeps_handleAutoPilot.
Qed.

Lemma Keeps_beginAnalysis (settings : AppSettings) (img : Frame)
    (shouldFlash : bool) :
  Keeps (beginAnalysis settings img shouldFlash).
Proof.
  unfold beginAnalysis. keeps. apply Keeps_analyzeScreenFrame.
Qed.

Lemma Keeps_reportResult (settings : AppSettings) (img : Frame)
    (result : AnalysisResult) :
  Keeps (reportResult settings img result).
Proof.
  unfold reportResult. keeps; auto using Keeps_speakAnswerOf.
Qed.

Lemma Keeps_handleResult (settings : AppSettings) (img : Frame)
    (result : AnalysisResult) :
  Keeps (handleResult settings img result).
Proof.
  unfold handleResult. keeps;
    auto using Keeps_reportResult, Keeps_autoSelectArm.
Qed.

Lemma Keeps_performAnalysis (settings : AppSettings) (img : Frame)
    (shouldFlash : bool) :
  Keeps (performAnalysis settings img shouldFlash).
Proof.
  unfold performAnalysis. keeps;
    auto using Keeps_beginAnalysis, Keeps_handleResult.
Qed.

(** In hybrid mode the watchdog leaves [lastOcrTextRef] alone. *)
Lemma Keeps_afterCheck_hybrid (settings : AppSettings) (img : Frame)
    (r : CheckResult) :
  triggerHybrid settings = true → Keeps (afterCheck settings img r).
Proof.
  intros Hh. unfold afterCheck. rewrite Hh. simpl.
  keeps; auto using Keeps_performAnalysis.
Qed.

Lemma Keeps_watchdog_hybrid (settings : AppSettings) (img : Frame) :
  triggerHybrid settings = true → Keeps (watchdog settings img).
Proof.
  intros Hh. unfold watchdog. keeps. by apply Keeps_afterCheck_hybrid.
Qed.

Lemma Keeps_afterCheck (settings : AppSettings) (img : Frame)
    (r : CheckResult) :
  Keeps (afterCheck settings img r).
Proof.
  unfold afterCheck. keeps; auto using Keeps_performAnalysis.
Qed.

Lemma Keeps_watchdog (settings : AppSettings) (img : Frame) :
  Keeps (watchdog settings img).
Proof. unfold watchdog. keeps. apply Keeps_afterCheck. Qed.

Lemma Keeps_hybridGate (settings : AppSettings) (img : Frame) :
  Keeps (hybridGate settings img).
Proof. unfold hybridGate. keeps. Qed.

Lemma Keeps_tickBody (settings : AppSettings) : Keeps (tickBody settings).
Proof.
  unfold tickBody. keeps;
    auto using Keeps_performAnalysis, Keeps_hybridGate, Keeps_watchdog.
Qed.

End Frame.

(** ** The two frame relations *)

Section FrameRelations.

#[global] Instance Emits_preorder (ok : Event → Prop) : PreOrder (Emits ok).
Proof.
  split.
  - intros w. exists []. by rewrite app_nil_r.
  - intros w1 w2 w3 (evs1 & H1 & Hok1) (evs2 & H2 & Hok2).
    exists (evs1 ++ evs2). rewrite H2, H1, <- app_assoc.
    split; [done | by apply Forall_app].
Qed.

#[global] Instance SameGate_preorder : PreOrder SameGate.
Proof.
  split.
  - intros w. by split.
  - intros w1 w2 w3 [H1 H1'] [H2 H2']. split; congruence.
Qed.

Lemma Emits_emit (ok : Event → Prop) (e : Event) (w : World) :
  ok e → Emits ok w (with_trace (λ t, t ++ [e]) w).
Proof. intros He. exists [e]. split; [done | by apply Forall_singleton]. Qed.

Lemma Emits_same (ok : Event → Prop) (w w' : World) :
  trace w' = trace w → Emits ok w w'.
Proof. intros Ht. exists []. by rewrite app_nil_r. Qed.

Lemma count_app (p : Event → bool) (a b : list Event) :
  count p (a ++ b) = count p a + count p b.
Proof. unfold count. by rewrite List.filter_app, length_app. Qed.

Lemma count_none (p : Event → bool) (evs : list Event) :
  Forall (λ e, p e = false) evs → count p evs = 0.
Proof.
  unfold count. induction 1 as [| e evs He _ IH]; simpl; [done |].
  by rewrite He.
Qed.

Lemma Emits_count (p : Event → bool) (w w' : World) :
  Emits (λ e, p e = false) w w' → count p (trace w') = count p (trace w).
Proof.
  intros (evs & -> & Hevs). rewrite count_app, (count_none p evs) by done. lia.
Qed.

End FrameRelations.

(** Side conditions of the frame lemmas, for [Emits], [SameGate] and
    [SameReact]. *)
Ltac frame_side :=
  intros; cbv beta;
  first
    [ exact _
    | by apply Emits_emit
    | by apply Emits_same
    | by split
    | done
    | unfold await; cbn [snd];
      match goal with
      | |- context [stoppedDuring ?env ?n] => destruct (stoppedDuring env n)
      end;
      first [ by apply Emits_same | by split | done ] ].

(* ===================================================================== *)
(** * The hybrid gate *)
(* ===================================================================== *)

Section HybridGate.

Lemma stabilityStep_counter_bound (rc : bool) (txt last : string) (c : nat) :
  (stabilityStep rc txt last c).2 < 3.
Proof.
  unfold stabilityStep. destruct rc; [| simpl; lia].
  destruct (3 <=? c + 1) eqn:Hc; [simpl; lia |].
  apply Nat.leb_gt in Hc. simpl. lia.
Qed.

(** One hybrid gate, on the world. *)
Lemma hybridGate_run (env : Env) (settings : AppSettings) (img : Frame)
    (w : World) :
  let txt := normalizeOcrText (detectText_at env (nDetect (cursors w))) in
  let r := stabilityStep
             (rawChange (smartScanSensitivity settings)
                (lastOcrTextRef (refs w)) txt)
             txt (lastOcrTextRef (refs w))
             (ocrStabilityCounterRef (refs w)) in
  let out := hybridGate settings img env w in
  out.1 = r.1.1
  ∧ lastOcrTextRef (refs out.2) = r.1.2
  ∧ ocrStabilityCounterRef (refs out.2) = r.2
  ∧ count isCheck (trace out.2) = count isCheck (trace w).
Proof.
  intros txt r out. subst out r txt.
  unfold hybridGate. munfold.
  cbn -[rawChange normalizeOcrText stabilityStep calculateTextSimilarity count].
  destruct (stoppedDuring env _), (debugMode settings);
    cbn -[rawChange normalizeOcrText stabilityStep calculateTextSimilarity
          count];
    destruct (stabilityStep _ _ _ _) as [[esc last'] c'];
    cbn -[rawChange normalizeOcrText stabilityStep calculateTextSimilarity
          count];
    rewrite ?count_app; split_and!; try done;
    unfold count; simpl; lia.
Qed.

(** The watchdog asks the change oracle once; in hybrid mode it leaves
    the gate alone. *)
Lemma watchdog_run (env : Env) (settings : AppSettings) (img : Frame)
    (w : World) :
  triggerHybrid settings = true →
  let w' := (watchdog settings img env w).2 in
  SameGate w w' ∧ count isCheck (trace w') = S (count isCheck (trace w)).
Proof.
  intros Hh w'. split.
  - apply (Keeps_watchdog_hybrid (λ _, SameGate) (λ _, True)); frame_side.
  - subst w'. unfold watchdog.
    rewrite run_bind. cbn [readRef fst snd]. rewrite run_bind.
    set (r := (checkForNewQuestion _ _ env w).1).
    set (w1 := (checkForNewQuestion _ _ env w).2).
    assert (Hw1 : count isCheck (trace w1) = S (count isCheck (trace w))).
    { subst w1. munfold. cbn -[count].
      destruct (stoppedDuring env _); cbn -[count]; rewrite count_app;
        unfold count; simpl; lia. }
    rewrite <- Hw1. apply Emits_count.
    apply (Keeps_afterCheck_hybrid (λ _, Emits _) (λ e, isCheck e = false));
      frame_side.
Qed.

End HybridGate.

Section HybridTick.

Lemma setTimeout_run (delay : N) (env : Env) (w : World) (b : bool) :
  let w' := (when b (setTimeout delay) env w).2 in
  SameGate w w' ∧ count isCheck (trace w') = count isCheck (trace w).
Proof.
  destruct b; munfold; cbn -[count]; [| done].
  rewrite count_app. unfold count. simpl. split; [done | lia].
Qed.

(** One tick in hybrid mode that is neither dropped nor without a frame:
    the gate cells move as [gateStep] says, and the change oracle is
    asked exactly when the gate escalates. *)
Lemma hybrid_tick (env : Env) (settings : AppSettings) (w : World)
    (img : Frame) :
  triggerTime settings = false →
  triggerSmart settings = true →
  triggerHybrid settings = true →
  isAutomationRunningRef (refs w) = true →
  processingRef (refs w) = false →
  captureFrame_at env (nCapture (cursors w)) = Some img →
  let txt := normalizeOcrText (detectText_at env (nDetect (cursors w))) in
  let g := gateStep (smartScanSensitivity settings)
             (lastOcrTextRef (refs w), ocrStabilityCounterRef (refs w))
             txt in
  let w' := (runAutomationLoop settings true env w).2 in
  lastOcrTextRef (refs w') = g.2.1
  ∧ ocrStabilityCounterRef (refs w') = g.2.2
  ∧ count isCheck (trace w')
    = count isCheck (trace w) + (if g.1.2 then 1 else 0).
Proof.
  intros Htime Hsmart Hhybrid Hrun Hproc Hcap txt g w'.
  subst w'. unfold runAutomationLoop.
  rewrite run_bind. cbn [readRef fst snd]. rewrite Hrun. cbn [negb orb].
  rewrite run_bind.
  set (body := tickBody settings env w).
  destruct (setTimeout_run body.1 env body.2
              (isAutomationRunningRef (refs body.2))) as [[Hl Hc] Hn].
  rewrite run_bind. cbn [readRef fst snd].
  rewrite Hl, Hc, Hn. clear Hl Hc Hn.
  subst body. unfold tickBody. rewrite Htime, Hsmart, Hhybrid.
  rewrite run_bind. rewrite run_bind. cbn [readRef fst snd].
  rewrite Hproc. cbn [negb]. rewrite run_bind.
  set (w0 := (captureFrame env w).2).
  assert (Himg : (captureFrame env w).1 = Some img) by exact Hcap.
  rewrite Himg. rewrite run_bind.
  assert (Hw0 : refs w0 = refs w ∧ nDetect (cursors w0) = nDetect (cursors w)
                ∧ count isCheck (trace w0) = count isCheck (trace w)).
  { subst w0. munfold. cbn -[count]. rewrite count_app. unfold count.
    simpl. split_and!; [done | done | lia]. }
  destruct Hw0 as (Hrefs & Hdet & Hcnt).
  destruct (hybridGate_run env settings img w0) as (Hesc & Hlast & Hctr & Hchk).
  rewrite Hrefs, Hdet in Hesc, Hlast, Hctr. fold txt in Hesc, Hlast, Hctr.
  set (out := hybridGate settings img env w0) in *.
  unfold gateStep in g. cbn [fst snd] in g.
  destruct (stabilityStep _ _ _ _) as [[esc last'] c'] eqn:Hstep.
  subst g. cbn [fst snd] in *.
  rewrite Hesc. cbn [ret mret M_ret snd].
  destruct esc; cbn [when].
  - destruct (watchdog_run env settings img out.2 Hhybrid) as [[Hl Hc] Hn].
    cbn [ret mret M_ret snd]. rewrite Hl, Hc, Hn, Hlast, Hctr, Hchk, Hcnt.
    split_and!; [done | done | lia].
  - cbn [ret mret M_ret snd]. rewrite Hlast, Hctr, Hchk, Hcnt.
    split_and!; [done | done | lia].
Qed.

End HybridTick.

Section GateRuns.

Lemma gateRun_app (s : number) (st : string * nat) (xs ys : list string) :
  gateRun s st (xs ++ ys)
  = let '(log1, st1) := gateRun s st xs in
    let '(log2, st2) := gateRun s st1 ys in
    (log1 ++ log2, st2).
Proof.
  revert st. induction xs as [| x xs IH]; intros st; simpl.
  - by destruct (gateRun s st ys).
  - destruct (gateStep s st x) as [flags st']. rewrite IH.
    destruct (gateRun s st' xs) as [log1 st1].
    by destruct (gateRun s st1 ys).
Qed.

(** What one step of the gate does, by cases. *)
Lemma gateStep_cases (s : number) (last txt : string) (c : nat) :
  let rc := rawChange s last txt in
  gateStep s (last, c) txt
  = if rc then
      if 3 <=? c + 1 then ((true, true), (txt, 0))
      else ((true, false), (last, c + 1))
    else ((false, false), (last, 0)).
Proof.
  intros rc. unfold gateStep, stabilityStep. cbn [fst snd]. fold rc.
  destruct rc; [| done]. by destruct (3 <=? c + 1).
Qed.

Lemma trailingCandidates_snoc (log : list (bool * bool)) (rc esc : bool) :
  trailingCandidates (rev (log ++ [(rc, esc)]).*1)
  = if rc then S (trailingCandidates (rev log.*1)) else 0.
Proof. rewrite fmap_app, rev_app_distr. simpl. by destruct rc. Qed.

(** From a fresh session, the counter is the length of the current run
    of candidate ticks modulo 3, and a tick escalates exactly when it is
    a candidate that brings this run to a multiple of 3. *)
Lemma gateRun_spec (s : number) (last : string) (txts : list string) :
  let out := gateRun s (last, 0) txts in
  let run := trailingCandidates (rev out.1.*1) in
  out.2.2 = run mod 3
  ∧ match rev out.1 with
    | [] => True
    | (rc, esc) :: _ => esc = rc && (run mod 3 =? 0)
    end.
Proof.
  induction txts as [| txt txts IH] using rev_ind; [done |].
  rewrite gateRun_app. cbv zeta in IH.
  destruct (gateRun s (last, 0) txts) as [log [last1 c]].
  cbn [fst snd] in IH. destruct IH as [Hc _].
  cbn [gateRun]. rewrite gateStep_cases.
  assert (Hlt : c < 3) by (rewrite Hc; apply Nat.mod_upper_bound; lia).
  destruct (rawChange s last1 txt).
  - destruct (3 <=? c + 1) eqn:H3; cbn [fst snd];
      rewrite rev_app_distr, trailingCandidates_snoc; cbn [rev app andb].
    + apply Nat.leb_le in H3.
      assert (Hm : S (trailingCandidates (rev log.*1)) mod 3 = 0).
      { rewrite <- Nat.add_1_r, <- Nat.Div0.add_mod_idemp_l, <- Hc.
        replace (c + 1) with 3 by lia. done. }
      rewrite Hm. done.
    + apply Nat.leb_gt in H3.
      assert (Hm : S (trailingCandidates (rev log.*1)) mod 3 = c + 1).
      { rewrite <- Nat.add_1_r, <- Nat.Div0.add_mod_idemp_l, <- Hc.
        apply Nat.mod_small. lia. }
      rewrite Hm. split; [done |].
      symmetry. apply Nat.eqb_neq. lia.
  - cbn [fst snd]. rewrite rev_app_distr, trailingCandidates_snoc. done.
Qed.

Lemma gateRun_two_then_quiet (s : number) (last t1 t2 t3 : string) :
  rawChange s last t1 = true → rawChange s last t2 = true →
  rawChange s last t3 = false →
  gateRun s (last, 0) [t1; t2; t3]
  = ([(true, false); (true, false); (false, false)], (last, 0)).
Proof.
  intros H1 H2 H3. cbn [gateRun].
  rewrite gateStep_cases, H1. cbn [Nat.leb Nat.add].
  rewrite gateStep_cases, H2. cbn [Nat.leb Nat.add].
  rewrite gateStep_cases, H3. done.
Qed.

Lemma gateRun_three (s : number) (last t1 t2 t3 : string) :
  rawChange s last t1 = true → rawChange s last t2 = true →
  rawChange s last t3 = true →
  gateRun s (last, 0) [t1; t2; t3]
  = ([(true, false); (true, false); (true, true)], (t3, 0)).
Proof.
  intros H1 H2 H3. cbn [gateRun].
  rewrite gateStep_cases, H1. cbn [Nat.leb Nat.add].
  rewrite gateStep_cases, H2. cbn [Nat.leb Nat.add].
  rewrite gateStep_cases, H3. done.
Qed.

End GateRuns.

Section Threshold.

Lemma mul_comm (x y : number) : Num.mul x y = Num.mul y x.
Proof.
  unfold Num.mul, SFmul.
  destruct x as [sx | sx | | sx mx ex], y as [sy | sy | | sy my ey];
    rewrite ?(xorb_comm sx sy); try reflexivity.
  by rewrite (Pos.mul_comm mx my), (Z.add_comm ex ey).
Qed.

(** The threshold in the order the design document writes it. *)
Lemma changeThreshold_formula (sensitivity : number) :
  changeThreshold sensitivity
  = Num.add Num.lit_0_2
      (Num.mul Num.lit_0_6 (Num.div sensitivity Num.lit_100)).
Proof. unfold changeThreshold. cbv zeta. by rewrite mul_comm. Qed.

End Threshold.

(** C2: in hybrid mode a text is a raw candidate change exactly when it is
    no subset of the reference text, the reference text is no subset of
    it, their similarity lies below [0.2 + 0.6 * (sensitivity / 100)] and
    the text, which the tick passes in normalized, is longer than 15; the
    threshold is 0.5, 0.8 and 0.26 at sensitivity 50, 100 and 10. *)
Theorem rawChange_characterisation (sensitivity : number)
    (lastOcrText txt : string) :
  (rawChange sensitivity lastOcrText txt = true
   ↔ isTextSubset lastOcrText txt = false
     ∧ isTextSubset txt lastOcrText = false
     ∧ Num.lt (calculateTextSimilarity txt lastOcrText)
         (Num.add Num.lit_0_2
            (Num.mul Num.lit_0_6 (Num.div sensitivity Num.lit_100))) = true
     ∧ 15 < String.length txt)
  ∧ changeThreshold Num.lit_50 = Num.lit_0_5
  ∧ changeThreshold Num.lit_100 = Num.lit_0_8
  ∧ changeThreshold Num.lit_10 = Num.lit_0_26.
Proof.
  split_and!.
  - unfold rawChange. cbv zeta. rewrite changeThreshold_formula.
    rewrite !andb_true_iff, !negb_true_iff, Nat.ltb_lt. tauto.
  - vm_compute. reflexivity.
  - vm_compute. reflexivity.
  - vm_compute. reflexivity.
Qed.

Lemma rawChange_characterisation_witness :
  rawChange Num.lit_50 "" "what is the capital of france" = true.
Proof.
  apply (proj2 (proj1 (rawChange_characterisation Num.lit_50 ""
                         "what is the capital of france"))).
  vm_compute. split_and!; try reflexivity. lia.
Defined.

(** C1: in hybrid mode each tick that is worked runs one step of the gate
    on its normalized OCR text and asks the change oracle exactly when the
    step escalates.  A candidate tick increments the counter, any other
    resets it to 0; the step escalates exactly when the increment reaches
    3, and then resets the counter and takes the text as reference.  From
    a fresh session a tick therefore escalates exactly when it brings the
    current run of candidates to a multiple of 3: two candidates and a
    non-candidate never escalate, three candidates escalate once, on the
    third. *)
Theorem hybrid_debounce :
  (∀ (env : Env) (settings : AppSettings) (w : World) (img : Frame),
     triggerTime settings = false →
     triggerSmart settings = true →
     triggerHybrid settings = true →
     isAutomationRunningRef (refs w) = true →
     processingRef (refs w) = false →
     captureFrame_at env (nCapture (cursors w)) = Some img →
     let txt := normalizeOcrText (detectText_at env (nDetect (cursors w))) in
     let g := gateStep (smartScanSensitivity settings)
                (lastOcrTextRef (refs w), ocrStabilityCounterRef (refs w))
                txt in
     let w' := (runAutomationLoop settings true env w).2 in
     lastOcrTextRef (refs w') = g.2.1
     ∧ ocrStabilityCounterRef (refs w') = g.2.2
     ∧ count isCheck (trace w')
       = count isCheck (trace w) + (if g.1.2 then 1 else 0))
  ∧ (∀ (s : number) (last txt : string) (c : nat),
       gateStep s (last, c) txt
       = if rawChange s last txt then
           if 3 <=? c + 1 then ((true, true), (txt, 0))
           else ((true, false), (last, c + 1))
         else ((false, false), (last, 0)))
  ∧ (∀ (s : number) (last : string) (txts : list string),
       let out := gateRun s (last, 0) txts in
       let run := trailingCandidates (rev out.1.*1) in
       out.2.2 = run mod 3
       ∧ match rev out.1 with
         | [] => True
         | (rc, esc) :: _ => esc = rc && (run mod 3 =? 0)
         end)
  ∧ (∀ (s : number) (last t1 t2 t3 : string),
       rawChange s last t1 = true → rawChange s last t2 = true →
       rawChange s last t3 = false →
       gateRun s (last, 0) [t1; t2; t3]
       = ([(true, false); (true, false); (false, false)], (last, 0)))
  ∧ (∀ (s : number) (last t1 t2 t3 : string),
       rawChange s last t1 = true → rawChange s last t2 = true →
       rawChange s last t3 = true →
       gateRun s (last, 0) [t1; t2; t3]
       = ([(true, false); (true, false); (true, true)], (t3, 0))).
Proof.
  split_and!.
  - apply hybrid_tick.
  - apply gateStep_cases.
  - apply gateRun_spec.
  - apply gateRun_two_then_quiet.
  - apply gateRun_three.
Qed.

Lemma hybrid_debounce_witness :
  (let w := runningWorld autoSelectSettings in
   let w' := (runAutomationLoop autoSelectSettings true idleEnv w).2 in
   lastOcrTextRef (refs w') = ""
   ∧ ocrStabilityCounterRef (refs w') = 1
   ∧ count isCheck (trace w') = 0)
  ∧ gateRun Num.lit_50 ("", 0)
      ["what is the capital of france"; "what is the capital of spain";
       "loading"]
    = ([(true, false); (true, false); (false, false)], ("", 0))
  ∧ gateRun Num.lit_50 ("", 0)
      ["what is the capital of france"; "what is the capital of spain";
       "what is the capital of italy"]
    = ([(true, false); (true, false); (true, true)],
       ("what is the capital of italy", 0)).
Proof.
  split_and!.
  - exact (proj1 hybrid_debounce idleEnv autoSelectSettings
             (runningWorld autoSelectSettings) sampleFrame
             eq_refl eq_refl eq_refl eq_refl eq_refl eq_refl).
  - apply (proj1 (proj2 (proj2 (proj2 hybrid_debounce))));
      vm_compute; reflexivity.
  - apply (proj2 (proj2 (proj2 (proj2 hybrid_debounce))));
      vm_compute; reflexivity.
Defined.

(* ===================================================================== *)
(** * The auto-pilot *)
(* ===================================================================== *)

Section AutoPilot.

Context (env : Env) (opt : QuestionOption).

(** One attempt: its events, its verdict, and the calls it consumes. *)
Lemma autoPilotAttempt_run (attempt : nat) (verified : bool) (w : World) :
  let out := autoPilotAttempt opt attempt verified env w in
  let verifyImg := captureFrame_at env (nCapture (cursors w)) in
  let verification := verifySelection_at env (nVerify (cursors w)) in
  trace out.2 = trace w ++ attemptEvents opt attempt verifyImg verification
  ∧ out.1 = match verifyImg with
            | Some _ => if isSelected verification then true else verified
            | None => verified
            end
  ∧ nCapture (cursors out.2) = S (nCapture (cursors w))
  ∧ nVerify (cursors out.2)
    = match verifyImg with
      | Some _ => S (nVerify (cursors w))
      | None => nVerify (cursors w)
      end.
Proof.
  unfold autoPilotAttempt, attemptEvents. munfold. cbn.
  destruct (stoppedDuring env (nAwait (cursors w))); cbn;
    destruct (captureFrame_at env (nCapture (cursors w))); cbn;
    try (destruct (stoppedDuring env (S (nAwait (cursors w)))); cbn);
    try (destruct (isSelected (verifySelection_at env (nVerify (cursors w))));
         cbn);
    rewrite <- ?app_assoc; cbn; done.
Qed.

Lemma attemptEvents_posts (attempt : nat) (img : option Frame)
    (v : VerifyResult) :
  count isPost (attemptEvents opt attempt img v) = 1.
Proof. unfold attemptEvents, count. destruct img; [destruct (isSelected v) |]; done. Qed.

Lemma attemptEvents_verifies (attempt : nat) (img : option Frame)
    (v : VerifyResult) :
  count isVerify (attemptEvents opt attempt img v)
  = match img with Some _ => 1 | None => 0 end.
Proof. unfold attemptEvents, count. destruct img; [destruct (isSelected v) |]; done. Qed.

Lemma autoPilotLoop_verified (fuel attempts : nat) (w : World) :
  autoPilotLoop fuel opt attempts true env w = (true, w).
Proof. destruct fuel; cbn [autoPilotLoop]; by rewrite ?andb_false_r. Qed.

(** Whatever the collaborators do, the loop dispatches at most [fuel]
    times and verifies at most once per dispatch. *)
Lemma autoPilotLoop_bounds (fuel attempts : nat) (verified : bool)
    (w : World) :
  let out := autoPilotLoop fuel opt attempts verified env w in
  ∃ posts verifies,
    count isPost (trace out.2) = count isPost (trace w) + posts
    ∧ count isVerify (trace out.2) = count isVerify (trace w) + verifies
    ∧ verifies ≤ posts ≤ fuel.
Proof.
  revert attempts verified w.
  induction fuel as [| fuel IH]; intros attempts verified w;
    cbn [autoPilotLoop].
  - exists 0, 0. cbn. lia.
  - destruct ((attempts <? maxRetries_autoPilot) && negb verified);
      [| exists 0, 0; cbn; lia].
    rewrite run_bind.
    destruct (autoPilotAttempt_run (S attempts) verified w)
      as (Htr & _ & _ & _).
    set (out1 := autoPilotAttempt opt (S attempts) verified env w) in *.
    destruct (IH (S attempts) out1.1 out1.2) as (p & v & Hp & Hv & Hle).
    cbv zeta. rewrite Hp, Hv, Htr, !count_app,
      attemptEvents_posts, attemptEvents_verifies.
    destruct (captureFrame_at env (nCapture (cursors w)));
      [exists (S p), (S v) | exists (S p), v]; lia.
Qed.

(** Every capture succeeds and every verification says "not selected":
    the loop uses up its attempts. *)
Lemma autoPilotLoop_all_fail (fuel attempts : nat) (w : World) :
  attempts + fuel = maxRetries_autoPilot →
  (∀ i, i < fuel →
     is_Some (captureFrame_at env (nCapture (cursors w) + i))) →
  (∀ i, i < fuel →
     isSelected (verifySelection_at env (nVerify (cursors w) + i)) = false) →
  let out := autoPilotLoop fuel opt attempts false env w in
  out.1 = false
  ∧ count isPost (trace out.2) = count isPost (trace w) + fuel
  ∧ count isVerify (trace out.2) = count isVerify (trace w) + fuel.
Proof.
  revert attempts w.
  induction fuel as [| fuel IH]; intros attempts w Hsum Hcap Hver;
    cbn [autoPilotLoop].
  - cbn. split_and!; [done | lia | lia].
  - assert (Hlt : (attempts <? maxRetries_autoPilot) = true)
      by (apply Nat.ltb_lt; lia).
    rewrite Hlt. cbn [andb negb]. rewrite run_bind.
    destruct (autoPilotAttempt_run (S attempts) false w)
      as (Htr & Hv & Hnc & Hnv).
    set (out1 := autoPilotAttempt opt (S attempts) false env w) in *.
    pose proof (Hcap 0 ltac:(lia)) as [img Himg].
    pose proof (Hver 0 ltac:(lia)) as Hsel.
    rewrite Nat.add_0_r in Himg, Hsel.
    rewrite Himg in Htr, Hv, Hnv. rewrite Hsel in Hv.
    rewrite Hv.
    destruct (IH (S attempts) out1.2) as (Hr & Hp & Hq).
    + lia.
    + intros i Hi. rewrite Hnc.
      replace (S (nCapture (cursors w)) + i)
        with (nCapture (cursors w) + S i) by lia.
      apply Hcap. lia.
    + intros i Hi. rewrite Hnv.
      replace (S (nVerify (cursors w)) + i)
        with (nVerify (cursors w) + S i) by lia.
      apply Hver. lia.
    + cbv zeta. rewrite Hr, Hp, Hq, Htr, !count_app,
        attemptEvents_posts, attemptEvents_verifies.
      split_and!; [done | lia | lia].
Qed.

(** Every capture succeeds and the [k]-th verification is the first to
    say "selected": the loop stops after [k] attempts. *)
Lemma autoPilotLoop_success (k fuel attempts : nat) (w : World) :
  attempts + fuel = maxRetries_autoPilot →
  1 ≤ k ≤ fuel →
  (∀ i, i < k →
     is_Some (captureFrame_at env (nCapture (cursors w) + i))) →
  (∀ i, i < k - 1 →
     isSelected (verifySelection_at env (nVerify (cursors w) + i)) = false) →
  isSelected (verifySelection_at env (nVerify (cursors w) + (k - 1))) = true →
  let out := autoPilotLoop fuel opt attempts false env w in
  out.1 = true
  ∧ count isPost (trace out.2) = count isPost (trace w) + k
  ∧ count isVerify (trace out.2) = count isVerify (trace w) + k.
Proof.
  revert k attempts w.
  induction fuel as [| fuel IH]; intros k attempts w Hsum Hk Hcap Hver Hok;
    [lia |].
  cbn [autoPilotLoop].
  assert (Hlt : (attempts <? maxRetries_autoPilot) = true)
    by (apply Nat.ltb_lt; lia).
  rewrite Hlt. cbn [andb negb]. rewrite run_bind.
  destruct (autoPilotAttempt_run (S attempts) false w)
    as (Htr & Hv & Hnc & Hnv).
  set (out1 := autoPilotAttempt opt (S attempts) false env w) in *.
  pose proof (Hcap 0 ltac:(lia)) as [img Himg].
  rewrite Nat.add_0_r in Himg. rewrite Himg in Htr, Hv, Hnv.
  destruct (decide (k = 1)) as [-> | Hk1].
  - cbn [Nat.sub] in Hok. rewrite Nat.add_0_r in Hok.
    rewrite Hok in Hv. rewrite Hv, autoPilotLoop_verified.
    cbn [fst snd]. rewrite Htr, !count_app,
      attemptEvents_posts, attemptEvents_verifies.
    split_and!; [done | lia | lia].
  - pose proof (Hver 0 ltac:(lia)) as Hsel.
    rewrite Nat.add_0_r in Hsel. rewrite Hsel in Hv. rewrite Hv.
    destruct (IH (k - 1) (S attempts) out1.2) as (Hr & Hp & Hq).
    + lia.
    + lia.
    + intros i Hi. rewrite Hnc.
      replace (S (nCapture (cursors w)) + i)
        with (nCapture (cursors w) + S i) by lia.
      apply Hcap. lia.
    + intros i Hi. rewrite Hnv.
      replace (S (nVerify (cursors w)) + i)
        with (nVerify (cursors w) + S i) by lia.
      apply Hver. lia.
    + rewrite Hnv.
      replace (S (nVerify (cursors w)) + (k - 1 - 1))
        with (nVerify (cursors w) + (k - 1)) by lia.
      exact Hok.
    + cbv zeta. rewrite Hr, Hp, Hq, Htr, !count_app,
        attemptEvents_posts, attemptEvents_verifies.
      split_and!; [done | lia | lia].
Qed.

End AutoPilot.

Section HandleAutoPilot.

Context (env : Env) (opt : QuestionOption).
Context (nextButtonBox : option BoundingBox) (clickNext : bool).

Lemma count_snoc (p : Event → bool) (tr : list Event) (e : Event) :
  count p (tr ++ [e]) = count p tr + (if p e then 1 else 0).
Proof. rewrite count_app. unfold count. simpl. by destruct (p e). Qed.

(** [handleAutoPilot] is its loop between a first log entry and the
    advance or the failure report. *)
Lemma handleAutoPilot_run (w : World) :
  let w0 := with_trace (λ t, t ++ [EvLog success (MsgTargetIdentified (text opt))]) w in
  let loop := autoPilotLoop maxRetries_autoPilot opt 0 false env w0 in
  (handleAutoPilot opt nextButtonBox clickNext env w).2
  = if loop.1 && clickNext then
      with_trace (λ t, (t ++ [EvLog info MsgProceedingToNext])
                       ++ [EvPostMessage (nextSeq nextButtonBox)]) loop.2
    else if negb loop.1 then
      with_trace (λ t, t ++ [EvLog error_ (MsgFailedToVerify maxRetries_autoPilot)])
        loop.2
    else loop.2.
Proof.
  unfold handleAutoPilot. rewrite run_bind.
  change ((addLog (MsgTargetIdentified (text opt)) success env w).2)
    with (with_trace (λ t, t ++ [EvLog success (MsgTargetIdentified (text opt))]) w).
  rewrite run_bind. cbv zeta.
  destruct (autoPilotLoop _ _ _ _ _ _) as [verified w1]. cbn [fst snd].
  destruct verified, clickNext; reflexivity.
Qed.

End HandleAutoPilot.

(** C3 (as the code has it): the selection loop makes at most 5 attempts.
    An attempt dispatches one action sequence, waits, captures a frame
    and, if a frame was captured, makes one verification call.  When every
    capture succeeds and verification always fails, there are exactly 5
    dispatches and 5 verification calls, then the failure report, and no
    advance.  When the captures succeed and verification first succeeds at
    attempt [k <= 5], there are [k] verification calls and [k] dispatches,
    and with auto-advance one more dispatch, the next-button sequence, last
    and unverified. *)
Theorem autoPilot_retry_protocol (env : Env) (opt : QuestionOption)
    (nextButtonBox : option BoundingBox) (clickNext : bool) (w : World) :
  let w' := (handleAutoPilot opt nextButtonBox clickNext env w).2 in
  let capture_at i := captureFrame_at env (nCapture (cursors w) + i) in
  let selected_at i :=
    isSelected (verifySelection_at env (nVerify (cursors w) + i)) in
  (∀ (attempt : nat) (verified : bool) (w0 : World),
     trace (autoPilotAttempt opt attempt verified env w0).2
     = trace w0
       ++ attemptEvents opt attempt
            (captureFrame_at env (nCapture (cursors w0)))
            (verifySelection_at env (nVerify (cursors w0))))
  ∧ (∃ posts verifies,
       count isPost (trace w') = count isPost (trace w) + posts
       ∧ count isVerify (trace w') = count isVerify (trace w) + verifies
       ∧ verifies ≤ maxRetries_autoPilot
       ∧ verifies ≤ posts ≤ maxRetries_autoPilot + 1)
  ∧ ((∀ i, i < maxRetries_autoPilot → is_Some (capture_at i)) →
     (∀ i, i < maxRetries_autoPilot → selected_at i = false) →
     count isPost (trace w') = count isPost (trace w) + 5
     ∧ count isVerify (trace w') = count isVerify (trace w) + 5
     ∧ last (trace w') = Some (EvLog error_ (MsgFailedToVerify 5)))
  ∧ (∀ k, 1 ≤ k ≤ maxRetries_autoPilot →
     (∀ i, i < k → is_Some (capture_at i)) →
     (∀ i, i < k - 1 → selected_at i = false) →
     selected_at (k - 1) = true →
     count isVerify (trace w') = count isVerify (trace w) + k
     ∧ count isPost (trace w')
       = count isPost (trace w) + k + (if clickNext then 1 else 0)
     ∧ (clickNext = true →
        last (trace w') = Some (EvPostMessage (nextSeq nextButtonBox)))).
Proof.
  intros w' capture_at selected_at. subst w'.
  rewrite handleAutoPilot_run. cbv zeta.
  set (w0 := with_trace _ w).
  assert (Hw0 : cursors w0 = cursors w
                ∧ count isPost (trace w0) = count isPost (trace w)
                ∧ count isVerify (trace w0) = count isVerify (trace w)).
  { subst w0. cbn -[count]. rewrite !count_snoc. cbn. split_and!; [done | lia | lia]. }
  destruct Hw0 as (Hcur & Hp0 & Hv0).
  split_and!.
  - intros attempt verified w1.
    apply (autoPilotAttempt_run env opt attempt verified w1).
  - destruct (autoPilotLoop_bounds env opt maxRetries_autoPilot 0 false w0)
      as (p & v & Hp & Hv & Hle).
    destruct (autoPilotLoop _ _ _ _ _ _) as [verified w1]. cbn [fst snd] in *.
    destruct verified, clickNext; cbn [andb negb];
      cbn -[count]; rewrite ?count_snoc; cbn [isPost isVerify];
      rewrite Hp, Hv, Hp0, Hv0;
      [exists (S p), v | exists p, v | exists p, v | exists p, v];
      unfold maxRetries_autoPilot in *; lia.
  - intros Hcap Hver.
    destruct (autoPilotLoop_all_fail env opt maxRetries_autoPilot 0 w0)
      as (Hr & Hp & Hv); [done | | |].
    + intros i Hi. rewrite Hcur. by apply Hcap.
    + intros i Hi. rewrite Hcur. by apply Hver.
    + rewrite Hr. cbn [andb negb]. unfold with_trace at 1 2 3. cbn [trace].
      rewrite !count_snoc, last_snoc. cbn [isPost isVerify].
      rewrite Hp, Hv, Hp0, Hv0. unfold maxRetries_autoPilot.
      split_and!; [lia | lia | done].
  - intros k Hk Hcap Hver Hok.
    destruct (autoPilotLoop_success env opt k maxRetries_autoPilot 0 w0)
      as (Hr & Hp & Hv); [done | done | | | |].
    + intros i Hi. rewrite Hcur. by apply Hcap.
    + intros i Hi. rewrite Hcur. by apply Hver.
    + rewrite Hcur. exact Hok.
    + rewrite Hr. destruct clickNext; cbn [andb negb].
      * unfold with_trace at 1 2 3. cbn [trace].
        rewrite !count_snoc, last_snoc. cbn [isPost isVerify].
        rewrite Hp, Hv, Hp0, Hv0. split_and!; [lia | lia | done].
      * rewrite Hp, Hv, Hp0, Hv0. split_and!; [lia | lia | done].
Qed.

Lemma autoPilot_retry_protocol_witness :
  let w := runningWorld autoSelectSettings in
  let opt := correctOption Num.lit_0_9 in
  let third :=
    with_verifySelection
      (λ n, {| isSelected := (n =? 2); confidence := Num.lit_0_9 |})
      idleEnv in
  let failed := (handleAutoPilot opt None true idleEnv w).2 in
  let selected := (handleAutoPilot opt None true third w).2 in
  (count isPost (trace failed) = 5
   ∧ count isVerify (trace failed) = 5
   ∧ last (trace failed) = Some (EvLog error_ (MsgFailedToVerify 5)))
  ∧ (count isVerify (trace selected) = 3
     ∧ count isPost (trace selected) = 4
     ∧ last (trace selected) = Some (EvPostMessage [next_click])).
Proof.
  split.
  - apply (proj1 (proj2 (proj2
             (autoPilot_retry_protocol idleEnv (correctOption Num.lit_0_9)
                None true (runningWorld autoSelectSettings))))).
    + intros i _. by eexists.
    + intros i _. reflexivity.
  - destruct (proj2 (proj2 (proj2
                (autoPilot_retry_protocol
                   (with_verifySelection
                      (λ n, {| isSelected := (n =? 2);
                               confidence := Num.lit_0_9 |}) idleEnv)
                   (correctOption Num.lit_0_9) None true
                   (runningWorld autoSelectSettings)))) 3)
      as (Hv & Hp & Hlast).
    + unfold maxRetries_autoPilot. lia.
    + intros i _. by eexists.
    + intros i Hi. cbn in Hi. by destruct i as [| [| i]]; [| | lia].
    + reflexivity.
    + split_and!; [exact Hv | exact Hp | exact (Hlast eq_refl)].
Defined.

(** C3 fails as stated: when no frame can be captured after the clicks,
    the verification double is never asked; the loop still dispatches 5
    times and then reports the failure. *)
Lemma autoPilot_without_frames_never_verifies :
  let env := with_captureFrame (λ _, None) idleEnv in
  let w' := (handleAutoPilot (correctOption Num.lit_0_9) None true env
               (runningWorld autoSelectSettings)).2 in
  count isPost (trace w') = 5
  ∧ count isVerify (trace w') = 0
  ∧ last (trace w') = Some (EvLog error_ (MsgFailedToVerify 5)).
Proof. vm_compute. by split_and!. Qed.

(* ===================================================================== *)
(** * performAnalysis *)
(* ===================================================================== *)

Section PerformAnalysis.

Context (env : Env) (settings : AppSettings) (img : Frame).
Context (shouldFlash : bool).

#[global] Instance SameReact_preorder : PreOrder SameReact.
Proof.
  split; [by intros w |].
  intros w1 w2 w3 H1 H2. unfold SameReact in *. congruence.
Qed.

Lemma performAnalysis_run (w : World) :
  truthy (apiKey settings) = true →
  let out := beginAnalysis settings img shouldFlash env w in
  let w2 := (handleResult settings img out.1 env out.2).2 in
  (performAnalysis settings img shouldFlash env w).2
  = with_trace (λ t, t ++ [EvLog info MsgComplete])
      (with_refs (set_processingRef false) w2).
Proof.
  intros Hkey. unfold performAnalysis. rewrite Hkey. cbn [negb].
  rewrite !run_bind. reflexivity.
Qed.

Lemma handleResult_run (result : AnalysisResult) (w : World) :
  let w1 := (reportResult settings img result env w).2 in
  (handleResult settings img result env w).2
  = (autoSelectArm settings result env
       (with_react (set_lastResult (Some result)) w1)).2.
Proof. unfold handleResult. rewrite !run_bind. reflexivity. Qed.

(** Up to the analysis call nothing is dispatched, and the analyzer is
    called once. *)
Lemma beginAnalysis_counts (w : World) :
  let w1 := (beginAnalysis settings img shouldFlash env w).2 in
  count isPost (trace w1) = count isPost (trace w)
  ∧ count isAnalyze (trace w1) = S (count isAnalyze (trace w)).
Proof.
  split.
  - apply Emits_count.
    apply (Keeps_beginAnalysis (λ _, Emits _) (λ e, isPost e = false));
      frame_side.
  - unfold beginAnalysis, analyzeScreenFrame.
    rewrite !run_bind.
    set (w0 := (detectText img env _).2).
    assert (H0 : count isAnalyze (trace w0) = count isAnalyze (trace w)).
    { apply Emits_count. subst w0.
      etransitivity;
        [| apply (Keeps_detectText (λ _, Emits _) (λ e, isAnalyze e = false));
           frame_side].
      etransitivity;
        [| apply (Keeps_when (λ _, Emits (λ e, isAnalyze e = false)));
           apply (Keeps_addLog (λ _, Emits _) (λ e, isAnalyze e = false));
           frame_side].
      etransitivity;
        [| apply (Keeps_addLog (λ _, Emits _) (λ e, isAnalyze e = false));
           frame_side].
      etransitivity;
        [| apply (Keeps_when (λ _, Emits (λ e, isAnalyze e = false)));
           apply (Keeps_emit (λ _, Emits _) (λ e, isAnalyze e = false));
           frame_side].
      apply Emits_same. reflexivity. }
    rewrite <- H0.
    set (w1 := (emit (EvAnalyzeScreenFrame (modelName settings)) env w0).2).
    assert (H1 : count isAnalyze (trace w1) = S (count isAnalyze (trace w0))).
    { subst w1. munfold. cbn [snd with_trace trace].
      rewrite count_app. unfold count at 2. simpl. lia. }
    rewrite <- H1. apply Emits_count.
    destruct (validateModelSupport _ _); [reflexivity |].
    apply (Keeps_attemptLoop (λ _, Emits _) (λ e, isAnalyze e = false));
      frame_side.
Qed.

(** When the auto-select arm only writes a log entry, the whole analysis
    dispatches nothing, and the entry is in the trace. *)
Lemma performAnalysis_arm_logs (w : World) (msg : LogMessage)
    (ty : LogType) :
  truthy (apiKey settings) = true →
  autoSelectArm settings
    (beginAnalysis settings img shouldFlash env w).1 = addLog msg ty →
  let w' := (performAnalysis settings img shouldFlash env w).2 in
  count isPost (trace w') = count isPost (trace w)
  ∧ EvLog ty msg ∈ trace w'.
Proof.
  intros Hkey Harm w'. subst w'.
  rewrite performAnalysis_run by done. cbv zeta.
  rewrite handleResult_run. cbv zeta. rewrite Harm.
  destruct (beginAnalysis_counts w) as [Hp _].
  set (out := beginAnalysis settings img shouldFlash env w) in *.
  set (w1 := (reportResult settings img out.1 env out.2).2).
  assert (H1 : count isPost (trace w1) = count isPost (trace out.2)).
  { apply Emits_count.
    apply (Keeps_reportResult (λ _, Emits _) (λ e, isPost e = false));
      frame_side. }
  munfold. cbn [snd with_trace with_refs with_react trace].
  rewrite !count_snoc. cbn [isPost]. rewrite H1, Hp.
  split; [lia |].
  rewrite !elem_of_app, !list_elem_of_singleton. auto.
Qed.

End PerformAnalysis.

(** C4: when auto-select is on and the analysis returns a result with
    [hasQuestion] whose first option marked correct has a confidence below
    the configured threshold, [performAnalysis] reports "confidence too
    low" and posts no action sequence at all. *)
Theorem low_confidence_aborts (env : Env) (settings : AppSettings)
    (img : Frame) (shouldFlash : bool) (w : World)
    (opts : list QuestionOption) (correctOpt : QuestionOption) :
  let result := (beginAnalysis settings img shouldFlash env w).1 in
  let w' := (performAnalysis settings img shouldFlash env w).2 in
  truthy (apiKey settings) = true →
  autoSelect settings = true →
  hasQuestion result = true →
  options result = Some opts →
  List.find isCorrect opts = Some correctOpt →
  Num.lt (confidenceScore correctOpt) (confidenceThreshold settings) = true →
  count isPost (trace w') = count isPost (trace w)
  ∧ EvLog warning
      (MsgConfidenceTooLow (confidenceScore correctOpt)
         (confidenceThreshold settings)) ∈ trace w'.
Proof.
  intros result w' Hkey Hauto Hq Hopts Hfind Hlt.
  apply performAnalysis_arm_logs; [done |].
  fold result. unfold autoSelectArm.
  rewrite Hopts, Hauto, Hq, Hfind. cbn [andb].
  by rewrite (lt_not_ge _ _ Hlt).
Qed.

Lemma low_confidence_aborts_witness :
  let env := answeringEnv Num.lit_0_5 in
  let w := runningWorld autoSelectSettings in
  let w' := (performAnalysis autoSelectSettings sampleFrame true env w).2 in
  count isPost (trace w') = 0
  ∧ EvLog warning (MsgConfidenceTooLow Num.lit_0_5 Num.lit_0_7) ∈ trace w'.
Proof.
  exact (low_confidence_aborts (answeringEnv Num.lit_0_5) autoSelectSettings
           sampleFrame true (runningWorld autoSelectSettings)
           [wrongOption; correctOption Num.lit_0_5]
           (correctOption Num.lit_0_5)
           eq_refl eq_refl eq_refl eq_refl eq_refl eq_refl).
Defined.

Section QuotaErrors.

Lemma includes_nonempty (s sub : string) :
  sub ≠ "" → Str.includes s sub = true → s ≠ "".
Proof. intros Hsub Hinc ->. destruct sub; [done | discriminate]. Qed.

Lemma isQuotaError_truthy (err : string) :
  isQuotaError err = true → Str.isEmpty err = false.
Proof.
  unfold isQuotaError. intros [H | H]%orb_true_iff;
    apply isEmpty_false; eapply includes_nonempty; try exact H; done.
Qed.

End QuotaErrors.

(** C7: when the analysis returns a result whose error mentions "Quota" or
    "429", [performAnalysis] logs the error, turns [automationEnabled] off
    and leaves it off, and has called the analyzer exactly once. *)
Theorem quota_error_disables_automation (env : Env) (settings : AppSettings)
    (img : Frame) (shouldFlash : bool) (w : World) (err : string) :
  let result := (beginAnalysis settings img shouldFlash env w).1 in
  let w' := (performAnalysis settings img shouldFlash env w).2 in
  truthy (apiKey settings) = true →
  error result = Some err →
  Str.includes err "Quota" = true ∨ Str.includes err "429" = true →
  automationEnabled (settingsState (react w')) = false
  ∧ EvLog error_
      (MsgGeminiError (activeModelOf settings result) err
         (attemptInfoOf result)) ∈ trace w'
  ∧ count isAnalyze (trace w') = count isAnalyze (trace w) + 1.
Proof.
  intros result w' Hkey Herr Hquota.
  assert (Hq : isQuotaError err = true).
  { unfold isQuotaError. apply orb_true_iff. tauto. }
  pose proof (isQuotaError_truthy err Hq) as Hne.
  subst w'. rewrite performAnalysis_run by done. cbv zeta.
  rewrite handleResult_run. cbv zeta.
  destruct (beginAnalysis_counts env settings img shouldFlash w) as [_ Ha].
  set (out := beginAnalysis settings img shouldFlash env w) in *.
  fold result.
  set (w1 := (reportResult settings img result env out.2).2).
  assert (H1 : automationEnabled (settingsState (react w1)) = false
               ∧ EvLog error_
                   (MsgGeminiError (activeModelOf settings result) err
                      (attemptInfoOf result)) ∈ trace w1
               ∧ count isAnalyze (trace w1) = count isAnalyze (trace out.2)).
  { subst w1. unfold reportResult. unfold truthy. rewrite Herr, Hne.
    cbn [negb]. change (default "" (Some err)) with err.
    rewrite Hq. munfold.
    cbn [snd fst with_trace with_react trace react settingsState
         update_settingsState disableAutomation automationEnabled].
    rewrite !count_snoc. cbn [isAnalyze].
    split_and!; [done | | lia].
    rewrite !elem_of_app, !list_elem_of_singleton. auto. }
  destruct H1 as (Hoff & Hlog & Hcnt).
  set (w2 := with_react (set_lastResult (Some result)) w1).
  assert (H2 : SameReact w2 (autoSelectArm settings result env w2).2).
  { apply (Keeps_autoSelectArm (λ _, SameReact) (λ _, True)); frame_side. }
  assert (H3 : Emits (λ e, isAnalyze e = false) w2
                 (autoSelectArm settings result env w2).2).
  { apply (Keeps_autoSelectArm (λ _, Emits _) (λ e, isAnalyze e = false));
      frame_side. }
  destruct H3 as (evs & Htr & Hevs).
  change (react (with_trace ?f ?x)) with (react x).
  change (trace (with_trace ?f ?x)) with (f (trace x)). cbv beta.
  change (react (with_refs ?f ?x)) with (react x).
  change (trace (with_refs ?f ?x)) with (trace x).
  rewrite H2, Htr.
  rewrite !count_app, (count_none isAnalyze evs) by done.
  cbn [w2 with_react react set_lastResult settingsState trace].
  unfold count at 2. cbn [List.filter isAnalyze length].
  rewrite Hcnt, Ha.
  split_and!; [done | | lia].
  rewrite !elem_of_app. auto.
Qed.

Lemma quota_error_disables_automation_witness :
  let w' := (performAnalysis autoSelectSettings sampleFrame true quotaEnv
               (runningWorld autoSelectSettings)).2 in
  automationEnabled (settingsState (react w')) = false
  ∧ EvLog error_
      (MsgGeminiError "gemini-flash-lite-latest"
         "429 RESOURCE_EXHAUSTED: Quota exceeded" None) ∈ trace w'
  ∧ count isAnalyze (trace w') = 1.
Proof.
  exact (quota_error_disables_automation quotaEnv autoSelectSettings
           sampleFrame true (runningWorld autoSelectSettings)
           "429 RESOURCE_EXHAUSTED: Quota exceeded"
           eq_refl eq_refl (or_introl eq_refl)).
Defined.

(* ===================================================================== *)
(** * The transcription probe *)
(* ===================================================================== *)

Section Probe.

Context (env : Env).

Lemma sleep_nGenerate (ms : N) (w : World) :
  nGenerate (cursors (sleep ms env w).2) = nGenerate (cursors w).
Proof. munfold. cbn. by destruct (stoppedDuring env _). Qed.

Lemma generateContent_run (model : string) (probe : bool) (w : World) :
  (generateContent model probe env w).1
  = generateContent_at env (nGenerate (cursors w))
  ∧ nGenerate (cursors (generateContent model probe env w).2)
    = S (nGenerate (cursors w)).
Proof. munfold. cbn. by destruct (stoppedDuring env _). Qed.

(** A failing attempt before the last one leads to the next attempt,
    one [generateContent] call later. *)
Lemma attemptLoop_fail_step (fuel : nat) (onProgress : bool)
    (attempt : nat) (model : string) (w : World) :
  S attempt < maxRetries_analyze →
  schemaAttemptFails env (generateContent_at env (nGenerate (cursors w)))
  = true →
  ∃ w1 model',
    attemptLoop (S fuel) onProgress attempt model env w
    = attemptLoop fuel onProgress (S attempt) model' env w1
    ∧ nGenerate (cursors w1) = S (nGenerate (cursors w)).
Proof.
  intros Hlt Hfail. unfold maxRetries_analyze in Hlt.
  cbn [attemptLoop].
  assert (H1 : (attempt <? maxRetries_analyze) = true)
    by (apply Nat.ltb_lt; unfold maxRetries_analyze; lia).
  assert (H2 : (S attempt =? maxRetries_analyze) = false)
    by (apply Nat.eqb_neq; unfold maxRetries_analyze; lia).
  assert (H3 : (maxRetries_analyze <=? S attempt) = false)
    by (apply Nat.leb_gt; unfold maxRetries_analyze; lia).
  rewrite H1, H2, H3. cbn [negb].
  unfold schemaAttemptFails in Hfail.
  rewrite run_bind, run_bind.
  set (w0 := (when onProgress _ env w).2).
  assert (Hw0 : nGenerate (cursors w0) = nGenerate (cursors w)).
  { subst w0. destruct onProgress; reflexivity. }
  destruct (generateContent_run model false w0) as [Hv Hn].
  rewrite Hw0 in Hv, Hn. rewrite Hv.
  set (w1 := (generateContent model false env w0).2) in *.
  destruct (generateContent_at env (nGenerate (cursors w)))
    as [e | responseText].
  - rewrite run_bind. eexists _, _. split; [reflexivity |].
    by rewrite sleep_nGenerate.
  - destruct (Str.trim <$> responseText) as [[| c txt'] |].
    + rewrite run_bind. eexists _, _. split; [reflexivity |].
      by rewrite sleep_nGenerate.
    + rewrite run_bind. cbn [JSON_parse fst snd].
      destruct (parseJSON env _) as [e | parsed]; [| discriminate].
      rewrite run_bind. eexists _, _. split; [reflexivity |].
      by rewrite sleep_nGenerate.
    + rewrite run_bind. eexists _, _. split; [reflexivity |].
      by rewrite sleep_nGenerate.
Qed.

(** The last attempt with a non-empty transcription returns the probe
    result. *)
Lemma attemptLoop_probe (fuel : nat) (onProgress : bool) (model : string)
    (w : World) (raw : string) :
  generateContent_at env (nGenerate (cursors w)) = GenResolves (Some raw) →
  Str.trim raw ≠ "" →
  (attemptLoop (S fuel) onProgress 2 model env w).1
  = probeResult (Str.trim raw) model 3.
Proof.
  intros Hgen Hne. cbn [attemptLoop].
  change (2 <? maxRetries_analyze) with true.
  change (3 =? maxRetries_analyze) with true. cbn [negb].
  rewrite run_bind, run_bind.
  set (w0 := (when onProgress _ env w).2).
  assert (Hw0 : nGenerate (cursors w0) = nGenerate (cursors w)).
  { subst w0. destruct onProgress; reflexivity. }
  assert (Hv : (generateContent model true env w0).1 = GenResolves (Some raw)).
  { rewrite <- Hgen, <- Hw0. reflexivity. }
  rewrite Hv. cbn [fmap option_fmap option_map].
  destruct (Str.trim raw) as [| c txt']; [done | reflexivity].
Qed.

(** Two failing attempts and a transcription: the analysis returns a
    probe result. *)
Lemma analyzeScreenFrame_probe (model : string) (onProgress : bool)
    (context : list ExternalContext) (w : World) (raw : string) :
  validateModelSupport model context = None →
  schemaAttemptFails env (generateContent_at env (nGenerate (cursors w)))
  = true →
  schemaAttemptFails env
    (generateContent_at env (nGenerate (cursors w) + 1)) = true →
  generateContent_at env (nGenerate (cursors w) + 2)
  = GenResolves (Some raw) →
  Str.trim raw ≠ "" →
  ∃ model',
    (analyzeScreenFrame model onProgress context env w).1
    = probeResult (Str.trim raw) model' 3.
Proof.
  intros Hval H0 H1 H2 Hne. unfold analyzeScreenFrame.
  rewrite run_bind, Hval.
  set (w0 := (emit _ env w).2).
  assert (Hw0 : nGenerate (cursors w0) = nGenerate (cursors w)) by done.
  rewrite <- Hw0 in H0, H1, H2.
  change (attemptLoop maxRetries_analyze) with (attemptLoop 3).
  destruct (attemptLoop_fail_step 2 onProgress 0 model w0)
    as (w1 & m1 & -> & Hn1); [unfold maxRetries_analyze; lia | done |].
  destruct (attemptLoop_fail_step 1 onProgress 1 m1 w1)
    as (w2 & m2 & -> & Hn2); [unfold maxRetries_analyze; lia | |].
  { rewrite Hn1, <- Nat.add_1_r. done. }
  exists m2. apply attemptLoop_probe; [| done].
  rewrite Hn2, Hn1. rewrite <- H2. f_equal. lia.
Qed.

End Probe.

Section ProbeAnalysis.

Context (env : Env) (settings : AppSettings) (img : Frame).
Context (shouldFlash : bool).

Lemma beginAnalysis_cursor (w : World) :
  ∃ w0,
    beginAnalysis settings img shouldFlash env w
    = analyzeScreenFrame (modelName settings) (debugMode settings)
        (externalContext settings) env w0
    ∧ nGenerate (cursors w0) = nGenerate (cursors w).
Proof.
  unfold beginAnalysis. rewrite !run_bind.
  eexists. split; [reflexivity |].
  munfold. cbn.
  destruct (negb (simplifiedMode settings) && shouldFlash),
    (debugMode settings); cbn;
    destruct (stoppedDuring env _); reflexivity.
Qed.

End ProbeAnalysis.

(** C10: when the first two attempts of the analysis fail and the third,
    the transcription probe, gets a non-empty text, the result has
    [hasQuestion] set while its lists of questions and of options are
    empty; and with auto-select on, [performAnalysis] then reports "no
    clear answer" and posts no action sequence. *)
Theorem probe_result_takes_no_action (env : Env) (settings : AppSettings)
    (img : Frame) (shouldFlash : bool) (w : World) (raw : string) :
  let gen i := generateContent_at env (nGenerate (cursors w) + i) in
  let result := (beginAnalysis settings img shouldFlash env w).1 in
  let w' := (performAnalysis settings img shouldFlash env w).2 in
  truthy (apiKey settings) = true →
  validateModelSupport (modelName settings) (externalContext settings) = None →
  schemaAttemptFails env (gen 0) = true →
  schemaAttemptFails env (gen 1) = true →
  gen 2 = GenResolves (Some raw) →
  Str.trim raw ≠ "" →
  (hasQuestion result = true
   ∧ questions result = []
   ∧ options result = Some []
   ∧ questionText result = Some (Str.trim raw)
   ∧ attempts result = Some 3
   ∧ error result = None)
  ∧ (autoSelect settings = true →
     count isPost (trace w') = count isPost (trace w)
     ∧ EvLog warning MsgNoClearAnswer ∈ trace w').
Proof.
  intros gen result w' Hkey Hval H0 H1 H2 Hne. subst gen. cbv beta in *.
  rewrite Nat.add_0_r in H0.
  destruct (beginAnalysis_cursor env settings img shouldFlash w)
    as (w0 & Hrun & Hcur).
  rewrite <- Hcur in H0, H1, H2.
  destruct (analyzeScreenFrame_probe env (modelName settings)
              (debugMode settings) (externalContext settings) w0 raw
              Hval H0 H1 H2 Hne) as [model' Hres].
  assert (Hresult : result = probeResult (Str.trim raw) model' 3).
  { subst result. rewrite Hrun. exact Hres. }
  split.
  - rewrite Hresult. by split_and!.
  - intros Hauto. apply performAnalysis_arm_logs; [done |].
    fold result. rewrite Hresult. unfold autoSelectArm.
    cbn [options hasQuestion probeResult]. rewrite Hauto. reflexivity.
Qed.

Lemma probe_result_takes_no_action_witness :
  let w := runningWorld autoSelectSettings in
  let result := (beginAnalysis autoSelectSettings sampleFrame true probeEnv w).1 in
  let w' := (performAnalysis autoSelectSettings sampleFrame true probeEnv w).2 in
  (hasQuestion result = true
   ∧ questions result = []
   ∧ options result = Some []
   ∧ questionText result
     = Some "What is the capital of France? A) Lyon B) Paris"
   ∧ attempts result = Some 3
   ∧ error result = None)
  ∧ count isPost (trace w') = 0
  ∧ EvLog warning MsgNoClearAnswer ∈ trace w'.
Proof.
  pose proof (probe_result_takes_no_action probeEnv autoSelectSettings
                sampleFrame true (runningWorld autoSelectSettings)
                "What is the capital of France? A) Lyon B) Paris"
                eq_refl eq_refl eq_refl eq_refl eq_refl
                ltac:(discriminate)) as [Hres Harm].
  split; [exact Hres | exact (Harm eq_refl)].
Defined.

(* ===================================================================== *)
(** * Stopping the session while a call is pending *)
(* ===================================================================== *)

Section StopsDuringTick.

#[global] Instance StopsSeen_preorder (env : Env) : PreOrder (StopsSeen env).
Proof.
  split.
  - intros w. unfold StopsSeen. split_and!; [lia | done | intros; lia].
  - intros w1 w2 w3 (Hle1 & Hst1 & Hin1) (Hle2 & Hst2 & Hin2).
    unfold StopsSeen. split_and!; [lia | auto |].
    intros n Hn Hstop.
    destruct (decide (n < nAwait (cursors w2))) as [Hlt | Hge].
    + apply Hst2, (Hin1 n); [lia | done].
    + apply (Hin2 n); [lia | done].
Qed.

#[global] Instance NeverStopped_preorder (env : Env) :
  PreOrder (NeverStopped env).
Proof.
  split.
  - by intros w Hcalm.
  - intros w1 w2 w3 H1 H2 Hcalm. rewrite H2, H1; done.
Qed.

Ltac stops_side :=
  intros; cbv beta;
  first
    [ exact _
    | done
    | unfold StopsSeen, stopped; cbn;
      first
        [ match goal with
          | H : ∀ c, nAwait (_ c) = nAwait c |- _ => rewrite H
          end
        | idtac ];
      split_and!; [lia | done | intros; lia]
    | unfold NeverStopped; cbn; done ].

Lemma StopsSeen_await (env : Env) (w : World) :
  StopsSeen env w (await env w).2.
Proof.
  unfold await, StopsSeen, stopped. cbn [snd].
  destruct (stoppedDuring env (nAwait (cursors w))) eqn:Hstop; cbn.
  - split_and!; [lia | done | done].
  - split_and!; [lia | done |].
    intros n Hn Hn'. replace n with (nAwait (cursors w)) in Hn' by lia.
    congruence.
Qed.

Lemma NeverStopped_await (env : Env) (w : World) :
  NeverStopped env w (await env w).2.
Proof.
  intros Hcalm. unfold await. cbn [snd]. by rewrite Hcalm.
Qed.

(** A stop during one of the awaits of the tick is still in force when
    the work of the tick is done. *)
Lemma StopsSeen_tickBody (env : Env) (settings : AppSettings) (w : World) :
  StopsSeen env w (tickBody settings env w).2.
Proof.
  apply (Keeps_tickBody StopsSeen (λ _, True));
    first [apply StopsSeen_await | stops_side].
Qed.

Lemma NeverStopped_tickBody (env : Env) (settings : AppSettings)
    (w : World) :
  NeverStopped env w (tickBody settings env w).2.
Proof.
  apply (Keeps_tickBody NeverStopped (λ _, True));
    first [apply NeverStopped_await | stops_side].
Qed.

End StopsDuringTick.

Section StoppedTick.

Context (env : Env) (settings : AppSettings).

(** A tick of a running session: the work, then the timer if the flag
    is still up. *)
Lemma runAutomationLoop_run (w : World) :
  isAutomationRunningRef (refs w) = true →
  let body := tickBody settings env w in
  (runAutomationLoop settings true env w).2
  = if isAutomationRunningRef (refs body.2)
    then with_refs (set_automationTimeoutRef (Some body.1))
           (with_trace (λ t, t ++ [EvSetTimeout body.1]) body.2)
    else body.2.
Proof.
  intros Hrun. unfold runAutomationLoop.
  rewrite run_bind. cbn [readRef fst snd]. rewrite Hrun. cbn [negb orb].
  rewrite run_bind, run_bind. cbn [readRef fst snd].
  by destruct (isAutomationRunningRef (refs (tickBody settings env w).2)).
Qed.

End StoppedTick.


(* ===================================================================== *)
(** * More on the text heuristics *)
(* ===================================================================== *)

Section SubsetFacts.

Lemma matchCount_all (parentWords childWords : list string) :
  Forall (λ word, word ∈ parentWords) childWords →
  matchCount parentWords childWords = length childWords.
Proof.
  unfold matchCount. induction 1 as [| word l Hword _ IH]; [done |].
  rewrite filter_cons. destruct (decide _) as [_ | Hn].
  - simpl. by rewrite IH.
  - exfalso. by apply Hn, has_true.
Qed.

Lemma one_above_threshold : Num.gt Num.lit_1 Num.lit_0_8 = true.
Proof. vm_compute. reflexivity. Qed.

(** A child all of whose cleaned words occur in the parent is a subset. *)
Lemma isTextSubset_of_contained (parentText childText : string) :
  parentText ≠ "" → childText ≠ "" →
  Forall (λ word, word ∈ clean parentText) (clean childText) →
  isTextSubset parentText childText = true.
Proof.
  intros Hp%isEmpty_false Hc%isEmpty_false Hall.
  unfold isTextSubset. rewrite Hp, Hc. cbn [orb]. cbv zeta.
  destruct (length (clean childText) =? 0) eqn:Hlen; [done |].
  apply Nat.eqb_neq in Hlen.
  rewrite matchCount_all.
  - rewrite div_self_of_nat by lia. apply one_above_threshold.
  - eapply Forall_impl; [exact Hall |]. intros word Hw. by apply new_elem.
Qed.

Lemma isTextSubset_refl (t : string) : t ≠ "" → isTextSubset t t = true.
Proof.
  intros Ht. apply isTextSubset_of_contained; [done | done |].
  by apply Forall_forall.
Qed.

End SubsetFacts.

(** X1: [isTextSubset] answers true whenever both texts are non-empty and
    every cleaned word of the child (lower case, punctuation removed,
    longer than 2) occurs among the cleaned words of the parent, whatever
    the order and the number of occurrences; in particular every non-empty
    text is a subset of itself. *)
Theorem isTextSubset_contained_words (parentText childText : string) :
  (parentText ≠ "" → childText ≠ "" →
   Forall (λ word, word ∈ clean parentText) (clean childText) →
   isTextSubset parentText childText = true)
  ∧ (parentText ≠ "" → isTextSubset parentText parentText = true).
Proof.
  split; [apply isTextSubset_of_contained | apply isTextSubset_refl].
Qed.

Lemma isTextSubset_contained_words_witness :
  isTextSubset "The capital of France is Paris." "PARIS, France; france!"
  = true
  ∧ isTextSubset "The capital of France is Paris."
      "The capital of France is Paris." = true.
Proof.
  split.
  - apply (proj1 (isTextSubset_contained_words
                    "The capital of France is Paris."
                    "PARIS, France; france!"));
      [discriminate | discriminate |].
    vm_compute. repeat constructor.
  - apply (proj2 (isTextSubset_contained_words
                    "The capital of France is Paris." ""));
      discriminate.
Defined.

Section QuietScreen.

Lemma rawChange_same (s : number) (t : string) : rawChange s t t = false.
Proof.
  unfold rawChange. cbv zeta. destruct t as [| c t'].
  - by rewrite andb_false_r.
  - by rewrite isTextSubset_refl.
Qed.

Lemma rawChange_short (s : number) (last txt : string) :
  String.length txt ≤ 15 → rawChange s last txt = false.
Proof.
  intros Hlen. unfold rawChange. cbv zeta.
  replace (15 <? String.length txt) with false
    by (symmetry; apply Nat.ltb_ge; lia).
  by rewrite andb_false_r.
Qed.

(** While the text stays the reference text, the gate stays shut and
    the counter at 0. *)
Lemma gateRun_unchanged (s : number) (t : string) (c n : nat) :
  gateRun s (t, c) (replicate n t)
  = (replicate n (false, false), (t, match n with 0 => c | _ => 0 end)).
Proof.
  revert c. induction n as [| n IH]; intros c; [done |].
  cbn [replicate gateRun]. rewrite gateStep_cases, rawChange_same.
  rewrite IH. by destruct n.
Qed.

End QuietScreen.

(** X2: in hybrid mode a screen whose normalized OCR text is still the
    reference text is never a candidate: over any number of such ticks
    the gate never escalates and holds the counter at 0, and a tick that
    is worked on such a text leaves the reference text alone, resets the
    counter and does not ask the change oracle.  Nor is a text of at most
    15 characters ever a candidate. *)
Theorem unchanged_text_never_escalates :
  (∀ (s : number) (t : string) (c n : nat),
     gateRun s (t, c) (replicate n t)
     = (replicate n (false, false), (t, match n with 0 => c | _ => 0 end)))
  ∧ (∀ (s : number) (last txt : string),
       String.length txt ≤ 15 → rawChange s last txt = false)
  ∧ (∀ (env : Env) (settings : AppSettings) (w : World) (img : Frame),
       triggerTime settings = false →
       triggerSmart settings = true →
       triggerHybrid settings = true →
       isAutomationRunningRef (refs w) = true →
       processingRef (refs w) = false →
       captureFrame_at env (nCapture (cursors w)) = Some img →
       normalizeOcrText (detectText_at env (nDetect (cursors w)))
       = lastOcrTextRef (refs w) →
       let w' := (runAutomationLoop settings true env w).2 in
       lastOcrTextRef (refs w') = lastOcrTextRef (refs w)
       ∧ ocrStabilityCounterRef (refs w') = 0
       ∧ count isCheck (trace w') = count isCheck (trace w)).
Proof.
  split_and!.
  - apply gateRun_unchanged.
  - apply rawChange_short.
  - intros env settings w img Htime Hsmart Hhybrid Hrun Hproc Hcap Hsame w'.
    destruct (hybrid_tick env settings w img Htime Hsmart Hhybrid Hrun Hproc
                Hcap) as (Hl & Hc & Hn).
    fold w' in Hl, Hc, Hn. rewrite Hsame in Hl, Hc, Hn.
    rewrite gateStep_cases, rawChange_same in Hl, Hc, Hn.
    cbn [fst snd] in Hl, Hc, Hn. split_and!; [done | done | lia].
Qed.

Lemma unchanged_text_never_escalates_witness :
  rawChange Num.lit_50 "what is the capital of france" "loading" = false
  ∧ (let w := with_refs (set_lastOcrTextRef "what is the capital of france")
                (runningWorld autoSelectSettings) in
     let w' := (runAutomationLoop autoSelectSettings true idleEnv w).2 in
     lastOcrTextRef (refs w') = "what is the capital of france"
     ∧ ocrStabilityCounterRef (refs w') = 0
     ∧ count isCheck (trace w') = 0).
Proof.
  split.
  - apply (proj1 (proj2 unchanged_text_never_escalates)). vm_compute. lia.
  - exact (proj2 (proj2 unchanged_text_never_escalates) idleEnv
             autoSelectSettings
             (with_refs (set_lastOcrTextRef "what is the capital of france")
                (runningWorld autoSelectSettings))
             sampleFrame eq_refl eq_refl eq_refl eq_refl eq_refl eq_refl
             eq_refl).
Defined.

Section NormalizedText.

Lemma allChars_impl (p q : ascii → bool) (s : string) :
  (∀ c, p c = true → q c = true) →
  allChars p s = true → allChars q s = true.
Proof.
  intros Hpq. induction s as [| c s IH]; [done |]. cbn [allChars].
  intros [Hc Hs]%andb_true_iff. by rewrite (Hpq c Hc), IH.
Qed.

Lemma allChars_filterChars (keep : ascii → bool) (s : string) :
  allChars keep (Str.filterChars keep s) = true.
Proof.
  induction s as [| c s IH]; [done |]. cbn [Str.filterChars].
  destruct (keep c) eqn:Hc; [| done]. cbn [allChars]. by rewrite Hc, IH.
Qed.

Lemma allChars_collapseRuns (p q cls : ascii → bool) (r : ascii)
    (inRun : bool) (s : string) :
  q r = true →
  (∀ c, p c = true → cls c = false → q c = true) →
  allChars p s = true →
  allChars q (Str.collapseRuns cls r inRun s) = true.
Proof.
  intros Hr Hpq. revert inRun.
  induction s as [| c s IH]; intros inRun; [done |].
  cbn [allChars Str.collapseRuns]. intros [Hc Hs]%andb_true_iff.
  destruct (cls c) eqn:Hcls.
  - destruct inRun; [by apply IH |]. cbn [allChars]. by rewrite Hr, IH.
  - cbn [allChars]. by rewrite (Hpq c Hc Hcls), IH.
Qed.

Lemma allChars_trimStart (p : ascii → bool) (s : string) :
  allChars p s = true → allChars p (Str.trimStart s) = true.
Proof.
  induction s as [| c s IH]; [done |]. cbn [Str.trimStart].
  destruct (Str.isWhiteSpace c); [| done].
  cbn [allChars]. intros [_ Hs]%andb_true_iff. by apply IH.
Qed.

Lemma allChars_trimEnd (p : ascii → bool) (s : string) :
  allChars p s = true → allChars p (Str.trimEnd s) = true.
Proof.
  induction s as [| c s IH]; [done |]. cbn [allChars Str.trimEnd].
  intros [Hc Hs]%andb_true_iff. specialize (IH Hs).
  destruct (Str.trimEnd s) as [| c' rest].
  - destruct (Str.isWhiteSpace c); [done |]. cbn [allChars]. by rewrite Hc.
  - cbn [allChars] in *. by rewrite Hc, IH.
Qed.

Lemma allChars_toLowerCase (p q : ascii → bool) (s : string) :
  (∀ c, p c = true → q (Str.toLowerCaseChar c) = true) →
  allChars p s = true → allChars q (Str.toLowerCase s) = true.
Proof.
  intros Hpq. induction s as [| c s IH]; [done |].
  cbn [allChars Str.toLowerCase].
  intros [Hc Hs]%andb_true_iff. by rewrite (Hpq c Hc), IH.
Qed.

(** The class kept by the second replacement of the clean-up. *)
Local Abbreviation kept :=
  (λ c : ascii, Str.isAsciiLetter c || (Str.code c =? 35)%N
                || Str.isWhiteSpace c).

(** Letters, [#] and the space: the text before it is lower-cased. *)
Local Abbreviation spaced :=
  (λ c : ascii, Str.isAsciiLetter c || (Str.code c =? 35)%N
                || (Str.code c =? 32)%N).

Lemma kept_spaced (c : ascii) :
  kept c = true → Str.isWhiteSpace c = false → spaced c = true.
Proof. destruct c as [[] [] [] [] [] [] [] []]; vm_compute; congruence. Qed.

Lemma spaced_normal (c : ascii) :
  spaced c = true → isNormalChar (Str.toLowerCaseChar c) = true.
Proof. destruct c as [[] [] [] [] [] [] [] []]; vm_compute; congruence. Qed.

Lemma spaced_white (c : ascii) :
  spaced c = true → Str.isWhiteSpace c = (Str.code c =? 32)%N.
Proof. destruct c as [[] [] [] [] [] [] [] []]; vm_compute; congruence. Qed.

Lemma toLowerCaseChar_space (c : ascii) :
  (Str.code (Str.toLowerCaseChar c) =? 32)%N = (Str.code c =? 32)%N.
Proof. destruct c as [[] [] [] [] [] [] [] []]; reflexivity. Qed.

Lemma space_white (c : ascii) :
  (Str.code c =? 32)%N = true → Str.isWhiteSpace c = true.
Proof. destruct c as [[] [] [] [] [] [] [] []]; vm_compute; congruence. Qed.

Lemma space_char (c : ascii) : (Str.code c =? 32)%N = true → c = " "%char.
Proof. destruct c as [[] [] [] [] [] [] [] []]; vm_compute; congruence. Qed.

Lemma normal_spaced (c : ascii) : isNormalChar c = true → spaced c = true.
Proof. destruct c as [[] [] [] [] [] [] [] []]; vm_compute; congruence. Qed.

Lemma normal_kept (c : ascii) : isNormalChar c = true → kept c = true.
Proof. destruct c as [[] [] [] [] [] [] [] []]; vm_compute; congruence. Qed.

Lemma normal_no_digit (c : ascii) :
  isNormalChar c = true → Str.isDigit c = false.
Proof. destruct c as [[] [] [] [] [] [] [] []]; vm_compute; congruence. Qed.

Lemma normal_lower (c : ascii) :
  isNormalChar c = true → Str.toLowerCaseChar c = c.
Proof. destruct c as [[] [] [] [] [] [] [] []]; vm_compute; congruence. Qed.

Lemma allChars_spaced (rawText : string) :
  allChars spaced
    (Str.trim
       (Str.collapseRuns Str.isWhiteSpace " " false
          (Str.filterChars kept
             (Str.collapseRuns Str.isDigit "#" false rawText)))) = true.
Proof.
  unfold Str.trim. apply allChars_trimEnd, allChars_trimStart.
  apply (allChars_collapseRuns kept); [done | apply kept_spaced |].
  apply allChars_filterChars.
Qed.

Lemma normalizeOcrText_alphabet (rawText : string) :
  allChars isNormalChar (normalizeOcrText rawText) = true.
Proof.
  unfold normalizeOcrText.
  apply (allChars_toLowerCase spaced); [apply spaced_normal |].
  apply allChars_spaced.
Qed.

(** The first code unit does not decide about the single spacing of what
    follows a code unit that is no space. *)
Lemma singleSpaced_start (a b : bool) (c : ascii) (s : string) :
  (Str.code c =? 32)%N = false →
  singleSpaced a (String c s) = singleSpaced b (String c s).
Proof. intros Hc. cbn [singleSpaced]. by rewrite Hc. Qed.

Lemma singleSpaced_toLowerCase (a : bool) (s : string) :
  singleSpaced a (Str.toLowerCase s) = singleSpaced a s.
Proof.
  revert a. induction s as [| c s IH]; intros a; [done |].
  cbn [Str.toLowerCase singleSpaced].
  rewrite toLowerCaseChar_space, !IH. by destruct s.
Qed.

(** Collapsing the white space and trimming the end leaves single
    spaces, none of them last. *)
Lemma singleSpaced_collapsed (inRun : bool) (s : string) :
  allChars kept s = true →
  singleSpaced inRun
    (Str.trimEnd (Str.collapseRuns Str.isWhiteSpace " " inRun s)) = true.
Proof.
  revert inRun. induction s as [| c s IH]; intros inRun; [done |].
  cbn [allChars Str.collapseRuns]. intros [Hc Hs]%andb_true_iff.
  destruct (Str.isWhiteSpace c) eqn:Hws.
  - destruct inRun; [by apply IH |].
    cbn [Str.trimEnd]. specialize (IH true Hs).
    destruct (Str.trimEnd _) as [| c' rest]; [done |].
    cbn [singleSpaced] in *. exact IH.
  - cbn [Str.trimEnd]. specialize (IH false Hs).
    assert (Hsp : (Str.code c =? 32)%N = false).
    { destruct (Str.code c =? 32)%N eqn:H32; [| done].
      apply space_white in H32. congruence. }
    destruct (Str.trimEnd _) as [| c' rest].
    + rewrite Hws. cbn [singleSpaced]. by rewrite Hsp.
    + cbn [singleSpaced]. rewrite Hsp. exact IH.
Qed.

(** Trimming the start of the collapsed text: either nothing is left,
    or a text that starts with a code unit that is no white space, and
    that is what collapsing leaves of a suffix of the text. *)
Lemma trimStart_collapsed (s : string) :
  ∃ s', Str.trimStart (Str.collapseRuns Str.isWhiteSpace " " false s)
        = Str.collapseRuns Str.isWhiteSpace " " true s'
        ∧ (allChars kept s = true → allChars kept s' = true).
Proof.
  assert (Htrue : ∀ t,
    Str.trimStart (Str.collapseRuns Str.isWhiteSpace " " true t)
    = Str.collapseRuns Str.isWhiteSpace " " true t).
  { induction t as [| c t IH]; [done |]. cbn [Str.collapseRuns].
    destruct (Str.isWhiteSpace c) eqn:Hws; [done |].
    cbn [Str.trimStart]. by rewrite Hws. }
  destruct s as [| c s]; [by exists "" |].
  cbn [Str.collapseRuns]. destruct (Str.isWhiteSpace c) eqn:Hws.
  - exists s. cbn [Str.trimStart]. change (Str.isWhiteSpace " ") with true.
    cbv iota. split; [apply Htrue |].
    cbn [allChars]. by intros [_ ?]%andb_true_iff.
  - exists (String c s). cbn [Str.trimStart Str.collapseRuns].
    by rewrite Hws.
Qed.

Lemma normalizeOcrText_singleSpaced (rawText : string) :
  singleSpaced true (normalizeOcrText rawText) = true.
Proof.
  unfold normalizeOcrText, Str.trim. rewrite singleSpaced_toLowerCase.
  destruct (trimStart_collapsed
              (Str.filterChars kept
                 (Str.collapseRuns Str.isDigit "#" false rawText)))
    as (s' & -> & Hkept).
  apply singleSpaced_collapsed, Hkept, allChars_filterChars.
Qed.

Lemma collapseRuns_none (cls : ascii → bool) (r : ascii) (inRun : bool)
    (s : string) :
  allChars (λ c, negb (cls c)) s = true →
  Str.collapseRuns cls r inRun s = s.
Proof.
  revert inRun. induction s as [| c s IH]; intros inRun; [done |].
  cbn [allChars Str.collapseRuns].
  intros [Hc%negb_true_iff Hs]%andb_true_iff. by rewrite Hc, IH.
Qed.

Lemma filterChars_all (keep : ascii → bool) (s : string) :
  allChars keep s = true → Str.filterChars keep s = s.
Proof.
  induction s as [| c s IH]; [done |]. cbn [allChars Str.filterChars].
  intros [Hc Hs]%andb_true_iff. by rewrite Hc, IH.
Qed.

Lemma toLowerCase_normal (s : string) :
  allChars isNormalChar s = true → Str.toLowerCase s = s.
Proof.
  induction s as [| c s IH]; [done |]. cbn [allChars Str.toLowerCase].
  intros [Hc Hs]%andb_true_iff. by rewrite normal_lower, IH.
Qed.

Lemma collapse_singleSpaced (a : bool) (s : string) :
  allChars isNormalChar s = true → singleSpaced a s = true →
  Str.collapseRuns Str.isWhiteSpace " " a s = s.
Proof.
  revert a. induction s as [| c s IH]; intros a; [done |].
  cbn [allChars Str.collapseRuns singleSpaced].
  intros [Hc Hs]%andb_true_iff.
  rewrite (spaced_white c (normal_spaced c Hc)).
  destruct (Str.code c =? 32)%N eqn:H32.
  - intros [[Ha%negb_true_iff _]%andb_true_iff Hrest]%andb_true_iff.
    rewrite Ha, (IH true) by done. by rewrite (space_char c H32).
  - intros Hrest. by rewrite (IH false).
Qed.

Lemma trimStart_singleSpaced (s : string) :
  allChars isNormalChar s = true → singleSpaced true s = true →
  Str.trimStart s = s.
Proof.
  destruct s as [| c s]; [done |]. cbn [allChars Str.trimStart singleSpaced].
  intros [Hc Hs]%andb_true_iff.
  rewrite (spaced_white c (normal_spaced c Hc)).
  by destruct (Str.code c =? 32)%N.
Qed.

Lemma trimEnd_singleSpaced (a : bool) (s : string) :
  allChars isNormalChar s = true → singleSpaced a s = true →
  Str.trimEnd s = s.
Proof.
  revert a. induction s as [| c s IH]; intros a; [done |].
  cbn [allChars Str.trimEnd singleSpaced].
  intros [Hc Hs]%andb_true_iff.
  rewrite (spaced_white c (normal_spaced c Hc)).
  destruct (Str.code c =? 32)%N eqn:H32.
  - intros [[_ Hne%negb_true_iff]%andb_true_iff Hrest]%andb_true_iff.
    rewrite (IH true) by done. by destruct s.
  - intros Hrest. rewrite (IH false) by done. by destruct s.
Qed.

(** A text in normal form is left as it is. *)
Lemma normalizeOcrText_fixed (s : string) :
  allChars isNormalChar s = true → singleSpaced true s = true →
  normalizeOcrText s = s.
Proof.
  intros Hs Hsp. unfold normalizeOcrText.
  rewrite (collapseRuns_none Str.isDigit)
    by (eapply allChars_impl; [| exact Hs];
        intros c Hc; by rewrite normal_no_digit).
  rewrite filterChars_all
    by (eapply allChars_impl; [| exact Hs]; apply normal_kept).
  assert (Hfalse : singleSpaced false s = true).
  { destruct s as [| c s']; [done |]. cbn [singleSpaced] in *.
    by destruct (Str.code c =? 32)%N. }
  rewrite collapse_singleSpaced by done.
  unfold Str.trim. rewrite trimStart_singleSpaced by done.
  rewrite (trimEnd_singleSpaced true) by done.
  by apply toLowerCase_normal.
Qed.

End NormalizedText.

(** X3: the clean-up of the OCR text in hybrid mode yields a text over
    the lower-case letters a to z, the number sign and the space, with no
    space at its start or end and no two spaces in a row; a text of this
    form is left as it is, so that cleaning twice is cleaning once. *)
Theorem normalizeOcrText_normal_form (rawText : string) :
  allChars isNormalChar (normalizeOcrText rawText) = true
  ∧ singleSpaced true (normalizeOcrText rawText) = true
  ∧ (allChars isNormalChar rawText = true →
     singleSpaced true rawText = true → normalizeOcrText rawText = rawText)
  ∧ normalizeOcrText (normalizeOcrText rawText) = normalizeOcrText rawText.
Proof.
  split_and!.
  - apply normalizeOcrText_alphabet.
  - apply normalizeOcrText_singleSpaced.
  - apply normalizeOcrText_fixed.
  - apply normalizeOcrText_fixed;
      [apply normalizeOcrText_alphabet | apply normalizeOcrText_singleSpaced].
Qed.

Lemma normalizeOcrText_normal_form_witness :
  normalizeOcrText "q# what is ## a #" = "q# what is ## a #".
Proof.
  apply (proj1 (proj2 (proj2 (normalizeOcrText_normal_form
                                "q# what is ## a #"))));
    vm_compute; reflexivity.
Defined.

Section CaseBlind.

Lemma toLowerCaseChar_idemp (c : ascii) :
  Str.toLowerCaseChar (Str.toLowerCaseChar c) = Str.toLowerCaseChar c.
Proof. destruct c as [[] [] [] [] [] [] [] []]; reflexivity. Qed.

Lemma toLowerCase_idemp (s : string) :
  Str.toLowerCase (Str.toLowerCase s) = Str.toLowerCase s.
Proof.
  induction s as [| c s IH]; [done |]. cbn [Str.toLowerCase].
  by rewrite toLowerCaseChar_idemp, IH.
Qed.

Lemma isEmpty_toLowerCase (s : string) :
  Str.isEmpty (Str.toLowerCase s) = Str.isEmpty s.
Proof. by destruct s. Qed.

Lemma tokenSet_toLowerCase (s : string) :
  tokenSet (Str.toLowerCase s) = tokenSet s.
Proof.
  apply set_eq. intros y. by rewrite !tokenSet_elem, toLowerCase_idemp.
Qed.

Lemma jaccard_toLowerCase (a b : string) :
  jaccardIndex (Str.toLowerCase a) (Str.toLowerCase b) = jaccardIndex a b.
Proof.
  unfold jaccardIndex.
  by rewrite !isEmpty_toLowerCase, !tokenSet_toLowerCase.
Qed.

(** Zero divided by a count that is not zero is zero. *)
Lemma div_zero_of_nat (n : nat) :
  0 < n → Num.div (Num.of_nat 0) (Num.of_nat n) = Num.lit_0.
Proof.
  intros Hn. unfold Num.of_nat.
  destruct (N.of_nat n) as [| p] eqn:Hp; [lia | reflexivity].
Qed.

Lemma jaccard_disjoint (a b : string) :
  tokenSet a ## tokenSet b → jaccardIndex a b = Num.lit_0.
Proof.
  intros Hdisj. unfold jaccardIndex.
  destruct (Str.isEmpty a || Str.isEmpty b); [done |].
  replace (tokenSet a ∩ tokenSet b) with (∅ : gset string)
    by (symmetry; apply disjoint_intersection_L; done).
  rewrite size_empty. apply div_zero_of_nat.
  pose proof (tokenSet_size_pos a) as Ha.
  pose proof (union_subseteq_l (tokenSet a) (tokenSet b)) as Hsub.
  apply (subseteq_size (tokenSet a)) in Hsub. lia.
Qed.

Lemma jaccard_tokens (a a' b : string) :
  a ≠ "" → a' ≠ "" → tokenSet a = tokenSet a' →
  jaccardIndex a b = jaccardIndex a' b.
Proof.
  intros Ha%isEmpty_false Ha'%isEmpty_false Heq. unfold jaccardIndex.
  by rewrite Ha, Ha', Heq.
Qed.

End CaseBlind.

(** X4: [calculateTextSimilarity] does not see the case of the letters,
    and of a non-empty text it sees the set of its words only, not their
    order or number; it is 0 for two texts that have no word in common. *)
Theorem similarity_sees_word_sets (a a' b : string) :
  calculateTextSimilarity (Str.toLowerCase a) (Str.toLowerCase b)
  = calculateTextSimilarity a b
  ∧ (a ≠ "" → a' ≠ "" → tokenSet a = tokenSet a' →
     calculateTextSimilarity a b = calculateTextSimilarity a' b)
  ∧ (tokenSet a ## tokenSet b → calculateTextSimilarity a b = Num.lit_0).
Proof.
  rewrite !similarity_jaccard. split_and!.
  - apply jaccard_toLowerCase.
  - apply jaccard_tokens.
  - apply jaccard_disjoint.
Qed.

Lemma similarity_sees_word_sets_witness :
  calculateTextSimilarity "to be or not to be" "be quick"
  = calculateTextSimilarity "not or be to" "be quick"
  ∧ calculateTextSimilarity "Select the capital" "loading please wait"
    = Num.lit_0.
Proof.
  split.
  - apply (proj1 (proj2 (similarity_sees_word_sets "to be or not to be"
                           "not or be to" "be quick")));
      [discriminate | discriminate |].
    vm_compute. reflexivity.
  - apply (proj2 (proj2 (similarity_sees_word_sets "Select the capital"
                           "" "loading please wait"))).
    apply (bool_decide_unpack _). vm_compute. exact I.
Defined.

(* ===================================================================== *)
(** * The requests of one analysis *)
(* ===================================================================== *)

Section ModelSupport.

Lemma validateModelSupport_None (modelName : string)
    (context : list ExternalContext) :
  validateModelSupport modelName context = None
  ↔ Str.includes modelName "1.0" = false
    ∨ Forall (λ item, isMultimodal item = false) context.
Proof.
  induction context as [| item rest IH]; cbn [validateModelSupport].
  - split; [intros _; by right | done].
  - fold (isMultimodal item).
    destruct (Str.includes modelName "1.0") eqn:Hlegacy; cbn [andb].
    + destruct (isMultimodal item) eqn:Hitem.
      * split; [done |]. intros [? | Hall]; [done |].
        apply Forall_cons in Hall as [? _]. congruence.
      * rewrite IH. split.
        -- intros [? | Hall]; [done |]. right. by constructor.
        -- intros [? | Hall]; [done |]. right.
           by apply Forall_cons in Hall as [_ ?].
    + rewrite IH. split; intros _; by left.
Qed.

Lemma validateModelSupport_Some (modelName : string)
    (context : list ExternalContext) (msg : string) :
  validateModelSupport modelName context = Some msg →
  msg = supportErrorMessage modelName.
Proof.
  induction context as [| item rest IH]; cbn [validateModelSupport];
    [done |].
  destruct (_ && _); [congruence | done].
Qed.

Lemma validateModelSupport_refuses (modelName : string)
    (context : list ExternalContext) :
  Str.includes modelName "1.0" = true →
  Exists (λ item, isMultimodal item = true) context →
  validateModelSupport modelName context
  = Some (supportErrorMessage modelName).
Proof.
  intros Hlegacy Hex.
  destruct (validateModelSupport modelName context) as [msg |] eqn:Hval.
  - by rewrite (validateModelSupport_Some _ _ _ Hval).
  - apply validateModelSupport_None in Hval as [? | Hall]; [congruence |].
    apply Exists_exists in Hex as (item & Hin & Hitem).
    rewrite Forall_forall in Hall. specialize (Hall item Hin). congruence.
Qed.

End ModelSupport.

(** X5: [validateModelSupport] passes exactly when the model name does not
    contain "1.0" or no item of the context is a video, an image or a PDF
    (by its type, or as a link by its extension); when it does not pass,
    [analyzeScreenFrame] returns the failure result with the message
    about the model at once: no request is made and nothing but the call
    is recorded. *)
Theorem legacy_model_refuses_media (modelName : string)
    (context : list ExternalContext) (onProgress : bool) (env : Env)
    (w : World) :
  (validateModelSupport modelName context = None
   ↔ Str.includes modelName "1.0" = false
     ∨ Forall (λ item, isMultimodal item = false) context)
  ∧ (Str.includes modelName "1.0" = true →
     Exists (λ item, isMultimodal item = true) context →
     analyzeScreenFrame modelName onProgress context env w
     = (failureResult (supportErrorMessage modelName),
        with_trace (λ t, t ++ [EvAnalyzeScreenFrame modelName]) w)).
Proof.
  split; [apply validateModelSupport_None |].
  intros Hlegacy Hex. unfold analyzeScreenFrame.
  rewrite (validateModelSupport_refuses _ _ Hlegacy Hex). reflexivity.
Qed.

Lemma legacy_model_refuses_media_witness :
  let context :=
    [ {| ctx_type := ctx_text; ctx_value := "Chapter 3"; ctx_name := "notes" |};
      {| ctx_type := ctx_link; ctx_value := "https://example.org/Slides.PDF";
         ctx_name := "Slides.PDF" |} ] in
  (analyzeScreenFrame "gemini-1.0-pro" false context idleEnv
     (runningWorld autoSelectSettings)).1
  = failureResult (supportErrorMessage "gemini-1.0-pro").
Proof.
  cbv zeta.
  rewrite (proj2 (legacy_model_refuses_media "gemini-1.0-pro"
                    [ {| ctx_type := ctx_text; ctx_value := "Chapter 3";
                         ctx_name := "notes" |};
                      {| ctx_type := ctx_link;
                         ctx_value := "https://example.org/Slides.PDF";
                         ctx_name := "Slides.PDF" |} ]
                    false idleEnv (runningWorld autoSelectSettings))).
  - reflexivity.
  - vm_compute. reflexivity.
  - apply Exists_cons_tl, Exists_cons_hd. vm_compute. reflexivity.
Defined.

Section AttemptLoop.

Context (env : Env) (onProgress : bool).

Lemma generateContent_trace (model : string) (probe : bool) (w : World) :
  trace (generateContent model probe env w).2
  = trace w ++ [EvGenerateContent model probe].
Proof. munfold. cbn. by destruct (stoppedDuring env _). Qed.

Lemma sleep_trace (ms : N) (w : World) :
  trace (sleep ms env w).2 = trace w ++ [EvSleep ms].
Proof. munfold. cbn. by destruct (stoppedDuring env _). Qed.

(** One turn of the loop, by what the attempt makes of its request. *)
Lemma attemptLoop_step (fuel attempt : nat) (model : string) (w : World) :
  attempt < 3 →
  ∃ w1 logs,
    Forall (λ e, isLog e = true) logs
    ∧ trace w1
      = trace w ++ logs ++ [EvGenerateContent model (S attempt =? 3)]
    ∧ nGenerate (cursors w1) = S (nGenerate (cursors w))
    ∧ attemptLoop (S fuel) onProgress attempt model env w
      = match attemptResult env model (S attempt)
                (generateContent_at env (nGenerate (cursors w))) with
        | inl r => (r, w1)
        | inr e =>
            if 3 <=? S attempt then (failureResult (errorText e), w1)
            else attemptLoop fuel onProgress (S attempt)
                   (modelAfterFailure model (S attempt)) env
                   (sleep (1000 * N.of_nat (S attempt)) env w1).2
        end.
Proof.
  intros Hlt. cbn [attemptLoop].
  assert (H1 : (attempt <? maxRetries_analyze) = true)
    by (apply Nat.ltb_lt; unfold maxRetries_analyze; lia).
  rewrite H1. change maxRetries_analyze with 3.
  rewrite run_bind, run_bind.
  set (w0 := (when onProgress _ env w).2).
  set (probe := S attempt =? 3).
  assert (Hw0 : cursors w0 = cursors w
                ∧ ∃ logs, Forall (λ e, isLog e = true) logs
                          ∧ trace w0 = trace w ++ logs).
  { subst w0. destruct onProgress.
    - split; [done |]. eexists [_]. split; [| reflexivity].
      by apply Forall_singleton.
    - split; [done |]. exists []. by rewrite app_nil_r. }
  destruct Hw0 as (Hcur & logs & Hlogs & Htr).
  destruct (generateContent_run env model probe w0) as [Hv Hn].
  pose proof (generateContent_trace model probe w0) as Ht.
  rewrite Hcur in Hv, Hn. rewrite Htr, <- app_assoc in Ht.
  set (w1 := (generateContent model probe env w0).2) in *.
  exists w1, logs. split_and!; [done | done | done |].
  rewrite Hv. unfold attemptResult. change maxRetries_analyze with 3.
  fold probe. unfold modelAfterFailure.
  destruct (generateContent_at env (nGenerate (cursors w)))
    as [e | responseText].
  - destruct (3 <=? S attempt); [reflexivity |]. by rewrite run_bind.
  - destruct (Str.trim <$> responseText) as [[| c txt'] |].
    + destruct (3 <=? S attempt); [reflexivity |]. by rewrite run_bind.
    + destruct probe; [reflexivity |].
      rewrite run_bind. cbn [JSON_parse fst snd].
      destruct (parseJSON env _) as [e | parsed]; [| reflexivity].
      destruct (3 <=? S attempt); [reflexivity |]. by rewrite run_bind.
    + destruct (3 <=? S attempt); [reflexivity |]. by rewrite run_bind.
Qed.

Lemma modelAfterFailure_1 (model : string) : modelAfterFailure model 1 = model.
Proof. unfold modelAfterFailure. by rewrite andb_false_r. Qed.

Lemma modelAfterFailure_2 (model : string) :
  modelAfterFailure model 2 = FALLBACK_MODEL.
Proof.
  unfold modelAfterFailure. cbn [Nat.leb]. rewrite andb_true_r.
  destruct (String.eqb_spec model FALLBACK_MODEL); by subst.
Qed.

(** The whole analysis, by what the three attempts make of their
    requests: the result, the events besides the progress reports, and
    the number of requests. *)
Lemma analyzeScreenFrame_cases (model : string)
    (context : list ExternalContext) (w : World) :
  validateModelSupport model context = None →
  let gen i := generateContent_at env (nGenerate (cursors w) + i) in
  let out := analyzeScreenFrame model onProgress context env w in
  ∃ evs,
    trace out.2 = trace w ++ evs
    ∧ match attemptResult env model 1 (gen 0) with
      | inl r =>
          out.1 = r
          ∧ withoutLogs evs
            = [EvAnalyzeScreenFrame model; EvGenerateContent model false]
          ∧ nGenerate (cursors out.2) = nGenerate (cursors w) + 1
      | inr _ =>
          match attemptResult env model 2 (gen 1) with
          | inl r =>
              out.1 = r
              ∧ withoutLogs evs
                = [EvAnalyzeScreenFrame model; EvGenerateContent model false;
                   EvSleep 1000; EvGenerateContent model false]
              ∧ nGenerate (cursors out.2) = nGenerate (cursors w) + 2
          | inr _ =>
              out.1 = match attemptResult env FALLBACK_MODEL 3 (gen 2) with
                      | inl r => r
                      | inr e => failureResult (errorText e)
                      end
              ∧ withoutLogs evs
                = [EvAnalyzeScreenFrame model; EvGenerateContent model false;
                   EvSleep 1000; EvGenerateContent model false;
                   EvSleep 2000; EvGenerateContent FALLBACK_MODEL true]
              ∧ nGenerate (cursors out.2) = nGenerate (cursors w) + 3
          end
      end.
Proof.
  intros Hval gen out. subst out gen. cbv beta.
  unfold analyzeScreenFrame. rewrite run_bind, Hval.
  set (w0 := (emit _ env w).2).
  assert (Hw0 : nGenerate (cursors w0) = nGenerate (cursors w)
                ∧ trace w0 = trace w ++ [EvAnalyzeScreenFrame model])
    by done.
  destruct Hw0 as [Hn0 Ht0].
  change (attemptLoop maxRetries_analyze) with (attemptLoop 3).
  assert (Hlogs : ∀ logs, Forall (λ e, isLog e = true) logs →
                          withoutLogs logs = []).
  { intros logs. unfold withoutLogs.
    induction 1 as [| e l He _ IH]; [done |]. simpl. by rewrite He. }
  assert (Happ : ∀ a b, withoutLogs (a ++ b) = withoutLogs a ++ withoutLogs b)
    by (intros; apply List.filter_app).
  destruct (attemptLoop_step 2 0 model w0 ltac:(lia))
    as (w1 & logs1 & Hl1 & Ht1 & Hn1 & ->).
  rewrite Hn0, Nat.add_0_r. rewrite Hn0 in Hn1. rewrite Ht0 in Ht1.
  destruct (attemptResult env model 1 _) as [r | e1].
  { eexists. cbn [fst snd]. split; [by rewrite Ht1, <- app_assoc |].
    split_and!; [done | | lia].
    rewrite !Happ, (Hlogs logs1) by done. reflexivity. }
  cbn [Nat.leb]. rewrite modelAfterFailure_1.
  set (w1' := (sleep _ env w1).2).
  assert (Hw1' : nGenerate (cursors w1') = S (nGenerate (cursors w))
                 ∧ trace w1' = trace w1 ++ [EvSleep 1000]).
  { subst w1'. by rewrite sleep_nGenerate, sleep_trace. }
  destruct Hw1' as [Hn1' Ht1'].
  destruct (attemptLoop_step 1 1 model w1' ltac:(lia))
    as (w2 & logs2 & Hl2 & Ht2 & Hn2 & ->).
  rewrite Hn1' in *. replace (S (nGenerate (cursors w)))
    with (nGenerate (cursors w) + 1) by lia.
  destruct (attemptResult env model 2 _) as [r | e2].
  { eexists. cbn [fst snd]. split.
    - by rewrite Ht2, Ht1', Ht1, <- !app_assoc.
    - split_and!; [done | | lia].
      rewrite !Happ, (Hlogs logs1), (Hlogs logs2) by done. reflexivity. }
  cbn [Nat.leb]. rewrite modelAfterFailure_2.
  set (w2' := (sleep _ env w2).2).
  assert (Hw2' : nGenerate (cursors w2') = S (S (nGenerate (cursors w)))
                 ∧ trace w2' = trace w2 ++ [EvSleep 2000]).
  { subst w2'. rewrite sleep_nGenerate, sleep_trace. split; [lia | done]. }
  destruct Hw2' as [Hn2' Ht2'].
  destruct (attemptLoop_step 0 2 FALLBACK_MODEL w2' ltac:(lia))
    as (w3 & logs3 & Hl3 & Ht3 & Hn3 & ->).
  rewrite Hn2' in *. replace (S (S (nGenerate (cursors w))))
    with (nGenerate (cursors w) + 2) by lia.
  eexists.
  split.
  - destruct (attemptResult env FALLBACK_MODEL 3 _); cbn [Nat.leb fst snd];
      by rewrite Ht3, Ht2', Ht2, Ht1', Ht1, <- !app_assoc.
  - destruct (attemptResult env FALLBACK_MODEL 3 _); cbn [Nat.leb fst snd];
      (split_and!; [done | | lia]);
      rewrite !Happ, (Hlogs logs1), (Hlogs logs2), (Hlogs logs3) by done;
      reflexivity.
Qed.

(** A schema attempt fails exactly when its [catch] gets an error. *)
Lemma schemaAttemptFails_caught (model : string) (attempt : nat)
    (out : GenOutcome) :
  attempt ≠ 3 →
  schemaAttemptFails env out = true
  ↔ ∃ e, attemptResult env model attempt out = inr e.
Proof.
  intros Hne. unfold schemaAttemptFails, attemptResult.
  change maxRetries_analyze with 3.
  replace (attempt =? 3) with false by (symmetry; by apply Nat.eqb_neq).
  destruct out as [e | responseText]; [split; eauto |].
  destruct (Str.trim <$> responseText) as [[| c txt'] |];
    [split; eauto | | split; eauto].
  destruct (parseJSON env _); split; eauto; try done.
  by intros [? ?].
Qed.

Lemma attemptResult_attempts (model : string) (attempt : nat)
    (out : GenOutcome) (r : AnalysisResult) :
  attemptResult env model attempt out = inl r →
  attempts r = Some attempt ∧ modelUsed r = Some model.
Proof.
  unfold attemptResult. destruct out as [e | responseText]; [done |].
  destruct (Str.trim <$> responseText) as [[| c txt'] |]; [done | | done].
  destruct (attempt =? maxRetries_analyze); [by intros [= <-] |].
  destruct (parseJSON env _) as [e | parsed]; [done |]. intros [= <-].
  unfold parsedResult.
  by destruct (p_hasQuestion parsed), (p_questions parsed) as [[| ? ?] |].
Qed.

End AttemptLoop.

Section RequestCounts.

Lemma count_withoutLogs (p : Event → bool) (evs : list Event) :
  (∀ e, isLog e = true → p e = false) →
  count p (withoutLogs evs) = count p evs.
Proof.
  intros Hp. unfold count, withoutLogs.
  induction evs as [| e evs IH]; [done |]. simpl.
  destruct (isLog e) eqn:He; simpl.
  - by rewrite (Hp e He).
  - destruct (p e); simpl; by rewrite IH.
Qed.

Lemma isGenerate_no_log (e : Event) : isLog e = true → isGenerate e = false.
Proof. by destruct e. Qed.

Lemma isSleep_no_log (e : Event) : isLog e = true → isSleep e = false.
Proof. by destruct e. Qed.

End RequestCounts.

(** The requests and waits of one analysis. *)
Lemma analyzeScreenFrame_calls (env : Env) (model : string)
    (onProgress : bool) (context : list ExternalContext) (w : World) :
  let out := analyzeScreenFrame model onProgress context env w in
  ∃ calls,
    calls ≤ 3
    ∧ (calls = 0 ↔ validateModelSupport model context ≠ None)
    ∧ count isGenerate (trace out.2) = count isGenerate (trace w) + calls
    ∧ nGenerate (cursors out.2) = nGenerate (cursors w) + calls
    ∧ count isSleep (trace out.2) = count isSleep (trace w) + (calls - 1)
    ∧ (∀ a, attempts out.1 = Some a → a = calls).
Proof.
  intros out.
  destruct (validateModelSupport model context) as [msg |] eqn:Hval.
  - exists 0. subst out. unfold analyzeScreenFrame. rewrite run_bind, Hval.
    munfold. cbn [fst snd with_trace trace cursors].
    rewrite !count_snoc. cbn [isGenerate isSleep attempts failureResult].
    split_and!; [lia | done | lia | lia | lia | done].
  - destruct (analyzeScreenFrame_cases env onProgress model context w Hval)
      as (evs & Htr & Hcases).
    fold out in Htr, Hcases. rewrite Htr, !count_app.
    rewrite <- (count_withoutLogs isGenerate evs) by apply isGenerate_no_log.
    rewrite <- (count_withoutLogs isSleep evs) by apply isSleep_no_log.
    destruct (attemptResult env model 1 _) as [r1 | e1] eqn:H1.
    { destruct Hcases as (-> & -> & Hn). exists 1.
      apply attemptResult_attempts in H1 as [Ha _]. rewrite Ha.
      split_and!; [lia | split; [lia | done] | done | done | done |].
      by intros a [= <-]. }
    destruct (attemptResult env model 2 _) as [r2 | e2] eqn:H2.
    { destruct Hcases as (-> & -> & Hn). exists 2.
      apply attemptResult_attempts in H2 as [Ha _]. rewrite Ha.
      split_and!; [lia | split; [lia | done] | done | done | done |].
      by intros a [= <-]. }
    destruct Hcases as (-> & -> & Hn). exists 3.
    split_and!; [lia | split; [lia | done] | done | done | done |].
    destruct (attemptResult env FALLBACK_MODEL 3 _) as [r3 | e3] eqn:H3;
      [| done].
    apply attemptResult_attempts in H3 as [Ha _]. rewrite Ha.
    by intros a [= <-].
Qed.

(** X6: one call of [analyzeScreenFrame] makes at most 3 requests, and
    none exactly when the model does not support the context; between two
    requests it waits once, so that it waits one time less than it
    requests; and a result that carries a number of attempts carries the
    number of requests that were made. *)
Theorem analyzeScreenFrame_request_budget (env : Env) (model : string)
    (onProgress : bool) (context : list ExternalContext) (w : World) :
  let out := analyzeScreenFrame model onProgress context env w in
  ∃ calls,
    calls ≤ 3
    ∧ (calls = 0 ↔ validateModelSupport model context ≠ None)
    ∧ count isGenerate (trace out.2) = count isGenerate (trace w) + calls
    ∧ nGenerate (cursors out.2) = nGenerate (cursors w) + calls
    ∧ count isSleep (trace out.2) = count isSleep (trace w) + (calls - 1)
    ∧ (∀ a, attempts out.1 = Some a → a = calls).
Proof. apply analyzeScreenFrame_calls. Qed.

(** X7: when the first two attempts of an analysis fail, the requests go
    to the configured model, to the configured model again after a wait
    of 1000 ms, and after a wait of 2000 ms to the fallback model as a
    transcription probe; the result is the probe result of the fallback
    model when the third response has a text, and else the failure result
    with the text of the third error. *)
Theorem analyzeScreenFrame_fallback_protocol (env : Env) (model : string)
    (onProgress : bool) (context : list ExternalContext) (w : World) :
  let gen i := generateContent_at env (nGenerate (cursors w) + i) in
  let out := analyzeScreenFrame model onProgress context env w in
  validateModelSupport model context = None →
  schemaAttemptFails env (gen 0) = true →
  schemaAttemptFails env (gen 1) = true →
  (∃ evs,
     trace out.2 = trace w ++ evs
     ∧ withoutLogs evs
       = [EvAnalyzeScreenFrame model; EvGenerateContent model false;
          EvSleep 1000; EvGenerateContent model false;
          EvSleep 2000; EvGenerateContent FALLBACK_MODEL true])
  ∧ out.1 = match gen 2 with
            | GenThrows e => failureResult (errorText e)
            | GenResolves responseText =>
                match Str.trim <$> responseText with
                | Some (String c txt') =>
                    probeResult (String c txt') FALLBACK_MODEL 3
                | _ => failureResult "Empty response"
                end
            end.
Proof.
  intros gen out Hval H0 H1. subst gen. cbv beta in *.
  destruct (analyzeScreenFrame_cases env onProgress model context w Hval)
    as (evs & Htr & Hcases).
  fold out in Htr, Hcases. cbv beta in Hcases.
  assert (Hne1 : 1 ≠ 3) by lia. assert (Hne2 : 2 ≠ 3) by lia.
  destruct (proj1 (schemaAttemptFails_caught env model 1 _ Hne1) H0)
    as [e0 H0'].
  destruct (proj1 (schemaAttemptFails_caught env model 2 _ Hne2) H1)
    as [e1 H1'].
  rewrite Nat.add_0_r in Hcases. rewrite Nat.add_0_r in H0'.
  rewrite H0', H1' in Hcases. destruct Hcases as (Hres & Hevs & _).
  split; [by exists evs |].
  rewrite Hres. unfold attemptResult.
  destruct (generateContent_at env (nGenerate (cursors w) + 2))
    as [e | responseText]; [done |].
  by destruct (Str.trim <$> responseText) as [[| c txt'] |].
Qed.

Lemma analyzeScreenFrame_fallback_protocol_witness :
  let w := runningWorld autoSelectSettings in
  let probed := analyzeScreenFrame "gemini-3-pro-preview" false [] probeEnv w in
  let refused := analyzeScreenFrame "gemini-3-pro-preview" false [] quotaEnv w in
  probed.1
  = probeResult "What is the capital of France? A) Lyon B) Paris"
      "gemini-flash-lite-latest" 3
  ∧ refused.1 = failureResult "429 RESOURCE_EXHAUSTED: Quota exceeded".
Proof.
  split.
  - exact (proj2 (analyzeScreenFrame_fallback_protocol probeEnv
                    "gemini-3-pro-preview" false []
                    (runningWorld autoSelectSettings)
                    eq_refl eq_refl eq_refl)).
  - exact (proj2 (analyzeScreenFrame_fallback_protocol quotaEnv
                    "gemini-3-pro-preview" false []
                    (runningWorld autoSelectSettings)
                    eq_refl eq_refl eq_refl)).
Defined.

(** X8: the result of an analysis either is a failure result, without a
    model, or names the model and the attempt that produced it: the
    configured model for the attempts 1 and 2, the fallback model for
    attempt 3. *)
Theorem analysis_result_provenance (env : Env) (model : string)
    (onProgress : bool) (context : list ExternalContext) (w : World) :
  let r := (analyzeScreenFrame model onProgress context env w).1 in
  (∃ msg, r = failureResult msg)
  ∨ (∃ a, 1 ≤ a ≤ 3
          ∧ attempts r = Some a
          ∧ modelUsed r = Some (if a <? 3 then model else FALLBACK_MODEL)).
Proof.
  intros r.
  destruct (validateModelSupport model context) as [msg |] eqn:Hval.
  - left. exists msg. subst r. unfold analyzeScreenFrame.
    by rewrite run_bind, Hval.
  - destruct (analyzeScreenFrame_cases env onProgress model context w Hval)
      as (evs & _ & Hcases).
    fold r in Hcases.
    destruct (attemptResult env model 1 _) as [r1 | e1] eqn:H1.
    { destruct Hcases as (-> & _). right. exists 1.
      apply attemptResult_attempts in H1 as [Ha Hm].
      split_and!; [lia | lia | done | done]. }
    destruct (attemptResult env model 2 _) as [r2 | e2] eqn:H2.
    { destruct Hcases as (-> & _). right. exists 2.
      apply attemptResult_attempts in H2 as [Ha Hm].
      split_and!; [lia | lia | done | done]. }
    destruct Hcases as (-> & _).
    destruct (attemptResult env FALLBACK_MODEL 3 _) as [r3 | e3] eqn:H3.
    + right. exists 3. apply attemptResult_attempts in H3 as [Ha Hm].
      split_and!; [lia | lia | done | done].
    + left. by eexists.
Qed.

(* ===================================================================== *)
(** * More on performAnalysis *)
(* ===================================================================== *)

Section MoreFrames.

#[global] Instance SameCounter_preorder : PreOrder SameCounter.
Proof.
  split; [by intros w |].
  intros w1 w2 w3 H1 H2. unfold SameCounter in *. congruence.
Qed.

#[global] Instance SameShot_preorder : PreOrder SameShot.
Proof.
  split; [by intros w |].
  intros w1 w2 w3 H1 H2. unfold SameShot in *. congruence.
Qed.

#[global] Instance SameBusy_preorder : PreOrder SameBusy.
Proof.
  split; [by intros w |].
  intros w1 w2 w3 H1 H2. unfold SameBusy in *. congruence.
Qed.

Lemma Emits_impl (ok ok' : Event → Prop) (w w' : World) :
  (∀ e, ok e → ok' e) → Emits ok w w' → Emits ok' w w'.
Proof.
  intros Himpl (evs & Htr & Hevs). exists evs. split; [done |].
  eapply Forall_impl; [exact Hevs | exact Himpl].
Qed.

Lemma Emits_count_impl (ok : Event → Prop) (p : Event → bool)
    (w w' : World) :
  (∀ e, ok e → p e = false) → Emits ok w w' →
  count p (trace w') = count p (trace w).
Proof.
  intros Himpl Hem. apply Emits_count. by apply (Emits_impl ok).
Qed.

End MoreFrames.

Section AnalysisSteps.

Context (env : Env) (settings : AppSettings) (img : Frame).
Context (shouldFlash : bool).

(** What [beginAnalysis] does before it calls the analyzer: one OCR call,
    no request. *)
Lemma beginAnalysis_prefix (w : World) :
  ∃ w0 evs,
    beginAnalysis settings img shouldFlash env w
    = analyzeScreenFrame (modelName settings) (debugMode settings)
        (externalContext settings) env w0
    ∧ trace w0 = trace w ++ evs
    ∧ nGenerate (cursors w0) = nGenerate (cursors w)
    ∧ count isDetect evs = 1
    ∧ count isGenerate evs = 0
    ∧ count isSleep evs = 0
    ∧ count isAnalyze evs = 0.
Proof.
  unfold beginAnalysis. rewrite !run_bind.
  destruct (negb (simplifiedMode settings) && shouldFlash),
    (debugMode settings);
    (eexists _, _; split; [reflexivity |]);
    munfold; cbn; destruct (stoppedDuring env _); cbn;
    rewrite <- ?app_assoc; (split; [reflexivity | by split_and!]).
Qed.

End AnalysisSteps.

Section AnalysisFacts.

Context (env : Env) (settings : AppSettings) (img : Frame).
Context (shouldFlash : bool).

(** The events of the analysis call and of what comes before it. *)
Lemma beginAnalysis_events (w : World) :
  let w1 := (beginAnalysis settings img shouldFlash env w).2 in
  count isDetect (trace w1) = count isDetect (trace w) + 1
  ∧ count isGenerate (trace w1) ≤ count isGenerate (trace w) + 3.
Proof.
  destruct (beginAnalysis_prefix env settings img shouldFlash w)
    as (w0 & evs & -> & Htr & _ & Hd & Hg & _).
  destruct (analyzeScreenFrame_calls env (modelName settings)
              (debugMode settings) (externalContext settings) w0)
    as (calls & Hle & _ & Hgen & _).
  cbv zeta. split.
  - transitivity (count isDetect (trace w0)).
    + apply Emits_count.
      apply (Keeps_analyzeScreenFrame (λ _, Emits _)
               (λ e, isDetect e = false)); frame_side.
    + rewrite Htr, count_app. lia.
  - rewrite Hgen, Htr, count_app. lia.
Qed.

(** What comes after the analysis call makes no OCR call, no request and
    no analysis. *)
Lemma handleResult_quiet (result : AnalysisResult) (w : World) :
  Emits (λ e, isDetect e = false ∧ isGenerate e = false
              ∧ isAnalyze e = false)
    w (handleResult settings img result env w).2.
Proof.
  apply (Keeps_handleResult (λ _, Emits _)
           (λ e, isDetect e = false ∧ isGenerate e = false
                 ∧ isAnalyze e = false)); frame_side.
Qed.

Lemma autoSelectArm_off (result : AnalysisResult) :
  autoSelect settings = false → autoSelectArm settings result = ret tt.
Proof.
  intros Hoff. unfold autoSelectArm. rewrite Hoff.
  by destruct (options result).
Qed.

End AnalysisFacts.

(** X9: without an API key ([undefined] or the empty string)
    [performAnalysis] opens the key dialog and logs the error, and that is
    all: no OCR call, no request, and the busy flag and the other cells
    are left as they were. *)
Theorem performAnalysis_without_key (env : Env) (settings : AppSettings)
    (img : Frame) (shouldFlash : bool) (w : World) :
  truthy (apiKey settings) = false →
  let w' := (performAnalysis settings img shouldFlash env w).2 in
  showApiKeyModal (react w') = true
  ∧ trace w' = trace w ++ [EvLog error_ MsgApiKeyMissing]
  ∧ refs w' = refs w
  ∧ cursors w' = cursors w
  ∧ settingsState (react w') = settingsState (react w)
  ∧ lastResult (react w') = lastResult (react w).
Proof.
  intros Hkey w'. subst w'. unfold performAnalysis. rewrite Hkey.
  cbn [negb]. munfold. cbn. by split_and!.
Qed.

Lemma performAnalysis_without_key_witness :
  let w := runningWorld DEFAULT_SETTINGS in
  let w' := (performAnalysis DEFAULT_SETTINGS sampleFrame true idleEnv w).2 in
  showApiKeyModal (react w') = true
  ∧ trace w' = [EvLog error_ MsgApiKeyMissing]
  ∧ refs w' = refs w.
Proof.
  pose proof (performAnalysis_without_key idleEnv DEFAULT_SETTINGS
                sampleFrame true (runningWorld DEFAULT_SETTINGS) eq_refl)
    as (Hmodal & Htr & Hrefs & _).
  split_and!; [exact Hmodal | exact Htr | exact Hrefs].
Defined.

Lemma reportResult_shot (env : Env) (settings : AppSettings) (img : Frame)
    (result : AnalysisResult) (w : World) :
  lastScreenshotRef (refs (reportResult settings img result env w).2)
  = if negb (truthy (error result)) && hasQuestion result
    then Some img else lastScreenshotRef (refs w).
Proof.
  unfold reportResult. destruct (truthy (error result)).
  - cbn [negb andb]. rewrite run_bind.
    by destruct (isQuotaError _).
  - cbn [negb andb]. destruct (hasQuestion result).
    + rewrite !run_bind.
      set (w1 := (modify _ env _).2).
      transitivity (lastScreenshotRef (refs w1)); [| reflexivity].
      apply (Keeps_speakAnswerOf (λ _, SameShot) (λ _, True)); frame_side.
    + by destruct (debugMode settings).
Qed.

(** The end of an analysis that has a key. *)
Lemma performAnalysis_end (env : Env) (settings : AppSettings)
    (img : Frame) (shouldFlash : bool) (w : World) :
  truthy (apiKey settings) = true →
  let result := (beginAnalysis settings img shouldFlash env w).1 in
  let w' := (performAnalysis settings img shouldFlash env w).2 in
  processingRef (refs w') = false
  ∧ lastResult (react w') = Some result
  ∧ last (trace w') = Some (EvLog info MsgComplete)
  ∧ count isAnalyze (trace w') = count isAnalyze (trace w) + 1
  ∧ count isDetect (trace w') = count isDetect (trace w) + 1
  ∧ count isGenerate (trace w') ≤ count isGenerate (trace w) + 3
  ∧ lastScreenshotRef (refs w')
    = if negb (truthy (error result)) && hasQuestion result
      then Some img else lastScreenshotRef (refs w).
Proof.
  intros Hkey result w'. subst w'.
  rewrite performAnalysis_run by done. cbv zeta.
  destruct (beginAnalysis_counts env settings img shouldFlash w) as [_ Ha].
  destruct (beginAnalysis_events env settings img shouldFlash w) as [Hd Hg].
  set (out := beginAnalysis settings img shouldFlash env w) in *.
  fold result.
  pose proof (handleResult_quiet env settings img result out.2) as Hquiet.
  rewrite handleResult_run in Hquiet |- *. cbv zeta in Hquiet |- *.
  set (w1 := (reportResult settings img result env out.2).2) in *.
  set (w2 := with_react (set_lastResult (Some result)) w1) in *.
  assert (H2 : SameReact w2 (autoSelectArm settings result env w2).2).
  { apply (Keeps_autoSelectArm (λ _, SameReact) (λ _, True)); frame_side. }
  change (react (with_trace ?f ?x)) with (react x).
  change (trace (with_trace ?f ?x)) with (f (trace x)). cbv beta.
  change (react (with_refs ?f ?x)) with (react x).
  change (trace (with_refs ?f ?x)) with (trace x).
  rewrite H2, last_snoc, !count_snoc. cbn [isAnalyze isDetect isGenerate].
  assert (HA : count isAnalyze (trace (autoSelectArm settings result env w2).2)
               = count isAnalyze (trace out.2))
    by (eapply Emits_count_impl; [| exact Hquiet]; by intros ? (? & ? & ?)).
  assert (HD : count isDetect (trace (autoSelectArm settings result env w2).2)
               = count isDetect (trace out.2))
    by (eapply Emits_count_impl; [| exact Hquiet]; by intros ? (? & ? & ?)).
  assert (HG : count isGenerate (trace (autoSelectArm settings result env w2).2)
               = count isGenerate (trace out.2))
    by (eapply Emits_count_impl; [| exact Hquiet]; by intros ? (? & ? & ?)).
  rewrite HA, HD, HG.
  split_and!; [done | done | done | lia | lia | lia |].
  change (refs (with_trace ?f ?x)) with (refs x).
  change (refs (with_refs ?f ?x)) with (f (refs x)). cbv beta.
  cbn [set_processingRef lastScreenshotRef].
  assert (H3 : SameShot w2 (autoSelectArm settings result env w2).2).
  { apply (Keeps_autoSelectArm (λ _, SameShot) (λ _, True)); frame_side. }
  assert (H0 : SameShot w out.2).
  { apply (Keeps_beginAnalysis (λ _, SameShot) (λ _, True)); frame_side. }
  rewrite H3. subst w2. cbn [refs with_react].
  subst w1. rewrite reportResult_shot. by rewrite H0.
Qed.

(** X10: with an API key [performAnalysis] always runs to its end,
    whatever the collaborators answer: it makes one OCR call and one
    analysis with at most 3 requests, stores the result of the analysis as
    the last result, takes the frame as the reference frame exactly when
    the result has a question and no error, and ends with the busy flag
    down and the entry that the analysis is complete. *)
Theorem performAnalysis_completes (env : Env) (settings : AppSettings)
    (img : Frame) (shouldFlash : bool) (w : World) :
  truthy (apiKey settings) = true →
  let result := (beginAnalysis settings img shouldFlash env w).1 in
  let w' := (performAnalysis settings img shouldFlash env w).2 in
  processingRef (refs w') = false
  ∧ lastResult (react w') = Some result
  ∧ last (trace w') = Some (EvLog info MsgComplete)
  ∧ count isAnalyze (trace w') = count isAnalyze (trace w) + 1
  ∧ count isDetect (trace w') = count isDetect (trace w) + 1
  ∧ count isGenerate (trace w') ≤ count isGenerate (trace w) + 3
  ∧ lastScreenshotRef (refs w')
    = if negb (truthy (error result)) && hasQuestion result
      then Some img else lastScreenshotRef (refs w).
Proof. apply performAnalysis_end. Qed.

Lemma performAnalysis_completes_witness :
  let w := runningWorld autoSelectSettings in
  let w' := (performAnalysis autoSelectSettings sampleFrame true quotaEnv w).2 in
  processingRef (refs w') = false
  ∧ lastResult (react w')
    = Some (failureResult "429 RESOURCE_EXHAUSTED: Quota exceeded")
  ∧ count isAnalyze (trace w') = 1.
Proof.
  pose proof (performAnalysis_completes quotaEnv autoSelectSettings
                sampleFrame true (runningWorld autoSelectSettings) eq_refl)
    as (Hbusy & Hres & _ & Ha & _).
  split_and!; [exact Hbusy | exact Hres | exact Ha].
Defined.

(** X11: with auto-select off [performAnalysis] only looks: it posts no
    action sequence, makes no verification call and captures no frame,
    whatever the analysis returns. *)
Theorem performAnalysis_autoSelect_off (env : Env) (settings : AppSettings)
    (img : Frame) (shouldFlash : bool) (w : World) :
  autoSelect settings = false →
  let w' := (performAnalysis settings img shouldFlash env w).2 in
  count isPost (trace w') = count isPost (trace w)
  ∧ count isVerify (trace w') = count isVerify (trace w)
  ∧ count isCapture (trace w') = count isCapture (trace w).
Proof.
  intros Hoff w'.
  assert (Hem : Emits (λ e, isPost e = false ∧ isVerify e = false
                            ∧ isCapture e = false) w w').
  { subst w'. unfold performAnalysis.
    destruct (negb (truthy (apiKey settings))).
    - munfold. cbn. eexists [_]. split; [reflexivity |].
      by apply Forall_singleton.
    - rewrite !run_bind. unfold handleResult. rewrite !run_bind.
      rewrite autoSelectArm_off by done.
      set (out := beginAnalysis settings img shouldFlash env w).
      munfold. cbn [fst snd].
      transitivity out.2.
      { apply (Keeps_beginAnalysis (λ _, Emits _)
                 (λ e, isPost e = false ∧ isVerify e = false
                       ∧ isCapture e = false)); frame_side. }
      transitivity (reportResult settings img out.1 env out.2).2.
      { apply (Keeps_reportResult (λ _, Emits _)
                 (λ e, isPost e = false ∧ isVerify e = false
                       ∧ isCapture e = false)); frame_side. }
      eexists [_]. split; [reflexivity |]. by apply Forall_singleton. }
  split_and!;
    (eapply Emits_count_impl; [| exact Hem]; by intros ? (? & ? & ?)).
Qed.

Lemma performAnalysis_autoSelect_off_witness :
  let w' := (performAnalysis lookOnlySettings sampleFrame true
               (answeringEnv Num.lit_0_9) (runningWorld lookOnlySettings)).2 in
  count isPost (trace w') = 0 ∧ count isVerify (trace w') = 0.
Proof.
  pose proof (performAnalysis_autoSelect_off (answeringEnv Num.lit_0_9)
                lookOnlySettings sampleFrame true
                (runningWorld lookOnlySettings) eq_refl) as (Hp & Hv & _).
  split; [exact Hp | exact Hv].
Defined.

Section SettingsKept.

Context (env : Env) (settings : AppSettings) (img : Frame).

Lemma reportResult_settings (result : AnalysisResult) (w : World) :
  (∀ err, error result = Some err → isQuotaError err = false) →
  settingsState (react (reportResult settings img result env w).2)
  = settingsState (react w).
Proof.
  intros Hquota. unfold reportResult.
  destruct (truthy (error result)) eqn:Herr.
  - destruct (error result) as [err |]; [| done].
    change (default "" (Some err)) with err.
    rewrite (Hquota err eq_refl). reflexivity.
  - destruct (hasQuestion result).
    + rewrite !run_bind.
      set (w1 := (modify _ env _).2).
      transitivity (settingsState (react w1)); [| reflexivity].
      f_equal.
      apply (Keeps_speakAnswerOf (λ _, SameReact) (λ _, True)); frame_side.
    + by destruct (debugMode settings).
Qed.

End SettingsKept.

(** X12: [performAnalysis] writes the settings in one case only, the
    quota error: when the result of the analysis carries no error that
    mentions "Quota" or "429", the settings, and with them the master
    switch of the automation, are after the analysis what they were
    before it. *)
Theorem only_quota_errors_write_settings (env : Env) (settings : AppSettings)
    (img : Frame) (shouldFlash : bool) (w : World) :
  let result := (beginAnalysis settings img shouldFlash env w).1 in
  let w' := (performAnalysis settings img shouldFlash env w).2 in
  (∀ err, error result = Some err → isQuotaError err = false) →
  settingsState (react w') = settingsState (react w).
Proof.
  intros result w' Hquota. subst w'.
  destruct (truthy (apiKey settings)) eqn:Hkey.
  - rewrite performAnalysis_run by done. cbv zeta.
    rewrite handleResult_run. cbv zeta.
    set (out := beginAnalysis settings img shouldFlash env w) in *.
    set (w1 := (reportResult settings img out.1 env out.2).2).
    set (w2 := with_react (set_lastResult (Some out.1)) w1).
    assert (H2 : SameReact w2 (autoSelectArm settings out.1 env w2).2).
    { apply (Keeps_autoSelectArm (λ _, SameReact) (λ _, True)); frame_side. }
    assert (H0 : SameReact w out.2).
    { apply (Keeps_beginAnalysis (λ _, SameReact) (λ _, True)); frame_side. }
    change (react (with_trace ?f ?x)) with (react x).
    change (react (with_refs ?f ?x)) with (react x).
    rewrite H2. subst w2 w1. cbn [react with_react set_lastResult settingsState].
    rewrite reportResult_settings by done. by rewrite H0.
  - unfold performAnalysis. rewrite Hkey. reflexivity.
Qed.

Lemma only_quota_errors_write_settings_witness :
  let w := runningWorld autoSelectSettings in
  let w' := (performAnalysis autoSelectSettings sampleFrame true idleEnv w).2 in
  automationEnabled (settingsState (react w')) = true.
Proof.
  cbv zeta.
  rewrite (only_quota_errors_write_settings idleEnv autoSelectSettings
             sampleFrame true (runningWorld autoSelectSettings)).
  - reflexivity.
  - intros err [= <-]. reflexivity.
Defined.

(* ===================================================================== *)
(** * The calls of one tick *)
(* ===================================================================== *)

Ltac budget := unfold leBudget; cbn; lia.

Section Budgets.

Lemma Within_refl (w : World) : Within noCalls w w.
Proof. unfold Within. cbn. split_and!; lia. Qed.

Lemma Within_trans (a b : Budget) (w1 w2 w3 : World) :
  Within a w1 w2 → Within b w2 w3 → Within (addBudget a b) w1 w3.
Proof. unfold Within. cbn. intros ? ?. split_and!; lia. Qed.

Lemma Within_weaken (a b : Budget) (w w' : World) :
  leBudget a b → Within a w w' → Within b w w'.
Proof. unfold Within, leBudget. intros ? ?. split_and!; lia. Qed.

Lemma Within_quiet (w w' : World) :
  Emits (λ e, isCounted e = false) w w' → Within noCalls w w'.
Proof.
  intros Hem. unfold Within. cbn [noCalls checks analyses requests dispatches
                                    verifications timers].
  rewrite !Nat.add_0_r.
  split_and!; apply Nat.eq_le_incl;
    (eapply Emits_count_impl; [| exact Hem]); intros e;
    unfold isCounted; destruct e; done.
Qed.

Lemma Spends_ret {A} (a : A) : Spends noCalls (ret a).
Proof. intros env w. apply Within_refl. Qed.

Lemma Spends_bind {A B} (a b c : Budget) (m : M A) (k : A → M B) :
  leBudget (addBudget a b) c →
  Spends a m → (∀ x, Spends b (k x)) → Spends c (m ≫= k).
Proof.
  intros Hle Hm Hk env w. rewrite run_bind.
  eapply Within_weaken; [exact Hle |].
  eapply Within_trans; [apply Hm | apply Hk].
Qed.

Lemma Spends_weaken {A} (a b : Budget) (m : M A) :
  leBudget a b → Spends a m → Spends b m.
Proof. intros Hle Hm env w. eapply Within_weaken; [exact Hle | apply Hm]. Qed.

Lemma Spends_quiet {A} (m : M A) :
  Keeps (λ _, Emits (λ e, isCounted e = false)) m → Spends noCalls m.
Proof. intros Hm env w. apply Within_quiet, Hm. Qed.

(** Stretches that make no call of a budgeted kind. *)
Lemma Quiet_bind {A B} (m : M A) (k : A → M B) :
  Keeps (λ _, Emits (λ e, isCounted e = false)) m →
  (∀ a, Keeps (λ _, Emits (λ e, isCounted e = false)) (k a)) →
  Keeps (λ _, Emits (λ e, isCounted e = false)) (m ≫= k).
Proof. apply Keeps_bind. exact _. Qed.

Lemma Quiet_modify (f : World → World) :
  (∀ w, trace (f w) = trace w) →
  Keeps (λ _, Emits (λ e, isCounted e = false)) (modify f).
Proof. intros Hf. apply Keeps_modify. intros. by apply Emits_same. Qed.

Lemma Quiet_addLog (msg : LogMessage) (ty : LogType) :
  Keeps (λ _, Emits (λ e, isCounted e = false)) (addLog msg ty).
Proof.
  apply (Keeps_addLog (λ _, Emits _) (λ e, isCounted e = false));
    frame_side.
Qed.

Lemma Quiet_ret {A} (a : A) :
  Keeps (λ _, Emits (λ e, isCounted e = false)) (ret a).
Proof. apply Keeps_ret. exact _. Qed.

Lemma Spends_quiet_then {A B} (b : Budget) (m : M A) (k : A → M B) :
  Keeps (λ _, Emits (λ e, isCounted e = false)) m →
  (∀ x, Spends b (k x)) → Spends b (m ≫= k).
Proof.
  intros Hm Hk. eapply (Spends_bind noCalls b);
    [budget | by apply Spends_quiet | done].
Qed.

Lemma Spends_then_quiet {A B} (b : Budget) (m : M A) (k : A → M B) :
  Spends b m →
  (∀ x, Keeps (λ _, Emits (λ e, isCounted e = false)) (k x)) →
  Spends b (m ≫= k).
Proof.
  intros Hm Hk. eapply (Spends_bind b noCalls);
    [budget | done | intros x; by apply Spends_quiet].
Qed.

End Budgets.

Section TickBudget.

Context (settings : AppSettings).

Lemma handleAutoPilot_bounds (env : Env) (opt : QuestionOption)
    (nextButtonBox : option BoundingBox) (clickNext : bool) (w : World) :
  let w' := (handleAutoPilot opt nextButtonBox clickNext env w).2 in
  count isPost (trace w') ≤ count isPost (trace w) + 6
  ∧ count isVerify (trace w') ≤ count isVerify (trace w) + 5.
Proof.
  intros w'. subst w'. rewrite handleAutoPilot_run. cbv zeta.
  set (w0 := with_trace _ w).
  assert (Hw0 : count isPost (trace w0) = count isPost (trace w)
                ∧ count isVerify (trace w0) = count isVerify (trace w)).
  { subst w0. cbn -[count]. rewrite !count_snoc. cbn. lia. }
  destruct Hw0 as (Hp0 & Hv0).
  destruct (autoPilotLoop_bounds env opt maxRetries_autoPilot 0 false w0)
    as (p & v & Hp & Hv & Hle).
  destruct (autoPilotLoop _ _ _ _ _ _) as [verified w1]. cbn [fst snd] in *.
  destruct verified, clickNext; cbn [andb negb];
    cbn -[count]; rewrite ?count_snoc; cbn [isPost isVerify];
    rewrite Hp, Hv, Hp0, Hv0; unfold maxRetries_autoPilot in *; lia.
Qed.

Lemma Spends_handleAutoPilot (opt : QuestionOption)
    (nextButtonBox : option BoundingBox) (clickNext : bool) :
  Spends selectionBudget (handleAutoPilot opt nextButtonBox clickNext).
Proof.
  intros env w.
  destruct (handleAutoPilot_bounds env opt nextButtonBox clickNext w)
    as [Hp Hv].
  assert (Hem : Emits (λ e, isCheck e = false ∧ isAnalyze e = false
                            ∧ isGenerate e = false ∧ isSetTimeout e = false)
                  w (handleAutoPilot opt nextButtonBox clickNext env w).2).
  { apply (Keeps_handleAutoPilot (λ _, Emits _)
             (λ e, isCheck e = false ∧ isAnalyze e = false
                   ∧ isGenerate e = false ∧ isSetTimeout e = false));
      frame_side. }
  unfold Within. cbn. rewrite !Nat.add_0_r.
  split_and!; [ | | | exact Hp | exact Hv | ];
    apply Nat.eq_le_incl;
    (eapply Emits_count_impl; [| exact Hem]); by intros ? (? & ? & ? & ?).
Qed.

Lemma Spends_autoSelectArm (result : AnalysisResult) :
  Spends selectionBudget (autoSelectArm settings result).
Proof.
  unfold autoSelectArm.
  destruct (options result) as [opts |];
    [| eapply Spends_weaken; [| apply Spends_ret]; budget].
  destruct (autoSelect settings && hasQuestion result);
    [| eapply Spends_weaken; [| apply Spends_ret]; budget].
  destruct (List.find isCorrect opts) as [correctOption |].
  - destruct (Num.ge _ _); [apply Spends_handleAutoPilot |].
    eapply Spends_weaken; [| apply Spends_quiet]; [budget |].
    apply (Keeps_addLog (λ _, Emits _) (λ e, isCounted e = false));
      frame_side.
  - eapply Spends_weaken; [| apply Spends_quiet]; [budget |].
    apply (Keeps_addLog (λ _, Emits _) (λ e, isCounted e = false));
      frame_side.
Qed.

Lemma Spends_beginAnalysis (img : Frame) (shouldFlash : bool) :
  Spends requestBudget (beginAnalysis settings img shouldFlash).
Proof.
  intros env w.
  destruct (beginAnalysis_counts env settings img shouldFlash w) as [_ Ha].
  destruct (beginAnalysis_events env settings img shouldFlash w) as [_ Hg].
  assert (Hem : Emits (λ e, isCheck e = false ∧ isPost e = false
                            ∧ isVerify e = false ∧ isSetTimeout e = false)
                  w (beginAnalysis settings img shouldFlash env w).2).
  { apply (Keeps_beginAnalysis (λ _, Emits _)
             (λ e, isCheck e = false ∧ isPost e = false
                   ∧ isVerify e = false ∧ isSetTimeout e = false));
      frame_side. }
  unfold Within. cbn. rewrite !Nat.add_0_r.
  split_and!; [ | lia | exact Hg | | | ];
    apply Nat.eq_le_incl;
    (eapply Emits_count_impl; [| exact Hem]); by intros ? (? & ? & ? & ?).
Qed.

Lemma Spends_performAnalysis (img : Frame) (shouldFlash : bool) :
  Spends analysisBudget (performAnalysis settings img shouldFlash).
Proof.
  unfold performAnalysis. destruct (negb (truthy (apiKey settings))).
  - eapply Spends_weaken; [| apply Spends_quiet]; [budget |].
    apply Quiet_bind; [by apply Quiet_modify | intros ?; apply Quiet_addLog].
  - apply (Spends_bind requestBudget selectionBudget);
      [budget | apply Spends_beginAnalysis | intros result].
    apply Spends_then_quiet.
    + unfold handleResult. apply Spends_quiet_then.
      * apply (Keeps_reportResult (λ _, Emits _)
                 (λ e, isCounted e = false)); frame_side.
      * intros []. apply Spends_quiet_then; [by apply Quiet_modify |].
        intros []. apply Spends_autoSelectArm.
    + intros []. apply Quiet_bind; [by apply Quiet_modify |].
      intros ?. apply Quiet_addLog.
Qed.

Lemma Spends_checkForNewQuestion (cur : Frame) (prev : option Frame) :
  Spends {| checks := 1; analyses := 0; requests := 0; dispatches := 0;
            verifications := 0; timers := 0 |}
    (checkForNewQuestion cur prev).
Proof.
  intros env w. unfold Within. munfold. cbn -[count].
  destruct (stoppedDuring env _); cbn -[count];
    rewrite !count_snoc; cbn; lia.
Qed.

Lemma Spends_afterCheck (img : Frame) (r : CheckResult) :
  Spends analysisBudget (afterCheck settings img r).
Proof.
  unfold afterCheck. destruct (truthy (check_error r)).
  { eapply Spends_weaken; [| apply Spends_quiet, Quiet_addLog]. budget. }
  destruct (isNew r);
    [| eapply Spends_weaken; [| apply Spends_ret]; budget].
  apply Spends_quiet_then; [apply Quiet_addLog | intros []].
  apply Spends_quiet_then; [by apply Quiet_modify | intros []].
  apply Spends_quiet_then; [| intros []; apply Spends_performAnalysis].
  destruct (negb (triggerHybrid settings)); [by apply Quiet_modify |].
  apply Quiet_ret.
Qed.

Lemma Spends_watchdog (img : Frame) :
  Spends workBudget (watchdog settings img).
Proof.
  unfold watchdog.
  apply Spends_quiet_then; [apply Keeps_readRef; exact _ | intros previous].
  eapply Spends_bind;
    [| apply Spends_checkForNewQuestion | intros r; apply Spends_afterCheck].
  budget.
Qed.

Lemma Quiet_captureFrame :
  Keeps (λ _, Emits (λ e, isCounted e = false)) captureFrame.
Proof.
  apply (Keeps_captureFrame (λ _, Emits _) (λ e, isCounted e = false));
    frame_side.
Qed.

Lemma Spends_tickBody : Spends workBudget (tickBody settings).
Proof.
  unfold tickBody. destruct (triggerTime settings).
  { apply Spends_quiet_then; [apply Quiet_captureFrame | intros img].
    apply Spends_then_quiet; [| intros; apply Quiet_ret].
    destruct img as [img |].
    - eapply Spends_weaken; [| apply Spends_performAnalysis]. budget.
    - eapply Spends_weaken; [| apply Spends_ret]. budget. }
  destruct (triggerSmart settings);
    [| eapply Spends_weaken; [| apply Spends_ret]; budget].
  apply Spends_quiet_then; [apply Keeps_readRef; exact _ | intros processing].
  apply Spends_then_quiet; [| intros; apply Quiet_ret].
  destruct (negb processing);
    [| eapply Spends_weaken; [| apply Spends_ret]; budget].
  apply Spends_quiet_then; [apply Quiet_captureFrame | intros [img |]];
    [| eapply Spends_weaken; [| apply Spends_ret]; budget].
  apply Spends_quiet_then.
  - destruct (triggerHybrid settings); [| apply Quiet_ret].
    apply (Keeps_hybridGate (λ _, Emits _) (λ e, isCounted e = false));
      frame_side.
  - intros [|]; [apply Spends_watchdog |].
    eapply Spends_weaken; [| apply Spends_ret]. budget.
Qed.

Lemma Spends_setTimeout (delay : N) :
  Spends {| checks := 0; analyses := 0; requests := 0; dispatches := 0;
            verifications := 0; timers := 1 |}
    (setTimeout delay).
Proof.
  intros env w. unfold Within. munfold. cbn -[count].
  rewrite !count_snoc. cbn. lia.
Qed.

Lemma Spends_runAutomationLoop (stream : bool) :
  Spends tickBudget (runAutomationLoop settings stream).
Proof.
  unfold runAutomationLoop.
  apply Spends_quiet_then; [apply Keeps_readRef; exact _ | intros running].
  destruct (negb running || negb stream);
    [eapply Spends_weaken; [| apply Spends_ret]; budget |].
  apply (Spends_bind workBudget
           {| checks := 0; analyses := 0; requests := 0; dispatches := 0;
              verifications := 0; timers := 1 |});
    [budget | apply Spends_tickBody | intros delay].
  apply Spends_quiet_then; [apply Keeps_readRef; exact _ | intros running'].
  destruct running'; [apply Spends_setTimeout |].
  eapply Spends_weaken; [| apply Spends_ret]. budget.
Qed.

End TickBudget.

(** X13: whatever the settings and whatever the collaborators answer, one
    tick of the loop asks the change oracle at most once, runs at most one
    analysis with at most 3 requests, posts at most 6 action sequences
    after at most 5 verification calls, and arms the timer at most
    once. *)
Theorem tick_budget (env : Env) (settings : AppSettings) (stream : bool)
    (w : World) :
  let w' := (runAutomationLoop settings stream env w).2 in
  count isCheck (trace w') ≤ count isCheck (trace w) + 1
  ∧ count isAnalyze (trace w') ≤ count isAnalyze (trace w) + 1
  ∧ count isGenerate (trace w') ≤ count isGenerate (trace w) + 3
  ∧ count isPost (trace w') ≤ count isPost (trace w) + 6
  ∧ count isVerify (trace w') ≤ count isVerify (trace w) + 5
  ∧ count isSetTimeout (trace w') ≤ count isSetTimeout (trace w) + 1.
Proof. apply (Spends_runAutomationLoop settings stream env w). Qed.


(* ===================================================================== *)
(** * The ticks by their trigger *)
(* ===================================================================== *)

(** X14: a tick that finds the session stopped, or no stream, does
    nothing at all and arms no timer; a tick of a running session with
    both triggers off only arms the timer, one second ahead; and a tick
    that gets no frame from the capture does no more than that either:
    no OCR, no oracle and no analysis call, all cells but the timer as
    they were, the timer armed with the scan interval in timed mode and
    with one second otherwise. *)
Theorem idle_ticks (env : Env) (settings : AppSettings) (stream : bool)
    (w : World) :
  let w' := (runAutomationLoop settings stream env w).2 in
  (isAutomationRunningRef (refs w) = false ∨ stream = false → w' = w)
  ∧ (isAutomationRunningRef (refs w) = true → stream = true →
     triggerTime settings = false → triggerSmart settings = false →
     w' = with_refs (set_automationTimeoutRef (Some 1000%N))
            (with_trace (λ t, t ++ [EvSetTimeout 1000%N]) w))
  ∧ (isAutomationRunningRef (refs w) = true → stream = true →
     triggerTime settings = true
     ∨ (triggerSmart settings = true ∧ processingRef (refs w) = false) →
     captureFrame_at env (nCapture (cursors w)) = None →
     let delay :=
       if triggerTime settings then scanIntervalMs settings else 1000%N in
     w' = with_refs (set_automationTimeoutRef (Some delay))
            (with_trace (λ t, (t ++ [EvCaptureFrame]) ++ [EvSetTimeout delay])
               (with_cursors bump_nCapture w))).
Proof.
  intros w'. subst w'. split_and!.
  - intros Hidle. unfold runAutomationLoop. rewrite run_bind.
    cbn [readRef fst snd].
    destruct Hidle as [-> | ->]; [done |]. by rewrite orb_true_r.
  - intros Hrun -> Htime Hsmart. unfold runAutomationLoop, tickBody.
    rewrite Htime, Hsmart. munfold. cbn. rewrite Hrun. cbn.
    by rewrite Hrun.
  - intros Hrun -> Htrig Hcap delay. subst delay.
    unfold runAutomationLoop, tickBody. munfold. cbn. rewrite Hrun. cbn.
    destruct (triggerTime settings).
    + cbn. rewrite Hcap. cbn. by rewrite Hrun.
    + destruct Htrig as [? | [-> Hproc]]; [done |].
      cbn. rewrite Hproc. cbn. rewrite Hcap. cbn. by rewrite Hrun.
Qed.

Lemma idle_ticks_witness :
  let blind := with_captureFrame (λ _, None) idleEnv in
  (runAutomationLoop autoSelectSettings true idleEnv
     (initialWorld autoSelectSettings)).2
  = initialWorld autoSelectSettings
  ∧ trace (runAutomationLoop autoSelectSettings true blind
             (runningWorld autoSelectSettings)).2
    = [EvCaptureFrame; EvSetTimeout 1000%N].
Proof.
  split.
  - apply (proj1 (idle_ticks idleEnv autoSelectSettings true
                    (initialWorld autoSelectSettings))).
    left. reflexivity.
  - rewrite (proj2 (proj2 (idle_ticks (with_captureFrame (λ _, None) idleEnv)
                             autoSelectSettings true
                             (runningWorld autoSelectSettings)))
               eq_refl eq_refl (or_intror (conj eq_refl eq_refl)) eq_refl).
    reflexivity.
Defined.

Section TimedTick.

Context (env : Env) (settings : AppSettings).

(** The work of a tick on the timer. *)
Lemma tickBody_timed (w : World) :
  triggerTime settings = true →
  tickBody settings env w
  = (scanIntervalMs settings,
     match captureFrame_at env (nCapture (cursors w)) with
     | Some img =>
         (performAnalysis settings img false env (captureFrame env w).2).2
     | None => (captureFrame env w).2
     end).
Proof.
  intros Htime. unfold tickBody. rewrite Htime.
  rewrite run_bind, run_bind.
  change (captureFrame env w).1
    with (captureFrame_at env (nCapture (cursors w))).
  destruct (captureFrame_at env (nCapture (cursors w))) as [img |];
    [| reflexivity].
  cbn [ret mret M_ret fst snd]. by destruct (performAnalysis _ _ _ _ _).
Qed.

Lemma captureFrame_refs (w : World) :
  refs (captureFrame env w).2 = refs w
  ∧ react (captureFrame env w).2 = react w
  ∧ trace (captureFrame env w).2 = trace w ++ [EvCaptureFrame].
Proof. done. Qed.

End TimedTick.

(** X15: on the timer a tick of a running session captures a frame and
    analyses it whether or not an analysis is still in flight: the busy
    flag is not looked at, the change oracle is not asked and the cells of
    the hybrid gate are not touched; the analysis is made once when there
    is a key, and unless the session is stopped meanwhile the timer is
    armed with the scan interval. *)
Theorem timed_tick (env : Env) (settings : AppSettings) (w : World)
    (img : Frame) :
  triggerTime settings = true →
  isAutomationRunningRef (refs w) = true →
  captureFrame_at env (nCapture (cursors w)) = Some img →
  let w' := (runAutomationLoop settings true env w).2 in
  count isCheck (trace w') = count isCheck (trace w)
  ∧ lastOcrTextRef (refs w') = lastOcrTextRef (refs w)
  ∧ ocrStabilityCounterRef (refs w') = ocrStabilityCounterRef (refs w)
  ∧ (truthy (apiKey settings) = true →
     count isAnalyze (trace w') = count isAnalyze (trace w) + 1
     ∧ processingRef (refs w') = false)
  ∧ ((∀ n, stoppedDuring env n = false) →
     automationTimeoutRef (refs w') = Some (scanIntervalMs settings)
     ∧ last (trace w') = Some (EvSetTimeout (scanIntervalMs settings))).
Proof.
  intros Htime Hrun Hcap w'. subst w'.
  rewrite runAutomationLoop_run by done. cbv zeta.
  pose proof (NeverStopped_tickBody env settings w) as Hcalm.
  rewrite tickBody_timed in Hcalm |- * by done. rewrite Hcap in Hcalm |- *.
  cbn [fst snd] in Hcalm |- *.
  destruct (captureFrame_refs env w) as (Hrefs & Hreact & Htr).
  set (w0 := (captureFrame env w).2) in *.
  set (w1 := (performAnalysis settings img false env w0).2) in *.
  assert (Hchk : count isCheck (trace w1) = count isCheck (trace w)).
  { transitivity (count isCheck (trace w0)).
    - apply Emits_count.
      apply (Keeps_performAnalysis (λ _, Emits _) (λ e, isCheck e = false));
        frame_side.
    - rewrite Htr, count_snoc. cbn. lia. }
  assert (Hgate : SameGate w0 w1).
  { apply (Keeps_performAnalysis (λ _, SameGate) (λ _, True)); frame_side. }
  destruct Hgate as [Hl Hc]. rewrite Hrefs in Hl, Hc.
  assert (Hkey : truthy (apiKey settings) = true →
                 count isAnalyze (trace w1) = count isAnalyze (trace w) + 1
                 ∧ processingRef (refs w1) = false).
  { intros Hkey.
    destruct (performAnalysis_end env settings img false w0 Hkey)
      as (Hbusy & _ & _ & Ha & _).
    fold w1 in Hbusy, Ha. rewrite Ha, Htr, count_snoc. cbn.
    split; [lia | done]. }
  destruct (isAutomationRunningRef (refs w1)) eqn:Hflag.
  - cbn -[count]. rewrite count_snoc, last_snoc. cbn [isCheck isAnalyze].
    split_and!; [lia | done | done | | done].
    intros Hk. destruct (Hkey Hk) as [Ha Hb]. rewrite count_snoc. cbn.
    split; [lia | done].
  - split_and!; [done | done | done | done |].
    intros Hnever. specialize (Hcalm Hnever). congruence.
Qed.

Lemma timed_tick_witness :
  let w := with_refs (set_processingRef true) (runningWorld timedSettings) in
  let w' := (runAutomationLoop timedSettings true idleEnv w).2 in
  count isCheck (trace w') = 0
  ∧ count isAnalyze (trace w') = 1
  ∧ automationTimeoutRef (refs w') = Some 3000%N.
Proof.
  pose proof (timed_tick idleEnv timedSettings
                (with_refs (set_processingRef true)
                   (runningWorld timedSettings))
                sampleFrame eq_refl eq_refl eq_refl)
    as (Hc & _ & _ & Hkey & Htimer).
  destruct (Hkey eq_refl) as [Ha _].
  destruct (Htimer (λ _, eq_refl)) as [Ht _].
  split_and!; [exact Hc | exact Ha | exact Ht].
Defined.

Section Watchdog.

Context (env : Env) (settings : AppSettings) (img : Frame).

Lemma checkForNewQuestion_run (prev : option Frame) (w : World) :
  let out := checkForNewQuestion img prev env w in
  out.1 = checkForNewQuestion_at env (nCheck (cursors w))
  ∧ trace out.2 = trace w ++ [EvCheckForNewQuestion img prev]
  ∧ react out.2 = react w
  ∧ lastScreenshotRef (refs out.2) = lastScreenshotRef (refs w)
  ∧ lastOcrTextRef (refs out.2) = lastOcrTextRef (refs w)
  ∧ ocrStabilityCounterRef (refs out.2) = ocrStabilityCounterRef (refs w)
  ∧ processingRef (refs out.2) = processingRef (refs w).
Proof. munfold. cbn. by destruct (stoppedDuring env _). Qed.

Lemma performAnalysis_shot (shouldFlash : bool) (w : World) :
  lastScreenshotRef (refs w) = Some img →
  lastScreenshotRef (refs (performAnalysis settings img shouldFlash env w).2)
  = Some img.
Proof.
  intros Hshot. destruct (truthy (apiKey settings)) eqn:Hkey.
  - destruct (performAnalysis_end env settings img shouldFlash w Hkey)
      as (_ & _ & _ & _ & _ & _ & ->).
    by destruct (_ && _).
  - unfold performAnalysis. by rewrite Hkey.
Qed.

End Watchdog.

(** X16: the watchdog asks the change oracle once, about the frame of the
    tick and the reference frame, and does what the answer says.  On an
    error, even one that comes with [isNew], and on an answer that is not
    new, nothing else happens: no analysis, and the reference frame and
    text, the busy flag and the React state stay as they were.  On a new
    question without an error the frame becomes the reference frame, the
    text of the oracle becomes the reference text unless the hybrid gate
    keeps its own, and the analysis is made, once when there is a key. *)
Theorem watchdog_follows_oracle (env : Env) (settings : AppSettings)
    (img : Frame) (w : World) :
  let r := checkForNewQuestion_at env (nCheck (cursors w)) in
  let w' := (watchdog settings img env w).2 in
  (∃ evs,
     trace w'
     = trace w ++ EvCheckForNewQuestion img (lastScreenshotRef (refs w)) :: evs
     ∧ count isCheck evs = 0)
  ∧ (truthy (check_error r) = true ∨ isNew r = false →
     count isAnalyze (trace w') = count isAnalyze (trace w)
     ∧ lastScreenshotRef (refs w') = lastScreenshotRef (refs w)
     ∧ lastOcrTextRef (refs w') = lastOcrTextRef (refs w)
     ∧ processingRef (refs w') = processingRef (refs w)
     ∧ react w' = react w)
  ∧ (truthy (check_error r) = false → isNew r = true →
     lastScreenshotRef (refs w') = Some img
     ∧ lastOcrTextRef (refs w')
       = (if triggerHybrid settings then lastOcrTextRef (refs w)
          else currentText r)
     ∧ (truthy (apiKey settings) = true →
        count isAnalyze (trace w') = count isAnalyze (trace w) + 1
        ∧ processingRef (refs w') = false)).
Proof.
  intros r w'. subst w'. unfold watchdog.
  rewrite run_bind. cbn [readRef fst snd]. rewrite run_bind.
  destruct (checkForNewQuestion_run env img (lastScreenshotRef (refs w)) w)
    as (Hr & Htr & Hreact & Hshot & Hocr & Hctr & Hbusy).
  fold r in Hr. rewrite Hr.
  set (w1 := (checkForNewQuestion img _ env w).2) in *.
  split_and!.
  - assert (Hem : Emits (λ e, isCheck e = false) w1
                    (afterCheck settings img r env w1).2).
    { apply (Keeps_afterCheck (λ _, Emits _) (λ e, isCheck e = false));
        frame_side. }
    destruct Hem as (evs & Hevs & Hno). exists evs.
    rewrite Hevs, Htr, <- app_assoc. split; [done | by apply count_none].
  - intros Hdecl. unfold afterCheck.
    destruct (truthy (check_error r)).
    + munfold. cbn -[count]. rewrite count_snoc, Htr, count_snoc. cbn.
      split_and!; [lia | done | done | done | done].
    + destruct Hdecl as [? | ->]; [done |]. cbn [ret mret M_ret snd].
      rewrite Htr, count_snoc. cbn. split_and!; [lia | done | done | done | done].
  - intros Herr Hnew. unfold afterCheck. rewrite Herr, Hnew.
    rewrite !run_bind.
    set (w2 := (when (negb (triggerHybrid settings)) _ env _).2).
    assert (Hw2 : lastScreenshotRef (refs w2) = Some img
                  ∧ lastOcrTextRef (refs w2)
                    = (if triggerHybrid settings
                       then lastOcrTextRef (refs w) else currentText r)
                  ∧ count isAnalyze (trace w2) = count isAnalyze (trace w)).
    { subst w2. destruct (triggerHybrid settings); munfold; cbn -[count];
        rewrite count_snoc, Htr, count_snoc; cbn;
        (split_and!; [done | done | lia]). }
    destruct Hw2 as (Hs2 & Ho2 & Ha2).
    assert (Hgate : SameGate w2 (performAnalysis settings img false env w2).2).
    { apply (Keeps_performAnalysis (λ _, SameGate) (λ _, True)); frame_side. }
    destruct Hgate as [Hl _].
    split_and!.
    + by apply performAnalysis_shot.
    + by rewrite Hl.
    + intros Hkey.
      destruct (performAnalysis_end env settings img false w2 Hkey)
        as (Hb & _ & _ & Ha & _).
      rewrite Ha, Ha2. split; [lia | done].
Qed.

Lemma watchdog_follows_oracle_witness :
  let w := runningWorld smartSettings in
  let down := (watchdog smartSettings sampleFrame oracleDownEnv w).2 in
  let new := (watchdog smartSettings sampleFrame newQuestionEnv w).2 in
  (count isAnalyze (trace down) = 0 ∧ lastScreenshotRef (refs down) = None)
  ∧ (lastScreenshotRef (refs new) = Some sampleFrame
     ∧ lastOcrTextRef (refs new) = "What is the capital of France?"
     ∧ count isAnalyze (trace new) = 1).
Proof.
  split.
  - pose proof (proj1 (proj2 (watchdog_follows_oracle oracleDownEnv
                                smartSettings sampleFrame
                                (runningWorld smartSettings)))
                  (or_introl eq_refl)) as (Ha & Hs & _).
    split; [exact Ha | exact Hs].
  - pose proof (proj2 (proj2 (watchdog_follows_oracle newQuestionEnv
                                smartSettings sampleFrame
                                (runningWorld smartSettings)))
                  eq_refl eq_refl) as (Hs & Ho & Hkey).
    destruct (Hkey eq_refl) as [Ha _].
    split_and!; [exact Hs | exact Ho | exact Ha].
Defined.

Section StabilityCounter.

Context (env : Env).

Lemma setTimeout_counter (delay : N) (b : bool) (w : World) :
  ocrStabilityCounterRef (refs (when b (setTimeout delay) env w).2)
  = ocrStabilityCounterRef (refs w).
Proof. by destruct b. Qed.

(** The work of a tick leaves the counter as it was, or below 3. *)
Lemma tickBody_counter (settings : AppSettings) (w : World) :
  let w' := (tickBody settings env w).2 in
  ocrStabilityCounterRef (refs w') = ocrStabilityCounterRef (refs w)
  ∨ ocrStabilityCounterRef (refs w') < 3.
Proof.
  unfold tickBody. destruct (triggerTime settings).
  { left. rewrite !run_bind. cbn [ret mret M_ret snd].
    destruct ((captureFrame env w).1) as [img |]; [| done].
    transitivity (ocrStabilityCounterRef (refs (captureFrame env w).2));
      [| done].
    apply (Keeps_performAnalysis (λ _, SameCounter) (λ _, True));
      frame_side. }
  destruct (triggerSmart settings); [| by left].
  rewrite !run_bind. cbn [readRef ret mret M_ret fst snd].
  destruct (negb (processingRef (refs w))); [| by left].
  rewrite run_bind.
  destruct ((captureFrame env w).1) as [img |]; [| by left].
  set (w0 := (captureFrame env w).2).
  assert (Hw0 : ocrStabilityCounterRef (refs w0)
                = ocrStabilityCounterRef (refs w)) by done.
  rewrite run_bind.
  destruct (triggerHybrid settings) eqn:Hhybrid.
  - right.
    destruct (hybridGate_run env settings img w0) as (_ & _ & Hctr & _).
    set (out := hybridGate settings img env w0) in *.
    assert (Hlt : ocrStabilityCounterRef (refs out.2) < 3)
      by (rewrite Hctr; apply stabilityStep_counter_bound).
    destruct out.1; [| done]. cbn [when].
    destruct (watchdog_run env settings img out.2 Hhybrid) as [[_ Hc] _].
    by rewrite Hc.
  - left. cbn [ret mret M_ret fst snd when]. rewrite <- Hw0.
    apply (Keeps_watchdog (λ _, SameCounter) (λ _, True)); frame_side.
Qed.

Lemma runAutomationLoop_counter (settings : AppSettings) (stream : bool)
    (w : World) :
  ocrStabilityCounterRef (refs w) < 3 →
  ocrStabilityCounterRef (refs (runAutomationLoop settings stream env w).2)
  < 3.
Proof.
  intros Hlt. unfold runAutomationLoop. rewrite run_bind.
  cbn [readRef fst snd].
  destruct (negb (isAutomationRunningRef (refs w)) || negb stream); [done |].
  rewrite run_bind, run_bind. cbn [readRef fst snd].
  rewrite setTimeout_counter.
  destruct (tickBody_counter settings w) as [-> | ?]; done.
Qed.

Lemma runTicks_counter (ticks : list (AppSettings * bool)) (w : World) :
  ocrStabilityCounterRef (refs w) < 3 →
  ocrStabilityCounterRef (refs (runTicks ticks env w).2) < 3.
Proof.
  revert w. induction ticks as [| [settings stream] ticks IH]; intros w Hlt;
    [done |].
  cbn [runTicks]. rewrite run_bind. by apply IH, runAutomationLoop_counter.
Qed.

End StabilityCounter.

(** X17: the stability counter of the hybrid gate is 0, 1 or 2 between
    the ticks: a tick that finds it below 3 leaves it below 3, whatever
    the settings, the mode and the answers of the collaborators; so it is
    after any series of ticks of a session, which starts at 0, even when
    the settings change from tick to tick. *)
Theorem stability_counter_stays_below_3 (env : Env)
    (ticks : list (AppSettings * bool)) :
  (∀ (settings : AppSettings) (stream : bool) (w : World),
     ocrStabilityCounterRef (refs w) < 3 →
     ocrStabilityCounterRef
       (refs (runAutomationLoop settings stream env w).2) < 3)
  ∧ (∀ settings,
       ocrStabilityCounterRef
         (refs (runTicks ticks env (runningWorld settings)).2) < 3).
Proof.
  split.
  - intros settings stream w. apply runAutomationLoop_counter.
  - intros settings. apply runTicks_counter. cbn. lia.
Qed.

Lemma stability_counter_stays_below_3_witness :
  ocrStabilityCounterRef
    (refs (runAutomationLoop autoSelectSettings true idleEnv
             (with_refs (set_ocrStabilityCounterRef 2)
                (runningWorld autoSelectSettings))).2) < 3.
Proof.
  apply (proj1 (stability_counter_stays_below_3 idleEnv [])). cbn. lia.
Defined.

(* ===================================================================== *)
(** * What the auto-pilot posts *)
(* ===================================================================== *)

Section PostedSequences.

Context (env : Env) (opt : QuestionOption).

Lemma attemptEvents_select (attempt : nat) (verifyImg : option Frame)
    (verification : VerifyResult) :
  Forall (λ e, ∀ q, e = EvPostMessage q → q = selectSequence opt)
    (attemptEvents opt attempt verifyImg verification).
Proof.
  unfold attemptEvents.
  destruct verifyImg; [destruct (isSelected verification) |];
    repeat constructor; intros q [=]; done.
Qed.

(** The loop posts nothing but the sequence that selects the option, and
    it answers "verified" only after one of its verification calls said
    so. *)
Lemma autoPilotLoop_posts (fuel attempts : nat) (verified : bool)
    (w : World) :
  let out := autoPilotLoop fuel opt attempts verified env w in
  (∃ evs,
     trace out.2 = trace w ++ evs
     ∧ Forall (λ e, ∀ q, e = EvPostMessage q → q = selectSequence opt) evs)
  ∧ nVerify (cursors w) ≤ nVerify (cursors out.2)
  ∧ (out.1 = true →
     verified = true
     ∨ ∃ n, nVerify (cursors w) ≤ n < nVerify (cursors out.2)
            ∧ isSelected (verifySelection_at env n) = true).
Proof.
  revert attempts verified w.
  induction fuel as [| fuel IH]; intros attempts verified w;
    cbn [autoPilotLoop].
  - split_and!; [exists []; by rewrite app_nil_r | done | by left].
  - destruct ((attempts <? maxRetries_autoPilot) && negb verified);
      [| split_and!; [exists []; by rewrite app_nil_r | done | by left]].
    rewrite run_bind.
    destruct (autoPilotAttempt_run env opt (S attempts) verified w)
      as (Htr & Hv & _ & Hn).
    set (out1 := autoPilotAttempt opt (S attempts) verified env w) in *.
    destruct (IH (S attempts) out1.1 out1.2)
      as ((evs & Hevs & Hok) & Hle & Htrue).
    assert (Hle1 : nVerify (cursors w) ≤ nVerify (cursors out1.2))
      by (rewrite Hn; destruct (captureFrame_at env _); lia).
    split_and!.
    + eexists. rewrite Hevs, Htr, <- app_assoc. split; [done |].
      apply Forall_app. split; [apply attemptEvents_select | done].
    + lia.
    + intros Hres. destruct (Htrue Hres) as [H1 | (n & Hin & Hsel)].
      * rewrite Hv in H1.
        destruct (captureFrame_at env _); [| by left].
        destruct (isSelected (verifySelection_at env _)) eqn:Hsel;
          [| by left].
        right. exists (nVerify (cursors w)). split; [lia | done].
      * right. exists n. split; [lia | done].
Qed.

Lemma selectSequence_last :
  last (selectSequence opt) = Some (text_click (text opt)).
Proof. unfold selectSequence. by destruct (optionBox opt). Qed.

Lemma selectSequence_not_next (nextButtonBox : option BoundingBox) :
  selectSequence opt ≠ nextSeq nextButtonBox.
Proof.
  unfold selectSequence, nextSeq.
  by destruct (optionBox opt), nextButtonBox.
Qed.

End PostedSequences.

(** X18: [handleAutoPilot] posts two kinds of sequences only, which
    cannot be confused: the sequence that selects the option, which ends
    with the click on the text of the option, and the sequence for the
    next button; and it posts the latter only with auto-advance on and
    after a verification call that reported the option selected. *)
Theorem advance_only_after_confirmation (env : Env) (opt : QuestionOption)
    (nextButtonBox : option BoundingBox) (clickNext : bool) (w : World) :
  let w' := (handleAutoPilot opt nextButtonBox clickNext env w).2 in
  last (selectSequence opt) = Some (text_click (text opt))
  ∧ selectSequence opt ≠ nextSeq nextButtonBox
  ∧ ∃ evs,
      trace w' = trace w ++ evs
      ∧ ∀ q, EvPostMessage q ∈ evs →
             q = selectSequence opt
             ∨ (q = nextSeq nextButtonBox
                ∧ clickNext = true
                ∧ ∃ n, nVerify (cursors w) ≤ n < nVerify (cursors w')
                       ∧ isSelected (verifySelection_at env n) = true).
Proof.
  intros w'. subst w'.
  split; [apply selectSequence_last |].
  split; [apply selectSequence_not_next |].
  rewrite handleAutoPilot_run. cbv zeta.
  set (w0 := with_trace _ w).
  destruct (autoPilotLoop_posts env opt maxRetries_autoPilot 0 false w0)
    as ((evs & Hevs & Hok) & _ & Htrue).
  destruct (autoPilotLoop _ _ _ _ _ _) as [verified w1]. cbn [fst snd] in *.
  rewrite Forall_forall in Hok.
  destruct verified.
  - destruct (Htrue eq_refl) as [? | Hsel]; [done |].
    destruct clickNext; cbn [andb negb].
    + eexists. cbn [trace with_trace]. rewrite Hevs. subst w0.
      cbn [trace with_trace]. rewrite <- !app_assoc. split; [done |].
      intros q. rewrite !elem_of_app, !list_elem_of_singleton.
      intros [[=] | [Hin | [[=] | [= ->]]]]; [left; by eapply Hok | by right].
    + eexists. rewrite Hevs. subst w0.
      cbn [trace with_trace]. rewrite <- !app_assoc. split; [done |].
      intros q. rewrite !elem_of_app, !list_elem_of_singleton.
      intros [[=] | Hin]. left. by eapply Hok.
  - cbn [andb negb]. eexists. cbn [trace with_trace]. rewrite Hevs. subst w0.
    cbn [trace with_trace]. rewrite <- !app_assoc. split; [done |].
    intros q. rewrite !elem_of_app, !list_elem_of_singleton.
    intros [[=] | [Hin | [=]]]. left. by eapply Hok.
Qed.

(* ===================================================================== *)
(** * The entries of the console log *)
(* ===================================================================== *)

Section ConsoleLog.

Lemma sameType_eq (a b : LogType) : Logs.sameType a b = true ↔ a = b.
Proof. destruct a, b; simpl; split; congruence. Qed.

Lemma countOr1_pos (c : option nat) : 0 < Logs.countOr1 c.
Proof. destruct c as [[| n] |]; simpl; lia. Qed.

(** The two ways [addLog] goes: the last entry is counted once more, or
    an entry is added to the last 49. *)
Lemma addLog_cases (debugMode : bool) (now newId msg : string)
    (ty : LogType) (prev : list Logs.LogEntry) :
  (∃ older lastLog,
     prev = older ++ [lastLog]
     ∧ debugMode = false
     ∧ Logs.message lastLog = msg ∧ Logs.type lastLog = ty
     ∧ Logs.addLog debugMode now newId msg ty prev
       = older ++ [{| Logs.id := Logs.id lastLog; Logs.timestamp := now;
                      Logs.message := msg; Logs.type := ty;
                      Logs.count :=
                        Some (Logs.countOr1 (Logs.count lastLog) + 1) |}])
  ∨ ((debugMode = true
      ∨ match last prev with
        | Some lastLog =>
            ¬ (Logs.message lastLog = msg ∧ Logs.type lastLog = ty)
        | None => True
        end)
     ∧ Logs.addLog debugMode now newId msg ty prev
       = drop (length prev - 49) prev
         ++ [{| Logs.id := newId; Logs.timestamp := now;
                Logs.message := msg; Logs.type := ty;
                Logs.count := Some 1 |}]).
Proof.
  unfold Logs.addLog.
  destruct debugMode; cbn [negb andb]; [right; split; [by left | done] |].
  destruct prev as [| e prev'] using rev_ind;
    [right; split; [by right | done] |].
  rewrite length_app. cbn [length].
  replace (0 <? length prev' + 1) with true
    by (symmetry; apply Nat.ltb_lt; lia).
  rewrite last_snoc.
  destruct (String.eqb_spec (Logs.message e) msg) as [Hmsg | Hmsg];
    cbn [andb]; [| right; split; [right; tauto | done]].
  destruct (Logs.sameType (Logs.type e) ty) eqn:Hty.
  - left. apply sameType_eq in Hty. exists prev', e.
    replace (length prev' + 1 - 1) with (length prev') by lia.
    rewrite take_app_length. subst. by split_and!.
  - right. split; [right | done]. intros [_ Heq%sameType_eq]. congruence.
Qed.

Lemma addLog_length (debugMode : bool) (now newId msg : string)
    (ty : LogType) (prev : list Logs.LogEntry) :
  length (Logs.addLog debugMode now newId msg ty prev)
  ≤ Nat.max (length prev) 50
  ∧ length (Logs.addLog debugMode now newId msg ty prev) ≤ S (length prev).
Proof.
  destruct (addLog_cases debugMode now newId msg ty prev)
    as [(older & lastLog & -> & _ & _ & _ & ->) | [_ ->]].
  - rewrite !length_app. cbn [length]. lia.
  - rewrite length_app, length_drop. cbn [length]. lia.
Qed.

Lemma run_snoc (calls : list Logs.Call) (c : Logs.Call)
    (logs : list Logs.LogEntry) :
  Logs.run (calls ++ [c]) logs = Logs.step (Logs.run calls logs) c.
Proof. unfold Logs.run. by rewrite foldl_app. Qed.

Lemma run_length (calls : list Logs.Call) :
  length (Logs.run calls []) ≤ 50
  ∧ length (Logs.run calls []) ≤ length calls.
Proof.
  induction calls as [| c calls [IH1 IH2]] using rev_ind; [cbn; lia |].
  rewrite run_snoc, length_app. cbn [length]. unfold Logs.step.
  destruct (addLog_length (Logs.call_debugMode c) (Logs.call_now c)
              (Logs.call_newId c) (Logs.call_message c) (Logs.call_type c)
              (Logs.run calls [])) as [H1 H2].
  lia.
Qed.

Lemma addLog_last (debugMode : bool) (now newId msg : string)
    (ty : LogType) (prev : list Logs.LogEntry) :
  ∃ e, last (Logs.addLog debugMode now newId msg ty prev) = Some e
       ∧ Logs.message e = msg ∧ Logs.type e = ty ∧ Logs.timestamp e = now
       ∧ 0 < Logs.countOr1 (Logs.count e).
Proof.
  destruct (addLog_cases debugMode now newId msg ty prev)
    as [(older & lastLog & -> & _ & _ & _ & ->) | [_ ->]];
    rewrite last_snoc; eexists; (split; [reflexivity |]);
    cbn [Logs.message Logs.type Logs.timestamp];
    split_and!; try done; apply countOr1_pos.
Qed.

Lemma occurrences_app (a b : list Logs.LogEntry) :
  Logs.occurrences (a ++ b) = Logs.occurrences a + Logs.occurrences b.
Proof.
  unfold Logs.occurrences. induction a as [| e a IH]; [done |].
  cbn [app foldr]. rewrite IH. lia.
Qed.

(** While fewer than 50 entries are kept, a call counts once. *)
Lemma addLog_occurrences (debugMode : bool) (now newId msg : string)
    (ty : LogType) (prev : list Logs.LogEntry) :
  length prev < 50 →
  Logs.occurrences (Logs.addLog debugMode now newId msg ty prev)
  = S (Logs.occurrences prev).
Proof.
  intros Hlen.
  destruct (addLog_cases debugMode now newId msg ty prev)
    as [(older & lastLog & -> & _ & _ & _ & ->) | [_ ->]].
  - rewrite !occurrences_app. cbn.
    pose proof (countOr1_pos (Logs.count lastLog)) as Hpos.
    destruct (Logs.countOr1 (Logs.count lastLog)) as [| n] eqn:Hc; [lia |].
    cbn. lia.
  - replace (length prev - 49) with 0 by lia. rewrite drop_0.
    rewrite occurrences_app. cbn. lia.
Qed.

Lemma run_occurrences (calls : list Logs.Call) :
  length calls ≤ 50 →
  Logs.occurrences (Logs.run calls []) = length calls.
Proof.
  induction calls as [| c calls IH] using rev_ind; [done |].
  rewrite length_app. cbn [length]. intros Hlen.
  rewrite run_snoc. unfold Logs.step.
  destruct (run_length calls) as [_ Hle].
  rewrite addLog_occurrences by lia. rewrite IH by lia. lia.
Qed.

Lemma hasRepeat_snoc (l : list Logs.LogEntry) (x : Logs.LogEntry) :
  Logs.hasRepeat (l ++ [x])
  = Logs.hasRepeat l
    || match last l with
       | Some e =>
           String.eqb (Logs.message e) (Logs.message x)
           && Logs.sameType (Logs.type e) (Logs.type x)
       | None => false
       end.
Proof.
  induction l as [| e1 l IH]; [done |].
  destruct l as [| e2 l'].
  - cbn. by rewrite orb_false_r.
  - change ((e1 :: e2 :: l') ++ [x]) with (e1 :: (e2 :: l') ++ [x]).
    change (Logs.hasRepeat (e1 :: (e2 :: l') ++ [x]))
      with ((String.eqb (Logs.message e1) (Logs.message e2)
             && Logs.sameType (Logs.type e1) (Logs.type e2))
            || Logs.hasRepeat ((e2 :: l') ++ [x])).
    rewrite IH.
    change (Logs.hasRepeat (e1 :: e2 :: l'))
      with ((String.eqb (Logs.message e1) (Logs.message e2)
             && Logs.sameType (Logs.type e1) (Logs.type e2))
            || Logs.hasRepeat (e2 :: l')).
    change (last (e1 :: e2 :: l')) with (last (e2 :: l')).
    by rewrite orb_assoc.
Qed.

Lemma hasRepeat_drop (k : nat) (l : list Logs.LogEntry) :
  Logs.hasRepeat l = false → Logs.hasRepeat (drop k l) = false.
Proof.
  revert l. induction k as [| k IH]; intros l; [by rewrite drop_0 |].
  destruct l as [| e1 l]; [done |]. cbn [drop]. intros Hl. apply IH.
  destruct l as [| e2 l']; [done |].
  change (Logs.hasRepeat (e1 :: e2 :: l'))
    with ((String.eqb (Logs.message e1) (Logs.message e2)
           && Logs.sameType (Logs.type e1) (Logs.type e2))
          || Logs.hasRepeat (e2 :: l')) in Hl.
  by apply orb_false_iff in Hl as [_ ?].
Qed.

Lemma last_drop (k : nat) (l : list Logs.LogEntry) :
  k < length l → last (drop k l) = last l.
Proof.
  intros Hk. rewrite <- (take_drop k l) at 2. rewrite last_app.
  destruct (last (drop k l)) eqn:Hlast; [done |].
  apply last_None in Hlast.
  assert (length (drop k l) = 0) by (by rewrite Hlast).
  rewrite length_drop in *. lia.
Qed.

(** Outside debug mode a call leaves no two neighbours alike. *)
Lemma addLog_hasRepeat (now newId msg : string) (ty : LogType)
    (prev : list Logs.LogEntry) :
  Logs.hasRepeat prev = false →
  Logs.hasRepeat (Logs.addLog false now newId msg ty prev) = false.
Proof.
  intros Hprev.
  destruct (addLog_cases false now newId msg ty prev)
    as [(older & lastLog & -> & _ & Hmsg & Hty & ->) | [Hdiff ->]].
  - rewrite hasRepeat_snoc in Hprev |- *. cbn [Logs.message Logs.type].
    by rewrite <- Hmsg, <- Hty.
  - rewrite hasRepeat_snoc. apply orb_false_iff. split.
    + by apply hasRepeat_drop.
    + destruct Hdiff as [? | Hdiff]; [done |].
      destruct prev as [| e prev'] using rev_ind; [by rewrite drop_nil |].
      rewrite last_drop by (rewrite length_app; cbn; lia).
      rewrite last_snoc in Hdiff |- *. cbn [Logs.message Logs.type].
      destruct (String.eqb_spec (Logs.message e) msg) as [Hm | Hm];
        [| done].
      destruct (Logs.sameType (Logs.type e) ty) eqn:Ht; [| done].
      apply sameType_eq in Ht. tauto.
Qed.

Lemma run_hasRepeat (calls : list Logs.Call) :
  Forall (λ c, Logs.call_debugMode c = false) calls →
  Logs.hasRepeat (Logs.run calls []) = false.
Proof.
  induction calls as [| c calls IH] using rev_ind; [done |].
  intros [Hcalls Hc]%Forall_app.
  pose proof (proj1 (Forall_singleton _ c) Hc) as Hc'. cbv beta in Hc'.
  rewrite run_snoc. unfold Logs.step. rewrite Hc'.
  by apply addLog_hasRepeat, IH.
Qed.

End ConsoleLog.

(** X19: the console log never holds more than 50 entries: a call of
    [addLog] on at most 50 entries leaves at most 50, so that after any
    series of calls, in or out of debug mode, at most 50 are kept; and the
    newest call is always the last entry, with its message, its type and
    the time of the call. *)
Theorem console_log_is_bounded (debugMode : bool) (now newId msg : string)
    (ty : LogType) (prev : list Logs.LogEntry) (calls : list Logs.Call) :
  (length prev ≤ 50 →
   length (Logs.addLog debugMode now newId msg ty prev) ≤ 50)
  ∧ length (Logs.run calls []) ≤ 50
  ∧ ∃ e, last (Logs.addLog debugMode now newId msg ty prev) = Some e
         ∧ Logs.message e = msg ∧ Logs.type e = ty
         ∧ Logs.timestamp e = now.
Proof.
  split_and!.
  - intros Hlen.
    destruct (addLog_length debugMode now newId msg ty prev) as [H _]. lia.
  - apply run_length.
  - destruct (addLog_last debugMode now newId msg ty prev)
      as (e & ? & ? & ? & ? & _).
    by exists e.
Qed.

Lemma console_log_is_bounded_witness :
  length (Logs.addLog true "12:00:00" "k3x9q2a1b" "Initiating Neural Analysis..."
            info
            (replicate 50
               {| Logs.id := "a"; Logs.timestamp := "11:59:59";
                  Logs.message := "Neural Analysis Complete.";
                  Logs.type := info; Logs.count := Some 1 |})) ≤ 50.
Proof.
  apply (proj1 (console_log_is_bounded true "12:00:00" "k3x9q2a1b"
                  "Initiating Neural Analysis..." info
                  (replicate 50
                     {| Logs.id := "a"; Logs.timestamp := "11:59:59";
                        Logs.message := "Neural Analysis Complete.";
                        Logs.type := info; Logs.count := Some 1 |})
                  [])).
  vm_compute. lia.
Defined.

(** X20: as long as at most 50 calls of [addLog] were made since the log
    was empty, no call is lost: the counts of the entries, an entry
    without a count standing for one call, add up to the number of calls;
    and a single call on fewer than 50 entries adds one to that sum,
    whether it adds an entry or counts the last entry once more. *)
Theorem console_log_counts_calls (debugMode : bool) (now newId msg : string)
    (ty : LogType) (prev : list Logs.LogEntry) (calls : list Logs.Call) :
  (length prev < 50 →
   Logs.occurrences (Logs.addLog debugMode now newId msg ty prev)
   = S (Logs.occurrences prev))
  ∧ (length calls ≤ 50 →
     Logs.occurrences (Logs.run calls []) = length calls).
Proof. split; [apply addLog_occurrences | apply run_occurrences]. Qed.

Lemma console_log_counts_calls_witness :
  let call msg :=
    {| Logs.call_debugMode := false; Logs.call_now := "12:00:00";
       Logs.call_newId := "k3x9q2a1b"; Logs.call_message := msg;
       Logs.call_type := info |} in
  let calls := [call "tick"; call "tick"; call "tock"; call "tick"] in
  Logs.occurrences (Logs.run calls []) = 4
  ∧ length (Logs.run calls []) = 3.
Proof.
  cbv zeta. split; [| reflexivity].
  apply (proj2 (console_log_counts_calls false "" "" "" info []
                  [ {| Logs.call_debugMode := false;
                       Logs.call_now := "12:00:00";
                       Logs.call_newId := "k3x9q2a1b";
                       Logs.call_message := "tick";
                       Logs.call_type := info |};
                    {| Logs.call_debugMode := false;
                       Logs.call_now := "12:00:00";
                       Logs.call_newId := "k3x9q2a1b";
                       Logs.call_message := "tick";
                       Logs.call_type := info |};
                    {| Logs.call_debugMode := false;
                       Logs.call_now := "12:00:00";
                       Logs.call_newId := "k3x9q2a1b";
                       Logs.call_message := "tock";
                       Logs.call_type := info |};
                    {| Logs.call_debugMode := false;
                       Logs.call_now := "12:00:00";
                       Logs.call_newId := "k3x9q2a1b";
                       Logs.call_message := "tick";
                       Logs.call_type := info |} ])).
  cbn. lia.
Defined.

(** X21: outside debug mode the log never shows the same message with the
    same type twice in a row: a call on entries without such neighbours
    leaves none, because a repetition of the last entry is counted on that
    entry instead; so there are none after any series of calls outside
    debug mode since the log was empty. *)
Theorem console_log_consolidates (now newId msg : string) (ty : LogType)
    (prev : list Logs.LogEntry) (calls : list Logs.Call) :
  (Logs.hasRepeat prev = false →
   Logs.hasRepeat (Logs.addLog false now newId msg ty prev) = false)
  ∧ (Forall (λ c, Logs.call_debugMode c = false) calls →
     Logs.hasRepeat (Logs.run calls []) = false).
Proof. split; [apply addLog_hasRepeat | apply run_hasRepeat]. Qed.

Lemma console_log_consolidates_witness :
  Logs.addLog false "12:00:01" "k3x9q2a1b" "tick" info
    [ {| Logs.id := "a"; Logs.timestamp := "12:00:00";
         Logs.message := "tick"; Logs.type := info;
         Logs.count := None |} ]
  = [ {| Logs.id := "a"; Logs.timestamp := "12:00:01";
         Logs.message := "tick"; Logs.type := info;
         Logs.count := Some 2 |} ]
  ∧ Logs.hasRepeat
      (Logs.addLog false "12:00:01" "k3x9q2a1b" "tick" info
         [ {| Logs.id := "a"; Logs.timestamp := "12:00:00";
              Logs.message := "tick"; Logs.type := info;
              Logs.count := None |} ]) = false.
Proof.
  split; [reflexivity |].
  apply (proj1 (console_log_consolidates "12:00:01" "k3x9q2a1b" "tick" info
                  [ {| Logs.id := "a"; Logs.timestamp := "12:00:00";
                       Logs.message := "tick"; Logs.type := info;
                       Logs.count := None |} ] [])).
  reflexivity.
Defined.

(* ===================================================================== *)
(** * The cookie of the API key *)
(* ===================================================================== *)

Section Cookies.

Import storageService.

Lemma hasChar_cons (ch c : ascii) (s : string) :
  hasChar ch (String c s) = Ascii.eqb c ch || hasChar ch s.
Proof.
  unfold hasChar. cbn [allChars]. by destruct (Ascii.eqb c ch).
Qed.

Lemma hasChar_app (ch : ascii) (a b : string) :
  hasChar ch (a +:+ b) = hasChar ch a || hasChar ch b.
Proof.
  induction a as [| c a IH]; [done |].
  change (String c a +:+ b) with (String c (a +:+ b)).
  by rewrite !hasChar_cons, IH, orb_assoc.
Qed.

Lemma splitOn_none (sep : ascii) (s : string) :
  hasChar sep s = false → Str.splitOn sep s = [s].
Proof.
  induction s as [| c s IH]; [done |]. rewrite hasChar_cons.
  intros [Hc Hs]%orb_false_iff. cbn [Str.splitOn]. by rewrite Hc, IH.
Qed.

Lemma splitOn_app (sep : ascii) (a b : string) :
  hasChar sep a = false →
  Str.splitOn sep (a +:+ String sep b) = a :: Str.splitOn sep b.
Proof.
  induction a as [| c a IH].
  - intros _. change ("" +:+ String sep b) with (String sep b).
    cbn [Str.splitOn]. by rewrite Ascii.eqb_refl.
  - rewrite hasChar_cons. intros [Hc Ha]%orb_false_iff.
    change (String c a +:+ String sep b) with (String c (a +:+ String sep b)).
    cbn [Str.splitOn]. by rewrite Hc, IH.
Qed.

(** One cookie of the string. *)
Local Abbreviation pair_ p := (p.1 +:+ "=" +:+ p.2).

Lemma pair_no_semicolon (p : string * string) :
  wellFormed p = true → hasChar ";" (pair_ p) = false.
Proof.
  unfold wellFormed.
  intros [[[H1%negb_true_iff _]%andb_true_iff _]%andb_true_iff
           H2%negb_true_iff]%andb_true_iff.
  by rewrite !hasChar_app, H1, H2.
Qed.

(** The pieces of the cookie string: the first cookie as it is, every
    other one after a space. *)
Lemma splitOn_cookieString (p : string * string)
    (jar : list (string * string)) :
  Forall (λ p, wellFormed p = true) (p :: jar) →
  Str.splitOn ";" (cookieString (p :: jar))
  = pair_ p :: ((λ q, " " +:+ pair_ q) <$> jar).
Proof.
  revert p. induction jar as [| q jar IH]; intros p Hjar.
  - apply Forall_cons in Hjar as [Hp _]. unfold cookieString.
    cbn [fmap list_fmap String.concat].
    by rewrite splitOn_none by by apply pair_no_semicolon.
  - apply Forall_cons in Hjar as [Hp Hjar]. unfold cookieString in *.
    cbn [fmap list_fmap String.concat] in *.
    change ("; " +:+ ?s) with (String ";" (" " +:+ s)).
    rewrite splitOn_app by by apply pair_no_semicolon.
    f_equal.
    pose proof (IH q Hjar) as Hq. cbn [fmap list_fmap] in Hq |- *.
    destruct (Str.splitOn ";" _) as [| x xs] eqn:Hsplit in Hq; [done |].
    injection Hq as Hx Hxs.
    change (" " +:+ ?s) with (String " " s).
    cbn [Str.splitOn]. change (Ascii.eqb " " ";") with false. cbv iota.
    rewrite Hsplit. by rewrite Hx, Hxs.
Qed.

Lemma prefix_cons (a b : ascii) (s1 s2 : string) :
  String.prefix (String a s1) (String b s2)
  = Ascii.eqb a b && String.prefix s1 s2.
Proof.
  cbn [String.prefix].
  destruct (Ascii.ascii_dec a b) as [-> | Hne].
  - by rewrite Ascii.eqb_refl.
  - destruct (Ascii.eqb_spec a b); [by subst | done].
Qed.

Lemma append_cons (c : ascii) (a b : string) :
  String c a +:+ b = String c (a +:+ b).
Proof. done. Qed.

Lemma append_nil (b : string) : "" +:+ b = b.
Proof. done. Qed.

Lemma prefix_nil (s : string) : String.prefix "" s = true.
Proof. by destruct s. Qed.

Lemma prefix_name_cons (name n v : string) :
  hasChar "=" name = false → hasChar "=" n = false →
  String.prefix (name +:+ String "=" "") (n +:+ String "=" v)
  = String.eqb n name.
Proof.
  revert n. induction name as [| b name IH]; intros [| a n];
    rewrite ?hasChar_cons, ?append_cons, ?append_nil, ?prefix_cons,
      ?prefix_nil.
  - done.
  - intros _ [Ha _]%orb_false_iff. rewrite Ascii.eqb_sym, Ha. done.
  - intros [Hb _]%orb_false_iff _. rewrite Hb. done.
  - intros [_ Hname]%orb_false_iff [_ Hn]%orb_false_iff.
    rewrite IH by done. cbn [String.eqb]. rewrite (Ascii.eqb_sym a b).
    by destruct (Ascii.eqb b a).
Qed.

Lemma prefix_name (name n v : string) :
  hasChar "=" name = false → hasChar "=" n = false →
  String.prefix (name +:+ "=") (n +:+ "=" +:+ v) = String.eqb n name.
Proof. apply prefix_name_cons. Qed.

Lemma substring_whole (s : string) :
  String.substring 0 (String.length s) s = s.
Proof. induction s as [| c s IH]; [done |]. cbn. by rewrite IH. Qed.

Lemma substring_rest (a b : string) :
  String.substring (String.length a)
    (String.length (a +:+ b) - String.length a) (a +:+ b) = b.
Proof.
  induction a as [| c a IH].
  - cbn [String.length String.append]. rewrite Nat.sub_0_r.
    apply substring_whole.
  - exact IH.
Qed.

Lemma dropSpaces_pair (p : string * string) :
  wellFormed p = true → dropSpaces (pair_ p) = pair_ p.
Proof.
  unfold wellFormed.
  intros [[_ Hsp%negb_true_iff]%andb_true_iff _]%andb_true_iff.
  destruct p as [[| c n] v]; [done |]. cbn [fst snd] in *.
  rewrite append_cons. rewrite prefix_cons, prefix_nil, andb_true_r in Hsp.
  cbn [dropSpaces]. by rewrite Ascii.eqb_sym, Hsp.
Qed.

Lemma append_assoc (a b c : string) : (a +:+ b) +:+ c = a +:+ (b +:+ c).
Proof.
  induction a as [| x a IH]; [done |]. by rewrite !append_cons, IH.
Qed.

(** One turn of the loop, on a piece that holds a cookie. *)
Lemma findCookie_cons (name : string) (p : string * string) (c : string)
    (rest : list string) :
  hasChar "=" name = false → wellFormed p = true →
  dropSpaces c = pair_ p →
  findCookie (name +:+ "=") (c :: rest)
  = if String.eqb p.1 name then Some p.2
    else findCookie (name +:+ "=") rest.
Proof.
  intros Hname Hp Hc. cbn [findCookie]. rewrite Hc.
  rewrite prefix_name; [| done |].
  - destruct (String.eqb_spec p.1 name) as [<- | _]; [| done].
    f_equal. rewrite <- append_assoc. apply substring_rest.
  - unfold wellFormed in Hp.
    by apply andb_true_iff in Hp as
      [[[_ ?%negb_true_iff]%andb_true_iff _]%andb_true_iff _].
Qed.

Lemma findCookie_pieces (name : string) (jar : list (string * string)) :
  hasChar "=" name = false →
  Forall (λ p, wellFormed p = true) jar →
  findCookie (name +:+ "=") ((λ q, " " +:+ pair_ q) <$> jar)
  = firstValue name jar.
Proof.
  intros Hname. induction 1 as [| [n v] jar Hp _ IH]; [done |].
  cbn [fmap list_fmap firstValue].
  rewrite (findCookie_cons name (n, v)); [by rewrite IH | done | done |].
  change (" " +:+ ?s) with (String " " s). cbn [dropSpaces].
  change (Ascii.eqb " " " ") with true. cbv iota.
  by apply dropSpaces_pair.
Qed.

Lemma getCookie_firstValue (jar : list (string * string)) (name : string) :
  Forall (λ p, wellFormed p = true) jar →
  hasChar "=" name = false →
  getCookie (cookieString jar) name = firstValue name jar.
Proof.
  intros Hjar Hname. unfold getCookie.
  destruct jar as [| [n v] jar].
  - cbn. by destruct name.
  - rewrite splitOn_cookieString by done.
    pose proof Hjar as [Hp Hrest]%Forall_cons.
    rewrite (findCookie_cons name (n, v));
      [| done | done | by apply dropSpaces_pair].
    cbn [firstValue fst snd]. by rewrite findCookie_pieces.
Qed.

End Cookies.

(** X22: [getCookie] reads from a cookie string, the cookies [name=value]
    separated by a semicolon and a space, the value of the first cookie
    with the name asked for, and [null] when there is none, provided that
    no name or value holds a semicolon and no name an equals sign or a
    space at its start; a cookie whose name only ends with, or starts
    with, the name asked for is not mistaken for it. *)
Theorem getCookie_reads_the_jar (jar : list (string * string))
    (name : string) :
  Forall (λ p, storageService.wellFormed p = true) jar →
  storageService.hasChar "=" name = false →
  storageService.getCookie (storageService.cookieString jar) name
  = storageService.firstValue name jar.
Proof. apply getCookie_firstValue. Qed.

Lemma getCookie_reads_the_jar_witness :
  storageService.getCookie
    "my_ava_api_key=old; ava_api_key=c2VjcmV0; ava_api_key_2=x" "ava_api_key"
  = Some "c2VjcmV0".
Proof.
  apply (getCookie_reads_the_jar
           [("my_ava_api_key", "old"); ("ava_api_key", "c2VjcmV0");
            ("ava_api_key_2", "x")] "ava_api_key").
  - repeat constructor.
  - reflexivity.
Defined.

(* ===================================================================== *)
(** * The searches of the content script *)
(* ===================================================================== *)

Section Includes.

Lemma prefix_append (sub s : string) :
  String.prefix sub s = true ↔ ∃ b, s = sub +:+ b.
Proof.
  revert s. induction sub as [| c sub IH]; intros s.
  - rewrite prefix_nil. split; [intros _; by exists s | done].
  - destruct s as [| d s].
    + split; [done | by intros [b ?]].
    + rewrite prefix_cons, andb_true_iff, IH. split.
      * intros [Hc%Ascii.eqb_eq [b ->]]. subst. by exists b.
      * intros [b Hb]. rewrite append_cons in Hb. injection Hb as -> ->.
        split; [apply Ascii.eqb_refl | by exists b].
Qed.

(** [s.includes(sub)] finds [sub] somewhere in [s]. *)
Lemma includes_append (s sub : string) :
  Str.includes s sub = true ↔ ∃ a b, s = a +:+ sub +:+ b.
Proof.
  induction s as [| c s IH].
  - cbn [Str.includes]. rewrite orb_false_r, prefix_append. split.
    + intros [b ->]. by exists "", b.
    + intros ([| x a] & b & Hs); [by exists b | done].
  - cbn [Str.includes]. rewrite orb_true_iff, prefix_append, IH. split.
    + intros [[b ->] | (a & b & ->)]; [by exists "", b |].
      by exists (String c a), b.
    + intros ([| x a] & b & Hs); [left; by exists b |].
      rewrite append_cons in Hs. injection Hs as -> ->.
      right. by exists a, b.
Qed.

Lemma includes_refl (s : string) : Str.includes s s = true.
Proof.
  apply includes_append. exists "", "". rewrite append_nil.
  induction s as [| c s IH]; [done |]. by rewrite append_cons, <- IH.
Qed.

Lemma includes_trans (s k k' : string) :
  Str.includes s k = true → Str.includes k k' = true →
  Str.includes s k' = true.
Proof.
  rewrite !includes_append. intros (a & b & ->) (a' & b' & ->).
  exists (a +:+ a'), (b' +:+ b). by rewrite !append_assoc.
Qed.

End Includes.

Section NextButton.

Import content_school.

(** The test on the nine words is the test on the six short ones. *)
Lemma keyword_test (text : string) :
  existsb (λ k, String.eqb text k || Str.includes text k) nextKeywords
  = existsb (Str.includes text) shortKeywords.
Proof.
  assert (Heq : ∀ k, String.eqb text k || Str.includes text k
                     = Str.includes text k).
  { intros k. destruct (String.eqb_spec text k) as [-> | _]; [| done].
    by rewrite includes_refl. }
  unfold nextKeywords, shortKeywords. cbn [existsb]. rewrite !Heq.
  rewrite !orb_false_r.
  assert (Hsub : ∀ long short,
            Str.includes long short = true →
            Str.includes text long = true → Str.includes text short = true).
  { intros long short Hls Htl. by eapply includes_trans. }
  pose proof (Hsub "arrow_forward" "forward" eq_refl) as H1.
  pose proof (Hsub "submit answer" "submit" eq_refl) as H2.
  pose proof (Hsub "save & next" "next" eq_refl) as H3.
  destruct (Str.includes text "arrow_forward");
    destruct (Str.includes text "submit answer");
    destruct (Str.includes text "save & next");
    rewrite ?H1, ?H2, ?H3 by done;
    destruct (Str.includes text "next"), (Str.includes text "continue"),
      (Str.includes text "submit"), (Str.includes text "check"),
      (Str.includes text "confirm"), (Str.includes text "forward");
    done.
Qed.

Lemma nextLoop_step (i : nat) (btn : Element)
    (rest : list (nat * Element)) :
  nextLoop ((i, btn) :: rest)
  = if isNextButton btn then Some i else nextLoop rest.
Proof.
  cbn [nextLoop]. rewrite keyword_test. unfold isNextButton.
  destruct (existsb _ shortKeywords); [| done]. cbn [andb].
  by destruct (Str.includes (buttonText btn) "prev"),
       (Str.includes (buttonText btn) "back").
Qed.

Lemma nextLoop_first (k : nat) (buttons : list Element) :
  match nextLoop (imap (λ i, pair (k + i)) buttons) with
  | Some i =>
      ∃ before btn after,
        buttons = before ++ btn :: after
        ∧ i = k + length before
        ∧ isNextButton btn = true
        ∧ Forall (λ b, isNextButton b = false) before
  | None => Forall (λ b, isNextButton b = false) buttons
  end.
Proof.
  revert k. induction buttons as [| btn buttons IH]; intros k;
    [by constructor |].
  rewrite imap_cons, nextLoop_step, Nat.add_0_r.
  destruct (isNextButton btn) eqn:Hbtn.
  - exists [], btn, buttons. cbn. split_and!; [done | lia | done | done].
  - specialize (IH (S k)).
    rewrite (imap_ext _ (λ i, pair (S k + i))) by (intros; cbn; f_equal; lia).
    destruct (nextLoop _) as [i |].
    + destruct IH as (before & b & after & -> & -> & Hb & Hbefore).
      exists (btn :: before), b, after. cbn [length].
      split_and!; [done | lia | done | by constructor].
    + by constructor.
Qed.

End NextButton.

(** X23: [clickNextButton] clicks the first button, in document order,
    whose text (the inner text, or else the value; trimmed, in lower
    case) contains one of the words next, continue, submit, check,
    confirm and forward, and contains neither "prev" nor "back"; it
    returns false when there is no such button.  So it never clicks a
    button that mentions going back, and the three longer words of its
    list decide nothing. *)
Theorem clickNextButton_first_next_button
    (buttons : list content_school.Element) :
  match content_school.clickNextButton buttons with
  | Some i =>
      ∃ before btn after,
        buttons = before ++ btn :: after
        ∧ i = length before
        ∧ content_school.isNextButton btn = true
        ∧ Forall (λ b, content_school.isNextButton b = false) before
  | None => Forall (λ b, content_school.isNextButton b = false) buttons
  end.
Proof. apply (nextLoop_first 0 buttons). Qed.

Section OptionByText.

Import content_school.

Context (toLowerCase : string → string) (target : string).

Local Abbreviation len := (lowerLength toLowerCase).
Local Abbreviation exact := (isExact toLowerCase target).
Local Abbreviation candidate := (isCandidate toLowerCase target).

(** The case mapping keeps the length of the text of the element, when
    the element matches in part. *)
Local Abbreviation keeps := (λ e : Element,
  candidate e = true → rawLength e = len e).

Lemma Forall_but_last {A} (P : A → Prop) (s1 s2 : list A) (b e : A) :
  Forall P (s1 ++ b :: s2 ++ [e]) → Forall P (s1 ++ b :: s2).
Proof.
  rewrite !Forall_app, !Forall_cons, Forall_app. tauto.
Qed.

(** One turn of the loop. *)
Lemma selectLoop_step (i : nat) (el : Element) (rest : list (nat * Element))
    (best : option (nat * Element)) :
  selectLoop toLowerCase target ((i, el) :: rest) best
  = if exact el then Some (i, el)
    else if candidate el then
      selectLoop toLowerCase target rest
        match best with
        | Some (j, b) => if rawLength b <? len el then Some (i, el) else best
        | None => Some (i, el)
        end
    else selectLoop toLowerCase target rest best.
Proof.
  cbn [selectLoop].
  unfold isExact, isCandidate, eligible, lowerLength, rawLength.
  fold (elementText toLowerCase el).
  destruct (5 <? children el); cbn [negb andb]; [done |].
  destruct (String.eqb (elementText toLowerCase el) target); [done |].
  destruct (partialMatch target (elementText toLowerCase el)); [| done].
  destruct best as [[j b] |]; [| done].
  by destruct (_ <? _).
Qed.

(** What the loop has found so far among the elements that it has seen. *)
Local Abbreviation bestOf := (λ (seen : list Element)
    (best : option (nat * Element)),
  match best with
  | Some (j, b) =>
      ∃ s1 s2,
        seen = s1 ++ b :: s2 ∧ j = length s1
        ∧ candidate b = true
        ∧ (Forall keeps seen →
           Forall (λ e, candidate e = true → len e < len b) s1
           ∧ Forall (λ e, candidate e = true → len e ≤ len b) s2)
  | None => Forall (λ e, candidate e = false) seen
  end).

(** What the search returns among all elements. *)
Local Abbreviation found := (λ (elements : list Element)
    (res : option (nat * Element)),
  match res with
  | Some (i, el) =>
      ∃ before after,
        elements = before ++ el :: after ∧ i = length before
        ∧ (exact el = true ∧ Forall (λ e, exact e = false) before
           ∨ candidate el = true
             ∧ Forall (λ e, exact e = false) elements
             ∧ (Forall keeps elements →
                Forall (λ e, candidate e = true → len e < len el) before
                ∧ Forall (λ e, candidate e = true → len e ≤ len el) after))
  | None =>
      Forall (λ e, exact e = false ∧ candidate e = false) elements
  end).

Lemma selectLoop_found (seen rest : list Element)
    (best : option (nat * Element)) :
  Forall (λ e, exact e = false) seen →
  bestOf seen best →
  found (seen ++ rest)
    (selectLoop toLowerCase target
       (imap (λ i, pair (length seen + i)) rest) best).
Proof.
  revert seen best. induction rest as [| e rest IH]; intros seen best Hex Hb.
  - cbn [imap selectLoop]. rewrite app_nil_r.
    destruct best as [[j b] |].
    + destruct Hb as (s1 & s2 & -> & -> & Hc & Hlen).
      exists s1, s2. split_and!; [done | done |]. right. by split_and!.
    + rewrite Forall_forall in Hex, Hb |- *. intros x Hx. split; auto.
  - rewrite imap_cons, selectLoop_step, Nat.add_0_r.
    rewrite (imap_ext _ (λ i, pair (length (seen ++ [e]) + i)))
      by (intros; cbn; rewrite length_app; cbn; f_equal; lia).
    replace (seen ++ e :: rest) with ((seen ++ [e]) ++ rest)
      by (by rewrite <- app_assoc).
    destruct (exact e) eqn:Hexact.
    { rewrite <- app_assoc. exists seen, rest.
      split_and!; [done | done |]. left. by split. }
    assert (Hex' : Forall (λ e, exact e = false) (seen ++ [e]))
      by (apply Forall_app; split; [done | by apply Forall_singleton]).
    destruct (candidate e) eqn:Hcand.
    + apply IH; [done |].
      destruct best as [[j b] |].
      * destruct Hb as (s1 & s2 & -> & -> & Hc & Hlen).
        destruct (rawLength b <? len e) eqn:Hcmp.
        -- apply Nat.ltb_lt in Hcmp.
           exists (s1 ++ b :: s2), []. split_and!; [done | done | done |].
           intros Hkeep. apply Forall_app in Hkeep as [Hkeep _].
           destruct (Hlen Hkeep) as [H1 H2].
           assert (Hb : rawLength b = len b).
           { apply Forall_app in Hkeep as [_ Hkeep].
             apply Forall_cons in Hkeep as [Hkb _]. by apply Hkb. }
           split; [| constructor].
           apply Forall_app. split; [| constructor].
           ++ eapply Forall_impl; [exact H1 |]. cbv beta.
              intros x Hx Hcx. specialize (Hx Hcx). lia.
           ++ intros _. lia.
           ++ eapply Forall_impl; [exact H2 |]. cbv beta.
              intros x Hx Hcx. specialize (Hx Hcx). lia.
        -- apply Nat.ltb_ge in Hcmp.
           exists s1, (s2 ++ [e]). rewrite <- app_assoc.
           split_and!; [done | done | done |].
           intros Hkeep. apply Forall_but_last in Hkeep.
           destruct (Hlen Hkeep) as [H1 H2].
           assert (Hb : rawLength b = len b).
           { apply Forall_app in Hkeep as [_ Hkeep].
             apply Forall_cons in Hkeep as [Hkb _]. by apply Hkb. }
           split; [done |].
           apply Forall_app. split; [done |].
           apply Forall_singleton. intros _. lia.
      * exists seen, []. split_and!; [done | done | done |].
        intros _. split; [| constructor].
        eapply Forall_impl; [exact Hb |]. cbv beta.
        intros x Hx Hcx. congruence.
    + apply IH; [done |].
      destruct best as [[j b] |].
      * destruct Hb as (s1 & s2 & -> & -> & Hc & Hlen).
        exists s1, (s2 ++ [e]). rewrite <- app_assoc.
        split_and!; [done | done | done |].
        intros Hkeep. apply Forall_but_last in Hkeep.
        destruct (Hlen Hkeep) as [H1 H2].
        split; [done |].
        apply Forall_app. split; [done |].
        apply Forall_singleton. intros Hce. congruence.
      * apply Forall_app. split; [done | by apply Forall_singleton].
Qed.

End OptionByText.



(** A case mapping that makes a text longer, as [toLowerCase] does with
    U+0130: two texts of the same length match in part, and the later
    one replaces the earlier one, since its length in lower case is
    compared with the length of the earlier one as it is. *)
Lemma selectOptionByText_lengthening_case_mapping :
  let lower := λ s, String.append (Str.toLowerCase s) "~" in
  let page :=
    [ {| content_school.innerText := "In Paris";
         content_school.children := 0; content_school.value := None |};
      {| content_school.innerText := "to Paris";
         content_school.children := 0; content_school.value := None |} ] in
  Forall (λ e, content_school.isCandidate lower (lower "Paris") e = true
               ∧ content_school.lowerLength lower e = 9
               ∧ content_school.rawLength e = 8) page
  ∧ fst <$> content_school.selectOptionByText lower "Paris" page = Some 1.
Proof. vm_compute. split; [by repeat constructor | reflexivity]. Qed.

(* ===================================================================== *)
(** * The debug switch *)
(* ===================================================================== *)

Section DebugSwitch.

Lemma SameState_refl (w : World) : SameState w w.
Proof. by repeat split. Qed.

Lemma withoutDebugLogs_app (a b : list Event) :
  withoutDebugLogs (a ++ b) = withoutDebugLogs a ++ withoutDebugLogs b.
Proof. apply List.filter_app. Qed.

Lemma SameButDebug_fields (s1 s2 : AppSettings) :
  SameButDebug s1 s2 →
  triggerTime s1 = triggerTime s2
  ∧ triggerSmart s1 = triggerSmart s2
  ∧ triggerHybrid s1 = triggerHybrid s2
  ∧ scanIntervalMs s1 = scanIntervalMs s2
  ∧ smartScanSensitivity s1 = smartScanSensitivity s2
  ∧ confidenceThreshold s1 = confidenceThreshold s2
  ∧ autoSelect s1 = autoSelect s2
  ∧ autoNext s1 = autoNext s2
  ∧ simplifiedMode s1 = simplifiedMode s2
  ∧ modelName s1 = modelName s2
  ∧ speakAnswer s1 = speakAnswer s2
  ∧ apiKey s1 = apiKey s2
  ∧ externalContext s1 = externalContext s2.
Proof.
  intros H. split_and!.
  - exact (f_equal triggerTime H).
  - exact (f_equal triggerSmart H).
  - exact (f_equal triggerHybrid H).
  - exact (f_equal scanIntervalMs H).
  - exact (f_equal smartScanSensitivity H).
  - exact (f_equal confidenceThreshold H).
  - exact (f_equal autoSelect H).
  - exact (f_equal autoNext H).
  - exact (f_equal simplifiedMode H).
  - exact (f_equal modelName H).
  - exact (f_equal speakAnswer H).
  - exact (f_equal apiKey H).
  - exact (f_equal externalContext H).
Qed.

Lemma SameButDebug_withDebugMode (b1 b2 : bool) (s : AppSettings) :
  SameButDebug (withDebugMode b1 s) (withDebugMode b2 s).
Proof. done. Qed.

Lemma DebugOf_ret {A} (a : A) : DebugOf (ret a) (ret a).
Proof.
  intros env w1 w2 Hw. split_and!; [done | done |].
  exists []. cbn. by rewrite !app_nil_r.
Qed.

Lemma DebugOf_bind {A B} (m1 m2 : M A) (k1 k2 : A → M B) :
  DebugOf m1 m2 → (∀ a, DebugOf (k1 a) (k2 a)) →
  DebugOf (m1 ≫= k1) (m2 ≫= k2).
Proof.
  intros Hm Hk env w1 w2 Hw. rewrite !run_bind.
  destruct (Hm env w1 w2 Hw) as (Ha & Hw' & evs & Hv & Hq).
  rewrite Ha.
  destruct (Hk (m2 env w2).1 env _ _ Hw') as (Hb & Hw'' & evs' & Hv' & Hq').
  split_and!; [done | done |].
  exists (evs ++ evs').
  rewrite Hv', Hv, Hq', Hq, withoutDebugLogs_app, !app_assoc. done.
Qed.

(** A message behind a test of the switch: the quiet run skips it. *)
Lemma DebugOf_debug_log (b : bool) (msg1 msg2 : LogMessage)
    (ty1 ty2 : LogType) :
  isDebugMessage msg2 = true →
  DebugOf (when false (addLog msg1 ty1)) (when b (addLog msg2 ty2)).
Proof.
  intros Hmsg env w1 w2 Hw. destruct b; munfold; cbn.
  - split_and!; [done | done |].
    exists [EvLog ty2 msg2]. cbn. rewrite Hmsg. cbn.
    by rewrite app_nil_r.
  - split_and!; [done | done |]. exists []. cbn. by rewrite !app_nil_r.
Qed.

(** The same step on both sides, with events that are no debug
    messages. *)
Ltac same_prim :=
  intros env [r1 s1 c1 t1] [r2 s2 c2 t2] (Hr & Hs & Hc);
  cbn in Hr, Hs, Hc; subst r2 s2 c2;
  munfold; cbn;
  repeat match goal with
    | |- context [if ?b then _ else _] => destruct b; cbn
    end;
  (split_and!; [done | done |]);
  first
    [ by (exists []; cbn; rewrite !app_nil_r)
    | by (eexists [_]; cbn; split; reflexivity) ].

Lemma DebugOf_emit (e : Event) :
  isDebugLog e = false → DebugOf (emit e) (emit e).
Proof.
  intros He env [r1 s1 c1 t1] [r2 s2 c2 t2] (Hr & Hs & Hc).
  cbn in Hr, Hs, Hc. subst r2 s2 c2. munfold. cbn.
  split_and!; [done | done |]. exists [e]. cbn. by rewrite He.
Qed.

Lemma DebugOf_addLog (msg : LogMessage) (ty : LogType) :
  isDebugMessage msg = false → DebugOf (addLog msg ty) (addLog msg ty).
Proof. intros Hmsg. by apply DebugOf_emit. Qed.

Lemma DebugOf_modify (f : World → World) :
  (∀ w, trace (f w) = trace w) →
  (∀ w1 w2, SameState w1 w2 → SameState (f w1) (f w2)) →
  DebugOf (modify f) (modify f).
Proof.
  intros Htr Hf env w1 w2 Hw. munfold. cbn.
  split_and!; [done | by apply Hf |].
  exists []. cbn. by rewrite !Htr, !app_nil_r.
Qed.

Lemma DebugOf_with_refs (f : Refs → Refs) :
  DebugOf (modify (with_refs f)) (modify (with_refs f)).
Proof.
  apply DebugOf_modify; [done |].
  intros w1 w2 (Hr & Hs & Hc). unfold SameState. cbn. by rewrite Hr.
Qed.

Lemma DebugOf_with_react (f : ReactState → ReactState) :
  DebugOf (modify (with_react f)) (modify (with_react f)).
Proof.
  apply DebugOf_modify; [done |].
  intros w1 w2 (Hr & Hs & Hc). unfold SameState. cbn. by rewrite Hs.
Qed.

Lemma DebugOf_readRef {A} (cell : Refs → A) :
  DebugOf (readRef cell) (readRef cell).
Proof. same_prim. Qed.

Lemma DebugOf_captureFrame : DebugOf captureFrame captureFrame.
Proof. same_prim. Qed.

Lemma DebugOf_detectText (img : Frame) :
  DebugOf (detectText img) (detectText img).
Proof. same_prim. Qed.

Lemma DebugOf_generateContent (model : string) (probe : bool) :
  DebugOf (generateContent model probe) (generateContent model probe).
Proof. same_prim. Qed.

Lemma DebugOf_checkForNewQuestion (cur : Frame) (prev : option Frame) :
  DebugOf (checkForNewQuestion cur prev) (checkForNewQuestion cur prev).
Proof. same_prim. Qed.

Lemma DebugOf_verifySelection (img : Frame) (t : string) :
  DebugOf (verifySelection img t) (verifySelection img t).
Proof. same_prim. Qed.

Lemma DebugOf_sleep (ms : N) : DebugOf (sleep ms) (sleep ms).
Proof. same_prim. Qed.

Lemma DebugOf_postMessage (q : list Action) :
  DebugOf (postMessage q) (postMessage q).
Proof. same_prim. Qed.

Lemma DebugOf_JSON_parse (txt : string) :
  DebugOf (JSON_parse txt) (JSON_parse txt).
Proof. same_prim. Qed.

Lemma DebugOf_setTimeout (delay : N) :
  DebugOf (setTimeout delay) (setTimeout delay).
Proof. same_prim. Qed.

Create HintDb debug_switch.

Hint Resolve DebugOf_with_refs DebugOf_with_react DebugOf_readRef
  DebugOf_captureFrame DebugOf_detectText DebugOf_generateContent
  DebugOf_checkForNewQuestion DebugOf_verifySelection DebugOf_sleep
  DebugOf_postMessage DebugOf_JSON_parse DebugOf_setTimeout
  : debug_switch.

Ltac debug_step :=
  lazymatch goal with
  | |- DebugOf (mbind _ _) (mbind _ _) => apply DebugOf_bind; [| intros ?]
  | |- DebugOf (ret _) (ret _) => apply DebugOf_ret
  | |- DebugOf (mret _) (mret _) => apply DebugOf_ret
  | |- DebugOf (when false (addLog _ _)) (when _ (addLog _ _)) =>
      apply DebugOf_debug_log; reflexivity
  | |- DebugOf (addLog _ _) (addLog _ _) => apply DebugOf_addLog; reflexivity
  | |- DebugOf (emit _) (emit _) => apply DebugOf_emit; reflexivity
  | |- DebugOf (when ?b _) (when ?b _) =>
      destruct b; cbn [when]; [| apply DebugOf_ret]
  | |- DebugOf (if ?b then _ else _) _ => destruct b
  | |- DebugOf (match ?x with _ => _ end) _ => destruct x
  | |- DebugOf (let '(_, _) := ?x in _) _ => destruct x
  | |- _ => solve [auto with debug_switch]
  end.
Ltac debug_steps := repeat debug_step.

Lemma DebugOf_attemptLoop (fuel : nat) (onProgress : bool) (attempt : nat)
    (currentModel : string) :
  DebugOf (attemptLoop fuel false attempt currentModel)
          (attemptLoop fuel onProgress attempt currentModel).
Proof.
  revert attempt currentModel.
  induction fuel as [| fuel IH]; intros attempt currentModel;
    cbn [attemptLoop]; debug_steps.
Qed.

Lemma DebugOf_analyzeScreenFrame (model : string) (onProgress : bool)
    (context : list ExternalContext) :
  DebugOf (analyzeScreenFrame model false context)
          (analyzeScreenFrame model onProgress context).
Proof.
  unfold analyzeScreenFrame. debug_steps. apply DebugOf_attemptLoop.
Qed.

Lemma DebugOf_autoPilotAttempt (opt : QuestionOption) (attempts : nat)
    (verified : bool) :
  DebugOf (autoPilotAttempt opt attempts verified)
          (autoPilotAttempt opt attempts verified).
Proof. unfold autoPilotAttempt. debug_steps. Qed.

Lemma DebugOf_autoPilotLoop (fuel : nat) (opt : QuestionOption)
    (attempts : nat) (verified : bool) :
  DebugOf (autoPilotLoop fuel opt attempts verified)
          (autoPilotLoop fuel opt attempts verified).
Proof.
  revert attempts verified.
  induction fuel as [| fuel IH]; intros attempts verified;
    cbn [autoPilotLoop]; debug_steps. apply DebugOf_autoPilotAttempt.
Qed.

Lemma DebugOf_handleAutoPilot (opt : QuestionOption)
    (nextButtonBox : option BoundingBox) (clickNext : bool) :
  DebugOf (handleAutoPilot opt nextButtonBox clickNext)
          (handleAutoPilot opt nextButtonBox clickNext).
Proof. unfold handleAutoPilot. debug_steps. apply DebugOf_autoPilotLoop. Qed.

(** Below, [quiet] is a value of the settings with the switch off and
    [verbose] one that differs from it in the switch at most. *)
Context (quiet verbose : AppSettings).
Hypothesis Hsame : SameButDebug quiet verbose.
Hypothesis Hquiet : debugMode quiet = false.

Ltac same_fields :=
  destruct (SameButDebug_fields _ _ Hsame)
    as (Ht & Hsm & Hh & Hi & Hse & Hct & Has & Han & Hsi & Hmo & Hsp & Hk
        & Hx);
  rewrite ?Hquiet, ?Ht, ?Hsm, ?Hh, ?Hi, ?Hse, ?Hct, ?Has, ?Han, ?Hsi, ?Hmo,
    ?Hsp, ?Hk, ?Hx.

Lemma DebugOf_speakAnswerOf (result : AnalysisResult) :
  DebugOf (speakAnswerOf quiet result) (speakAnswerOf verbose result).
Proof. unfold speakAnswerOf. same_fields. debug_steps. Qed.

Lemma DebugOf_autoSelectArm (result : AnalysisResult) :
  DebugOf (autoSelectArm quiet result) (autoSelectArm verbose result).
Proof.
  unfold autoSelectArm. same_fields. debug_steps.
  apply DebugOf_handleAutoPilot.
Qed.

Lemma DebugOf_reportResult (img : Frame) (result : AnalysisResult) :
  DebugOf (reportResult quiet img result) (reportResult verbose img result).
Proof.
  unfold reportResult, activeModelOf. cbv zeta. same_fields. debug_steps.
  apply DebugOf_speakAnswerOf.
Qed.

Lemma DebugOf_handleResult (img : Frame) (result : AnalysisResult) :
  DebugOf (handleResult quiet img result) (handleResult verbose img result).
Proof.
  unfold handleResult. debug_steps;
    auto using DebugOf_reportResult, DebugOf_autoSelectArm.
Qed.

Lemma DebugOf_beginAnalysis (img : Frame) (shouldFlash : bool) :
  DebugOf (beginAnalysis quiet img shouldFlash)
          (beginAnalysis verbose img shouldFlash).
Proof.
  unfold beginAnalysis. same_fields. debug_steps.
  apply DebugOf_analyzeScreenFrame.
Qed.

Lemma DebugOf_performAnalysis (img : Frame) (shouldFlash : bool) :
  DebugOf (performAnalysis quiet img shouldFlash)
          (performAnalysis verbose img shouldFlash).
Proof.
  unfold performAnalysis. same_fields. debug_steps;
    auto using DebugOf_beginAnalysis, DebugOf_handleResult.
Qed.

Lemma DebugOf_afterCheck (img : Frame) (r : CheckResult) :
  DebugOf (afterCheck quiet img r) (afterCheck verbose img r).
Proof.
  unfold afterCheck. same_fields. debug_steps.
  apply DebugOf_performAnalysis.
Qed.

Lemma DebugOf_watchdog (img : Frame) :
  DebugOf (watchdog quiet img) (watchdog verbose img).
Proof. unfold watchdog. debug_steps. apply DebugOf_afterCheck. Qed.

Lemma DebugOf_hybridGate (img : Frame) :
  DebugOf (hybridGate quiet img) (hybridGate verbose img).
Proof. unfold hybridGate. cbv zeta. same_fields. debug_steps. Qed.

Lemma DebugOf_tickBody : DebugOf (tickBody quiet) (tickBody verbose).
Proof.
  unfold tickBody. same_fields. debug_steps;
    auto using DebugOf_performAnalysis, DebugOf_hybridGate,
      DebugOf_watchdog.
Qed.

Lemma DebugOf_runAutomationLoop (stream : bool) :
  DebugOf (runAutomationLoop quiet stream)
          (runAutomationLoop verbose stream).
Proof.
  unfold runAutomationLoop. debug_steps. apply DebugOf_tickBody.
Qed.

End DebugSwitch.

(** X25: the debug switch of the settings changes nothing in a tick but
    the calls of [addLog].  A tick run with [debugMode] on leaves the same
    cells, the same React state and the same scripts as the tick run with
    it off from the same world, and the events of the tick with it off
    are the events of the tick with it on without the calls of [addLog]
    for the four kinds of debug messages (attempt progress, local OCR
    scan, no question found, OCR figures): the same calls to the
    collaborators, the same posted sequences, the same timer and the same
    other calls of [addLog], in the same order.  What [addLog] makes of
    its calls in the console, where it merges repeated entries outside
    debug mode only, is the matter of [Logs.addLog]. *)
Theorem debug_mode_only_adds_log_calls (env : Env)
    (settings : AppSettings) (stream : bool) (w : World) :
  let quiet :=
    (runAutomationLoop (withDebugMode false settings) stream env w).2 in
  let verbose :=
    (runAutomationLoop (withDebugMode true settings) stream env w).2 in
  refs verbose = refs quiet
  ∧ react verbose = react quiet
  ∧ cursors verbose = cursors quiet
  ∧ ∃ evs,
      trace verbose = trace w ++ evs
      ∧ trace quiet = trace w ++ withoutDebugLogs evs.
Proof.
  intros quiet verbose.
  destruct (DebugOf_runAutomationLoop (withDebugMode false settings)
              (withDebugMode true settings)
              (SameButDebug_withDebugMode false true settings) eq_refl
              stream env w w (SameState_refl w))
    as (_ & (Hr & Hs & Hc) & evs & Hv & Hq).
  split_and!; [done | done | done |]. by exists evs.
Qed.

(** The switch does add calls: on a timed tick that finds a question,
    [addLog] is called twice more in debug mode, and nothing else
    differs. *)
Lemma debug_mode_timed_tick :
  let w := runningWorld timedSettings in
  let quiet :=
    (runAutomationLoop (withDebugMode false timedSettings) true
       newQuestionEnv w).2 in
  let verbose :=
    (runAutomationLoop (withDebugMode true timedSettings) true
       newQuestionEnv w).2 in
  count isLog (trace verbose) = count isLog (trace quiet) + 2
  ∧ withoutDebugLogs (trace verbose) = trace quiet.
Proof. vm_compute. split; reflexivity. Qed.

(* ===================================================================== *)
(** * The tasks and the state monad agree *)
(* ===================================================================== *)

Section TasksAgree.

Lemma run_bind_task {A B} (t : Tasks.Task A) (k : A → Tasks.Task B)
    (env : Env) (w : World) :
  Tasks.run (t ≫= k) env w
  = Tasks.run (k (Tasks.run t env w).1) env (Tasks.run t env w).2.
Proof.
  revert w. induction t as [a | C m k' IH | p t IH]; intros w.
  - done.
  - change (Tasks.run (Tasks.Sync m (λ b, k' b ≫= k)) env w
            = Tasks.run (k (Tasks.run (Tasks.Sync m k') env w).1) env
                (Tasks.run (Tasks.Sync m k') env w).2).
    cbn [Tasks.run]. rewrite !run_bind. apply IH.
  - change (Tasks.run (Tasks.Suspend p (t ≫= k)) env w
            = Tasks.run (k (Tasks.run (Tasks.Suspend p t) env w).1) env
                (Tasks.run (Tasks.Suspend p t) env w).2).
    cbn [Tasks.run]. rewrite !run_bind. apply IH.
Qed.

Lemma Agrees_ret {A} (a : A) : Agrees (mret a) (ret a).
Proof. by intros env w. Qed.

Lemma Agrees_bind {A B} (t : Tasks.Task A) (m : M A)
    (k : A → Tasks.Task B) (k' : A → M B) :
  Agrees t m → (∀ a, Agrees (k a) (k' a)) → Agrees (t ≫= k) (m ≫= k').
Proof.
  intros Ht Hk env w. rewrite run_bind_task, run_bind, Ht. apply Hk.
Qed.

Lemma Agrees_sync {A} (m : M A) : Agrees (Tasks.sync m) m.
Proof.
  intros env w. unfold Tasks.sync. cbn [Tasks.run]. rewrite run_bind.
  by destruct (m env w).
Qed.

(** The collaborators, each by unfolding. *)
Lemma Agrees_detectText (img : Frame) :
  Agrees (Tasks.detectText img) (detectText img).
Proof. intros env w. reflexivity. Qed.

Lemma Agrees_generateContent (model : string) (probe : bool) :
  Agrees (Tasks.generateContent model probe) (generateContent model probe).
Proof. intros env w. reflexivity. Qed.

Lemma Agrees_checkForNewQuestion (cur : Frame) (prev : option Frame) :
  Agrees (Tasks.checkForNewQuestion cur prev) (checkForNewQuestion cur prev).
Proof. intros env w. reflexivity. Qed.

Lemma Agrees_verifySelection (img : Frame) (t : string) :
  Agrees (Tasks.verifySelection img t) (verifySelection img t).
Proof. intros env w. reflexivity. Qed.

Lemma Agrees_sleep (ms : N) : Agrees (Tasks.sleep ms) (sleep ms).
Proof. intros env w. reflexivity. Qed.

Create HintDb agrees.

Hint Resolve Agrees_sync Agrees_detectText Agrees_generateContent
  Agrees_checkForNewQuestion Agrees_verifySelection Agrees_sleep : agrees.

Ltac agrees_step :=
  lazymatch goal with
  | |- Agrees (mbind _ _) (mbind _ _) => apply Agrees_bind; [| intros ?]
  | |- Agrees (mret _) (ret _) => apply Agrees_ret
  | |- Agrees (mret _) (mret _) => apply Agrees_ret
  | |- Agrees (Tasks.sync _) _ => apply Agrees_sync
  | |- Agrees (if ?b then _ else _) _ => destruct b; cbn [when]
  | |- Agrees (match ?x with _ => _ end) _ => destruct x
  | |- Agrees (let '(_, _) := ?x in _) _ => destruct x
  | |- _ => solve [auto with agrees]
  end.
Ltac agrees := repeat agrees_step.

Lemma Agrees_attemptLoop (fuel : nat) (onProgress : bool) (attempt : nat)
    (currentModel : string) :
  Agrees (Tasks.attemptLoop fuel onProgress attempt currentModel)
         (attemptLoop fuel onProgress attempt currentModel).
Proof.
  revert attempt currentModel.
  induction fuel as [| fuel IH]; intros attempt currentModel;
    cbn [Tasks.attemptLoop attemptLoop]; agrees.
Qed.

Lemma Agrees_analyzeScreenFrame (model : string) (onProgress : bool)
    (context : list ExternalContext) :
  Agrees (Tasks.analyzeScreenFrame model onProgress context)
         (analyzeScreenFrame model onProgress context).
Proof.
  unfold Tasks.analyzeScreenFrame, analyzeScreenFrame. agrees.
  apply Agrees_attemptLoop.
Qed.

Lemma Agrees_autoPilotAttempt (opt : QuestionOption) (attempts : nat)
    (verified : bool) :
  Agrees (Tasks.autoPilotAttempt opt attempts verified)
         (autoPilotAttempt opt attempts verified).
Proof. unfold Tasks.autoPilotAttempt, autoPilotAttempt. agrees. Qed.

Lemma Agrees_autoPilotLoop (fuel : nat) (opt : QuestionOption)
    (attempts : nat) (verified : bool) :
  Agrees (Tasks.autoPilotLoop fuel opt attempts verified)
         (autoPilotLoop fuel opt attempts verified).
Proof.
  revert attempts verified.
  induction fuel as [| fuel IH]; intros attempts verified;
    cbn [Tasks.autoPilotLoop autoPilotLoop]; agrees.
  apply Agrees_autoPilotAttempt.
Qed.

Lemma Agrees_handleAutoPilot (opt : QuestionOption)
    (nextButtonBox : option BoundingBox) (clickNext : bool) :
  Agrees (Tasks.handleAutoPilot opt nextButtonBox clickNext)
         (handleAutoPilot opt nextButtonBox clickNext).
Proof.
  unfold Tasks.handleAutoPilot, handleAutoPilot. agrees.
  apply Agrees_autoPilotLoop.
Qed.

Lemma Agrees_autoSelectArm (settings : AppSettings)
    (result : AnalysisResult) :
  Agrees (Tasks.autoSelectArm settings result)
         (autoSelectArm settings result).
Proof.
  unfold Tasks.autoSelectArm, autoSelectArm. agrees.
  apply Agrees_handleAutoPilot.
Qed.

Lemma Agrees_handleResult (settings : AppSettings) (img : Frame)
    (result : AnalysisResult) :
  Agrees (Tasks.handleResult settings img result)
         (handleResult settings img result).
Proof.
  unfold Tasks.handleResult, handleResult. agrees.
  apply Agrees_autoSelectArm.
Qed.

Lemma Agrees_beginAnalysis (settings : AppSettings) (img : Frame)
    (shouldFlash : bool) :
  Agrees (Tasks.beginAnalysis settings img shouldFlash)
         (beginAnalysis settings img shouldFlash).
Proof.
  unfold Tasks.beginAnalysis, beginAnalysis. agrees.
  apply Agrees_analyzeScreenFrame.
Qed.

Lemma Agrees_performAnalysis (settings : AppSettings) (img : Frame)
    (shouldFlash : bool) :
  Agrees (Tasks.performAnalysis settings img shouldFlash)
         (performAnalysis settings img shouldFlash).
Proof.
  unfold Tasks.performAnalysis, performAnalysis. agrees;
    auto using Agrees_beginAnalysis, Agrees_handleResult.
Qed.

Lemma Agrees_hybridGate (settings : AppSettings) (img : Frame) :
  Agrees (Tasks.hybridGate settings img) (hybridGate settings img).
Proof. unfold Tasks.hybridGate, hybridGate. cbv zeta. agrees. Qed.

Lemma Agrees_afterCheck (settings : AppSettings) (img : Frame)
    (r : CheckResult) :
  Agrees (Tasks.afterCheck settings img r) (afterCheck settings img r).
Proof.
  unfold Tasks.afterCheck, afterCheck. agrees.
  apply Agrees_performAnalysis.
Qed.

Lemma Agrees_watchdog (settings : AppSettings) (img : Frame) :
  Agrees (Tasks.watchdog settings img) (watchdog settings img).
Proof. unfold Tasks.watchdog, watchdog. agrees. apply Agrees_afterCheck. Qed.

Lemma Agrees_tickBody (settings : AppSettings) :
  Agrees (Tasks.tickBody settings) (tickBody settings).
Proof.
  unfold Tasks.tickBody, tickBody. agrees;
    auto using Agrees_performAnalysis, Agrees_hybridGate, Agrees_watchdog.
Qed.

(** The task of a tick, run alone to its end, is the tick of the state
    monad. *)
Lemma Agrees_runAutomationLoop (settings : AppSettings) (stream : bool) :
  Agrees (Tasks.runAutomationLoop settings stream)
         (runAutomationLoop settings stream).
Proof.
  unfold Tasks.runAutomationLoop, runAutomationLoop. agrees.
  apply Agrees_tickBody.
Qed.

End TasksAgree.

(* ===================================================================== *)
(** * The busy flag while an analysis is pending *)
(* ===================================================================== *)

Section BusyFlag.

Lemma suspensions_bind {A B} (t : Tasks.Task A) (k : A → Tasks.Task B)
    (env : Env) (w : World) :
  Tasks.suspensions (t ≫= k) env w
  = Tasks.suspensions t env w
    ++ Tasks.suspensions (k (Tasks.run t env w).1) env
         (Tasks.run t env w).2.
Proof.
  revert w. induction t as [a | C m k' IH | p t IH]; intros w.
  - done.
  - change (Tasks.suspensions (Tasks.Sync m (λ b, k' b ≫= k)) env w
            = Tasks.suspensions (Tasks.Sync m k') env w
              ++ Tasks.suspensions
                   (k (Tasks.run (Tasks.Sync m k') env w).1) env
                   (Tasks.run (Tasks.Sync m k') env w).2).
    cbn [Tasks.suspensions Tasks.run]. rewrite !run_bind.
    destruct (m env w) as [b w']. apply IH.
  - change (Tasks.suspensions (Tasks.Suspend p (t ≫= k)) env w
            = Tasks.suspensions (Tasks.Suspend p t) env w
              ++ Tasks.suspensions
                   (k (Tasks.run (Tasks.Suspend p t) env w).1) env
                   (Tasks.run (Tasks.Suspend p t) env w).2).
    cbn [Tasks.suspensions Tasks.run]. rewrite !run_bind.
    rewrite <- app_comm_cons. f_equal. apply IH.
Qed.

Lemma suspensions_sync {A} (m : M A) (env : Env) (w : World) :
  Tasks.suspensions (Tasks.sync m) env w = [].
Proof.
  unfold Tasks.sync. cbn [Tasks.suspensions]. by destruct (m env w).
Qed.

Lemma StaysBusy_ret {A} (a : A) : StaysBusy (mret a).
Proof. intros env w Hw. split; [constructor | done]. Qed.

Lemma StaysBusy_bind {A B} (t : Tasks.Task A) (k : A → Tasks.Task B) :
  StaysBusy t → (∀ a, StaysBusy (k a)) → StaysBusy (t ≫= k).
Proof.
  intros Ht Hk env w Hw.
  destruct (Ht env w Hw) as [Hs Hend].
  destruct (Hk (Tasks.run t env w).1 env _ Hend) as [Hs' Hend'].
  rewrite suspensions_bind, run_bind_task. split; [| done].
  apply Forall_app. by split.
Qed.

Lemma StaysBusy_sync {A} (m : M A) :
  (∀ env w, SameBusy w (m env w).2) → StaysBusy (Tasks.sync m).
Proof.
  intros Hm env w Hw. rewrite suspensions_sync, Agrees_sync.
  split; [constructor |]. unfold busy. by rewrite Hm.
Qed.

Lemma StaysBusy_suspend (p : Tasks.Pending) : StaysBusy (Tasks.suspend p).
Proof.
  intros env w Hw. unfold Tasks.suspend, busy in *.
  cbn [Tasks.suspensions Tasks.run]. rewrite run_bind.
  split; [by repeat constructor |].
  unfold await. cbn. by destruct (stoppedDuring env _).
Qed.

(** Synchronous code that leaves the flag alone. *)
Ltac same_busy :=
  intros ? ?; unfold SameBusy;
  first
    [ done
    | by (munfold; cbn; repeat match goal with
                          | |- context [if ?b then _ else _] => destruct b
                          | |- context [match ?x with _ => _ end] =>
                              destruct x
                          end) ].

Lemma SameBusy_reportResult (settings : AppSettings) (img : Frame)
    (result : AnalysisResult) (env : Env) (w : World) :
  SameBusy w (reportResult settings img result env w).2.
Proof.
  apply (Keeps_reportResult (λ _, SameBusy) (λ _, True)); frame_side.
Qed.

Ltac busy_step :=
  lazymatch goal with
  | |- StaysBusy (mbind _ _) => apply StaysBusy_bind; [| intros ?]
  | |- StaysBusy (mret _) => apply StaysBusy_ret
  | |- StaysBusy (Tasks.suspend _) => apply StaysBusy_suspend
  | |- StaysBusy (Tasks.sync (reportResult _ _ _)) =>
      apply StaysBusy_sync; intros; apply SameBusy_reportResult
  | |- StaysBusy (Tasks.sync _) => apply StaysBusy_sync; same_busy
  | |- StaysBusy (if ?b then _ else _) => destruct b
  | |- StaysBusy (match ?x with _ => _ end) => destruct x
  | |- _ => solve [auto]
  end.
Ltac stays_busy := repeat busy_step.

Lemma StaysBusy_detectText (img : Frame) : StaysBusy (Tasks.detectText img).
Proof. unfold Tasks.detectText. stays_busy. Qed.

Lemma StaysBusy_generateContent (model : string) (probe : bool) :
  StaysBusy (Tasks.generateContent model probe).
Proof. unfold Tasks.generateContent. stays_busy. Qed.

Lemma StaysBusy_verifySelection (img : Frame) (t : string) :
  StaysBusy (Tasks.verifySelection img t).
Proof. unfold Tasks.verifySelection. stays_busy. Qed.

Lemma StaysBusy_sleep (ms : N) : StaysBusy (Tasks.sleep ms).
Proof. unfold Tasks.sleep. stays_busy. Qed.

Lemma StaysBusy_attemptLoop (fuel : nat) (onProgress : bool) (attempt : nat)
    (currentModel : string) :
  StaysBusy (Tasks.attemptLoop fuel onProgress attempt currentModel).
Proof.
  revert attempt currentModel.
  induction fuel as [| fuel IH]; intros attempt currentModel;
    cbn [Tasks.attemptLoop]; stays_busy;
    auto using StaysBusy_generateContent, StaysBusy_sleep.
Qed.

Lemma StaysBusy_analyzeScreenFrame (model : string) (onProgress : bool)
    (context : list ExternalContext) :
  StaysBusy (Tasks.analyzeScreenFrame model onProgress context).
Proof.
  unfold Tasks.analyzeScreenFrame. stays_busy. apply StaysBusy_attemptLoop.
Qed.

Lemma StaysBusy_autoPilotAttempt (opt : QuestionOption) (attempts : nat)
    (verified : bool) :
  StaysBusy (Tasks.autoPilotAttempt opt attempts verified).
Proof.
  unfold Tasks.autoPilotAttempt. stays_busy;
    auto using StaysBusy_sleep, StaysBusy_verifySelection.
Qed.

Lemma StaysBusy_autoPilotLoop (fuel : nat) (opt : QuestionOption)
    (attempts : nat) (verified : bool) :
  StaysBusy (Tasks.autoPilotLoop fuel opt attempts verified).
Proof.
  revert attempts verified.
  induction fuel as [| fuel IH]; intros attempts verified;
    cbn [Tasks.autoPilotLoop]; stays_busy.
  apply StaysBusy_autoPilotAttempt.
Qed.

Lemma StaysBusy_handleAutoPilot (opt : QuestionOption)
    (nextButtonBox : option BoundingBox) (clickNext : bool) :
  StaysBusy (Tasks.handleAutoPilot opt nextButtonBox clickNext).
Proof.
  unfold Tasks.handleAutoPilot. stays_busy. apply StaysBusy_autoPilotLoop.
Qed.

Lemma StaysBusy_autoSelectArm (settings : AppSettings)
    (result : AnalysisResult) :
  StaysBusy (Tasks.autoSelectArm settings result).
Proof.
  unfold Tasks.autoSelectArm. stays_busy. apply StaysBusy_handleAutoPilot.
Qed.

Lemma StaysBusy_handleResult (settings : AppSettings) (img : Frame)
    (result : AnalysisResult) :
  StaysBusy (Tasks.handleResult settings img result).
Proof.
  unfold Tasks.handleResult. stays_busy. apply StaysBusy_autoSelectArm.
Qed.

(** [beginAnalysis] raises the flag before its first [await]. *)
Lemma beginAnalysis_busy (env : Env) (settings : AppSettings)
    (img : Frame) (shouldFlash : bool) (w : World) :
  Forall (λ s, busy s.2)
    (Tasks.suspensions (Tasks.beginAnalysis settings img shouldFlash) env w)
  ∧ busy (Tasks.run (Tasks.beginAnalysis settings img shouldFlash) env w).2.
Proof.
  unfold Tasks.beginAnalysis.
  rewrite suspensions_bind, run_bind_task, suspensions_sync, Agrees_sync.
  cbn [app].
  lazymatch goal with
  | |- Forall _ (Tasks.suspensions ?t _ _) ∧ _ =>
      enough (H : StaysBusy t) by (by apply H)
  end.
  stays_busy; auto using StaysBusy_detectText, StaysBusy_analyzeScreenFrame.
Qed.

(** [performAnalysis] raises the flag before its first [await], and
    nothing that it calls lowers it: the flag is up at every point where
    the analysis is suspended. *)
Lemma performAnalysis_busy (env : Env) (settings : AppSettings)
    (img : Frame) (shouldFlash : bool) (w : World) :
  Forall (λ s, busy s.2)
    (Tasks.suspensions (Tasks.performAnalysis settings img shouldFlash)
       env w).
Proof.
  unfold Tasks.performAnalysis.
  destruct (negb (truthy (apiKey settings))).
  { rewrite suspensions_bind, !suspensions_sync. constructor. }
  destruct (beginAnalysis_busy env settings img shouldFlash w) as [Hs Hend].
  rewrite suspensions_bind. apply Forall_app. split; [exact Hs |].
  rewrite suspensions_bind, suspensions_bind, !suspensions_sync.
  rewrite !app_nil_r.
  by apply (StaysBusy_handleResult settings img).
Qed.

End BusyFlag.

(* ===================================================================== *)
(** * A task that is left alone *)
(* ===================================================================== *)

Section Alone.

Context (env : Env).

(** A task run up to its first suspension point, and what is left of its
    run. *)
Lemma advance_run (t : Tasks.Task unit) (w : World) :
  match Tasks.advance t env w with
  | (w1, None) =>
      (Tasks.run t env w).2 = w1 ∧ Tasks.suspensions t env w = []
  | (w1, Some (p, k)) =>
      (Tasks.run t env w).2 = (Tasks.run k env (await env w1).2).2
      ∧ Tasks.suspensions t env w
        = (p, w1) :: Tasks.suspensions k env (await env w1).2
  end.
Proof.
  revert w. induction t as [a | C m k' IH | p t IH]; intros w.
  - done.
  - cbn [Tasks.advance Tasks.run Tasks.suspensions]. rewrite run_bind.
    destruct (m env w) as [b w']. apply IH.
  - cbn [Tasks.advance Tasks.run Tasks.suspensions]. by rewrite run_bind.
Qed.

(** The only suspended task goes on: as if what is left of it were
    called after the [await]. *)
Lemma settle_single (p : Tasks.Pending) (k : Tasks.Task unit) (w : World) :
  Tasks.step env {| Tasks.world := w; Tasks.suspended := [(p, k)] |}
    (Tasks.Settle 0)
  = Tasks.step env
      {| Tasks.world := (await env w).2; Tasks.suspended := [] |}
      (Tasks.Fire k).
Proof.
  unfold Tasks.step. cbn [Tasks.suspended Tasks.world lookup list_lookup].
  cbn [Tasks.advance]. destruct (await env w) as [[] w2]. cbn [snd].
  by destruct (Tasks.advance k env w2) as [w3 [s |]].
Qed.

Lemma fire_first (t : Tasks.Task unit) (w : World) :
  Tasks.step env {| Tasks.world := w; Tasks.suspended := [] |}
    (Tasks.Fire t)
  = {| Tasks.world := (Tasks.advance t env w).1;
       Tasks.suspended := option_list (Tasks.advance t env w).2 |}.
Proof.
  unfold Tasks.step. cbn [Tasks.world Tasks.suspended app].
  by destruct (Tasks.advance t env w).
Qed.

(** When the handler of an event is called and nothing else happens
    until its task has ended, the page is left as the state monad says. *)
Lemma play_alone (t : Tasks.Task unit) (w : World) :
  Tasks.play env
    (Tasks.Fire t
     :: replicate (length (Tasks.suspensions t env w)) (Tasks.Settle 0))
    {| Tasks.world := w; Tasks.suspended := [] |}
  = {| Tasks.world := (Tasks.run t env w).2; Tasks.suspended := [] |}.
Proof.
  remember (length (Tasks.suspensions t env w)) as n eqn:Hn.
  revert t w Hn. induction n as [| n IH]; intros t w Hn;
    pose proof (advance_run t w) as Hadv;
    unfold Tasks.play in *; cbn [replicate foldl];
    rewrite fire_first;
    destruct (Tasks.advance t env w) as [w1 [[p k] |]];
    cbn [fst snd]; unfold option_list; cbn [option_rect].
  - destruct Hadv as [_ Hs]. by rewrite Hs in Hn.
  - by destruct Hadv as [-> _].
  - destruct Hadv as [Hrun Hs]. rewrite Hs in Hn. injection Hn as Hn.
    rewrite settle_single, Hrun. apply (IH k _ Hn).
  - destruct Hadv as [_ Hs]. by rewrite Hs in Hn.
Qed.

End Alone.

(* ===================================================================== *)
(** * The result of a call that returns to a stopped session *)
(* ===================================================================== *)

Section ResultsApplied.

Context (env : Env) (settings : AppSettings) (img : Frame).

(** What the tick does with the answer "new" of the change oracle, in
    whatever state the answer finds the session. *)
Lemma afterCheck_new (r : CheckResult) (w : World) :
  truthy (check_error r) = false → isNew r = true →
  let w' := (afterCheck settings img r env w).2 in
  lastScreenshotRef (refs w') = Some img
  ∧ lastOcrTextRef (refs w')
    = (if triggerHybrid settings then lastOcrTextRef (refs w)
       else currentText r)
  ∧ (truthy (apiKey settings) = true →
     count isDetect (trace w') = count isDetect (trace w) + 1
     ∧ count isAnalyze (trace w') = count isAnalyze (trace w) + 1
     ∧ ∃ w2,
         cursors w2 = cursors w
         ∧ lastResult (react w')
           = Some (beginAnalysis settings img false env w2).1).
Proof.
  intros Herr Hnew. cbv zeta. unfold afterCheck. rewrite Herr, Hnew.
  rewrite !run_bind.
  set (w2 := (when (negb (triggerHybrid settings)) _ env _).2).
  assert (Hw2 : lastScreenshotRef (refs w2) = Some img
                ∧ lastOcrTextRef (refs w2)
                  = (if triggerHybrid settings
                     then lastOcrTextRef (refs w) else currentText r)
                ∧ count isAnalyze (trace w2) = count isAnalyze (trace w)
                ∧ count isDetect (trace w2) = count isDetect (trace w)
                ∧ cursors w2 = cursors w).
  { subst w2. destruct (triggerHybrid settings); munfold; cbn -[count];
      rewrite !count_snoc; cbn;
      (split_and!; [done | done | lia | lia | done]). }
  destruct Hw2 as (Hs2 & Ho2 & Ha2 & Hd2 & Hc2).
  assert (Hgate : SameGate w2 (performAnalysis settings img false env w2).2).
  { apply (Keeps_performAnalysis (λ _, SameGate) (λ _, True)); frame_side. }
  destruct Hgate as [Hl _].
  split_and!.
  - by apply performAnalysis_shot.
  - by rewrite Hl.
  - intros Hkey.
    destruct (performAnalysis_end env settings img false w2 Hkey)
      as (_ & Hres & _ & Ha & Hd & _).
    rewrite Ha, Hd, Ha2, Hd2, Hres. split_and!; [lia | lia |].
    by exists w2.
Qed.

(** The first sequence that the auto-pilot posts. *)
Lemma handleAutoPilot_first_post (opt : QuestionOption)
    (nextButtonBox : option BoundingBox) (clickNext : bool) (w : World) :
  ∃ after,
    trace (handleAutoPilot opt nextButtonBox clickNext env w).2
    = trace w
      ++ [EvLog success (MsgTargetIdentified (text opt));
          EvLog info (MsgExecutionAttempt 1 maxRetries_autoPilot);
          EvPostMessage (selectSequence opt)]
      ++ after.
Proof.
  rewrite handleAutoPilot_run. cbv zeta.
  set (w0 := with_trace _ w).
  assert (Hloop : ∃ after,
            trace (autoPilotLoop maxRetries_autoPilot opt 0 false env w0).2
            = trace w0
              ++ [EvLog info (MsgExecutionAttempt 1 maxRetries_autoPilot);
                  EvPostMessage (selectSequence opt)]
              ++ after).
  { change (autoPilotLoop maxRetries_autoPilot opt 0 false)
      with (autoPilotAttempt opt 1 false
            ≫= autoPilotLoop 4 opt 1).
    rewrite run_bind.
    destruct (autoPilotAttempt_run env opt 1 false w0) as (Htr & _).
    destruct (autoPilotLoop_posts env opt 4 1
                (autoPilotAttempt opt 1 false env w0).1
                (autoPilotAttempt opt 1 false env w0).2)
      as ((evs & Hevs & _) & _).
    rewrite Hevs, Htr. unfold attemptEvents.
    eexists. rewrite <- !app_assoc. cbn [app]. reflexivity. }
  destruct Hloop as (after & Hafter).
  destruct (autoPilotLoop _ _ _ _ _ _) as [verified w1].
  cbn [fst snd] in *.
  assert (H0 : trace w0
               = trace w ++ [EvLog success (MsgTargetIdentified (text opt))])
    by done.
  destruct (verified && clickNext); [| destruct (negb verified)];
    cbn [trace with_trace]; rewrite Hafter, H0;
    eexists; rewrite <- !app_assoc; cbn [app]; reflexivity.
Qed.

(** What [performAnalysis] does with the result of the analysis, in
    whatever state the result finds the session. *)
Lemma handleResult_applies (result : AnalysisResult) (w : World) :
  let w' := (handleResult settings img result env w).2 in
  lastResult (react w') = Some result
  ∧ lastScreenshotRef (refs w')
    = (if negb (truthy (error result)) && hasQuestion result
       then Some img else lastScreenshotRef (refs w))
  ∧ (∀ opts correctOption,
       autoSelect settings = true → hasQuestion result = true →
       options result = Some opts →
       List.find isCorrect opts = Some correctOption →
       Num.ge (confidenceScore correctOption) (confidenceThreshold settings)
       = true →
       ∃ before after,
         trace w'
         = trace w ++ before
           ++ EvPostMessage (selectSequence correctOption) :: after).
Proof.
  cbv zeta. rewrite handleResult_run. cbv zeta.
  set (w1 := (reportResult settings img result env w).2).
  set (w2 := with_react (set_lastResult (Some result)) w1).
  assert (Hreact : SameReact w2 (autoSelectArm settings result env w2).2).
  { apply (Keeps_autoSelectArm (λ _, SameReact) (λ _, True)); frame_side. }
  assert (Hshot : SameShot w2 (autoSelectArm settings result env w2).2).
  { apply (Keeps_autoSelectArm (λ _, SameShot) (λ _, True)); frame_side. }
  split_and!.
  - by rewrite Hreact.
  - rewrite Hshot. subst w2 w1. cbn [refs with_react].
    apply reportResult_shot.
  - intros opts o Hauto Hq Hopts Hfind Hconf.
    assert (Hrep : Emits (λ _, True) w w1).
    { apply (Keeps_reportResult (λ _, Emits _) (λ _, True)); frame_side. }
    destruct Hrep as (before & Hbefore & _).
    unfold autoSelectArm. rewrite Hopts, Hauto, Hq, Hfind, Hconf.
    cbn [andb].
    destruct (handleAutoPilot_first_post o (nextButton result)
                (autoNext settings) w2) as (after & Hafter).
    rewrite Hafter.
    change (trace w2) with (trace w1). rewrite Hbefore.
    eexists (before ++ [_; _]), after.
    rewrite <- !app_assoc. cbn [app]. reflexivity.
Qed.

End ResultsApplied.



(* ===================================================================== *)
(** * Ticks dropped while the busy flag is up *)
(* ===================================================================== *)

(** C8 (as the code has it): [performAnalysis] raises the busy flag
    before its first [await] and lowers it when it ends, so the flag is
    up at every point where an analysis, left alone, is suspended; and in
    smart and hybrid mode a tick that finds the flag up does nothing but
    re-arm the timer: no frame is captured, no OCR, no oracle and no
    analyzer call is made, no task is left suspended, nothing is recorded
    for later, and the next tick is scheduled one second ahead. *)
Theorem busy_tick_is_dropped :
  (∀ (env : Env) (settings : AppSettings) (img : Frame)
     (shouldFlash : bool) (w : World),
     Forall (λ s, processingRef (refs s.2) = true)
       (Tasks.suspensions (Tasks.performAnalysis settings img shouldFlash)
          env w)
     ∧ (truthy (apiKey settings) = true →
        processingRef
          (refs (performAnalysis settings img shouldFlash env w).2)
        = false))
  ∧ (∀ (env : Env) (settings : AppSettings) (w : World),
       let w' := (runAutomationLoop settings true env w).2 in
       triggerTime settings = false →
       triggerSmart settings = true →
       isAutomationRunningRef (refs w) = true →
       processingRef (refs w) = true →
       w' = with_refs (set_automationTimeoutRef (Some 1000%N))
              (with_trace (λ t, t ++ [EvSetTimeout 1000%N]) w)
       ∧ Tasks.advance (Tasks.runAutomationLoop settings true) env w
         = (w', None)
       ∧ trace w' = trace w ++ [EvSetTimeout 1000%N]
       ∧ cursors w' = cursors w
       ∧ react w' = react w
       ∧ processingRef (refs w') = true
       ∧ lastOcrTextRef (refs w') = lastOcrTextRef (refs w)
       ∧ lastScreenshotRef (refs w') = lastScreenshotRef (refs w)
       ∧ ocrStabilityCounterRef (refs w') = ocrStabilityCounterRef (refs w)
       ∧ automationTimeoutRef (refs w') = Some 1000%N).
Proof.
  split.
  - intros env settings img shouldFlash w. split.
    + apply performAnalysis_busy.
    + intros Hkey.
      by destruct (performAnalysis_end env settings img shouldFlash w Hkey).
  - intros env settings w w' Htime Hsmart Hrun Hproc.
    assert (Hw' : w' = with_refs (set_automationTimeoutRef (Some 1000%N))
                         (with_trace (λ t, t ++ [EvSetTimeout 1000%N]) w)).
    { subst w'. unfold runAutomationLoop, tickBody.
      rewrite Htime, Hsmart. munfold. cbn.
      rewrite Hrun. cbn. rewrite Hproc. cbn. rewrite Hrun. reflexivity. }
    split; [exact Hw' |]. split.
    + rewrite Hw'. unfold Tasks.runAutomationLoop, Tasks.tickBody.
      rewrite Htime, Hsmart. cbn. rewrite Hrun. cbn. rewrite Hproc. cbn.
      rewrite Hrun. reflexivity.
    + rewrite Hw'. cbn. by split_and!.
Qed.

Lemma busy_tick_is_dropped_witness :
  (let waits :=
     Tasks.suspensions (Tasks.performAnalysis smartLookSettings sampleFrame
                          true) newQuestionEnv
       (runningWorld smartLookSettings) in
   fst <$> waits = [Tasks.OcrScan; Tasks.Request]
   ∧ Forall (λ s, processingRef (refs s.2) = true) waits)
  ∧ (let w := with_refs (set_processingRef true)
                (runningWorld autoSelectSettings) in
     let w' := (runAutomationLoop autoSelectSettings true idleEnv w).2 in
     trace w' = [EvSetTimeout 1000%N] ∧ cursors w' = cursors w).
Proof.
  destruct busy_tick_is_dropped as [Hup Hdrop]. split.
  - split; [reflexivity |].
    exact (proj1 (Hup newQuestionEnv smartLookSettings sampleFrame true
                    (runningWorld smartLookSettings))).
  - pose proof (Hdrop idleEnv autoSelectSettings
                  (with_refs (set_processingRef true)
                     (runningWorld autoSelectSettings))
                  eq_refl eq_refl eq_refl eq_refl) as (_ & _ & Htr & Hcur & _).
    split; [exact Htr | exact Hcur].
Defined.

(** C8 fails as stated: the busy flag does not keep remote calls apart.
    While a tick in smart mode waits for the change oracle the flag is
    down.  The tick finds a new question and its analysis waits for the
    answer to its request, the flag up, when Manual Scan is clicked: the
    click does not look at the flag and starts an analysis of its own, and
    two requests are outstanding.  When the first analysis ends it lowers
    the flag, and the next tick, which fires while the second analysis is
    still waiting, is not dropped: it captures a frame and calls the
    change oracle. *)
Lemma manual_scan_overlaps_analysis :
  let tick := Tasks.runAutomationLoop smartLookSettings true in
  let click := Tasks.manualScan smartLookSettings in
  let start :=
    {| Tasks.world := runningWorld smartLookSettings;
       Tasks.suspended := [] |} in
  let asking := Tasks.play newQuestionEnv [Tasks.Fire tick] start in
  let pending :=
    Tasks.play newQuestionEnv [Tasks.Settle 0; Tasks.Settle 0] asking in
  let overlap :=
    Tasks.play newQuestionEnv [Tasks.Fire click; Tasks.Settle 1] pending in
  let later :=
    Tasks.play newQuestionEnv [Tasks.Settle 0; Tasks.Fire tick] overlap in
  (Tasks.waitingFor asking = [Tasks.OracleCall]
   ∧ processingRef (refs (Tasks.world asking)) = false)
  ∧ (Tasks.waitingFor pending = [Tasks.Request]
     ∧ processingRef (refs (Tasks.world pending)) = true)
  ∧ (Tasks.waitingFor overlap = [Tasks.Request; Tasks.Request]
     ∧ Tasks.outstanding overlap = 2
     ∧ count isGenerate (trace (Tasks.world overlap)) = 2)
  ∧ (Tasks.waitingFor later = [Tasks.Request; Tasks.OracleCall]
     ∧ Tasks.outstanding later = 2
     ∧ processingRef (refs (Tasks.world later)) = false
     ∧ count isCapture (trace (Tasks.world later))
       = count isCapture (trace (Tasks.world overlap)) + 1
     ∧ count isCheck (trace (Tasks.world later))
       = count isCheck (trace (Tasks.world overlap)) + 1).
Proof. vm_compute. by split_and!. Qed.
